(** * HealthBox [database.py]: the JSON database backend

    A shallow embedding of [JSONDatabaseBackend] (load, save and the
    proxied mapping operations) over an explicit model of the Python
    object heap, the file system and the external collaborators
    ([json], [copy], [crypto]), followed by the properties of the
    persistence protocol. *)

From Stdlib Require Import ZArith Ascii String List Bool Lia.
From Stdlib Require Import Strings.Byte.
From stdpp Require Import gmap strings list fin_maps pretty.

Open Scope string_scope.
Open Scope list_scope.

Set Warnings "-register-all".

#[global] Instance byte_eq_decision : EqDecision byte := byte_eq_dec.

(** ** Python values and the object heap *)

Module Py.

Definition loc := nat.

(** Immutable (hashable) values.  Floats are outside the model. *)
Inductive atom :=
| ANone
| ABool (b : bool)
| AInt (z : Z)
| AStr (s : string).

(** A value is an immutable atom or a reference to a mutable object. *)
Inductive pyval :=
| VAtom (a : atom)
| VRef (l : loc).

(** Mutable objects: lists, and dicts in insertion order. *)
Inductive pyobj :=
| OList (items : list pyval)
| ODict (entries : list (atom * pyval)).

Definition heap := list pyobj.

Definition VNone : pyval := VAtom ANone.
Definition VBool (b : bool) : pyval := VAtom (ABool b).
Definition VStr (s : string) : pyval := VAtom (AStr s).

(** [x is None] *)
Definition is_None (v : pyval) : bool :=
  match v with VAtom ANone => true | _ => false end.

(** Exceptions.  [InvalidKeyError] is [crypto.InvalidKeyError]; any
    other exception class of the crypto module is a [CryptoError]. *)
Inductive exn :=
| Exception (msg : string)
| AssertionError (msg : string)
| AttributeError (name : string)
| TypeError
| ValueError
| KeyError (k : atom)
| RecursionError
| SystemError
| FileNotFoundError (path : string)
| FileExistsError (path : string)
| IsADirectoryError (path : string)
| UnsupportedOperation
| JSONDecodeError
| LookupError
| UnicodeError
| InvalidKeyError
| CryptoError (tag : string).

Definition result (A : Type) : Type := exn + A.

(** Allocation of a new object: the next free address. *)
Definition new_object (h : heap) (o : pyobj) : heap * loc :=
  (h ++ [o], length h).

(** Python's [==] on hashable atoms: [True == 1] and [False == 0]. *)
Definition atom_num (a : atom) : option Z :=
  match a with
  | ABool b => Some (Z.b2z b)
  | AInt z => Some z
  | _ => None
  end.

Definition key_eqb (a b : atom) : bool :=
  match a, b with
  | ANone, ANone => true
  | AStr s, AStr t => String.eqb s t
  | _, _ =>
      match atom_num a, atom_num b with
      | Some x, Some y => Z.eqb x y
      | _, _ => false
      end
  end.

(** Only atoms are hashable: a list or a dict used as a key raises
    [TypeError]. *)
Definition as_key (v : pyval) : result atom :=
  match v with
  | VAtom a => inr a
  | VRef _ => inl TypeError
  end.

(** *** Dict primitives on insertion-ordered entries *)

Fixpoint dict_lookup (k : atom) (es : list (atom * pyval)) : option pyval :=
  match es with
  | [] => None
  | (k', v) :: es' => if key_eqb k' k then Some v else dict_lookup k es'
  end.

(** [d[k] = v]: an existing key keeps its position (and its key
    object); a new key goes last. *)
Fixpoint dict_set (k : atom) (v : pyval) (es : list (atom * pyval))
  : list (atom * pyval) :=
  match es with
  | [] => [(k, v)]
  | (k', v') :: es' =>
      if key_eqb k' k then (k', v) :: es' else (k', v') :: dict_set k v es'
  end.

Fixpoint dict_del (k : atom) (es : list (atom * pyval)) : list (atom * pyval) :=
  match es with
  | [] => []
  | (k', v') :: es' =>
      if key_eqb k' k then es' else (k', v') :: dict_del k es'
  end.

Definition dict_of_pairs (es : list (atom * pyval)) : list (atom * pyval) :=
  fold_left (fun d kv => dict_set (fst kv) (snd kv) d) es [].

(** *** Error-propagating helpers *)

Definition res_bind {A B} (r : result A) (f : A -> result B) : result B :=
  match r with
  | inl e => inl e
  | inr a => f a
  end.

Definition res_map {A B} (f : A -> B) (r : result A) : result B :=
  res_bind r (fun a => inr (f a)).

Fixpoint res_mapM {A B} (f : A -> result B) (l : list A) : result (list B) :=
  match l with
  | [] => inr []
  | a :: l' =>
      res_bind (f a) (fun b => res_bind (res_mapM f l') (fun bs => inr (b :: bs)))
  end.

(** *** Object graphs as trees

    The value a reference denotes when the reachable part of the heap
    is acyclic: what [json.dumps] walks, and what [json.loads] and
    [copy.deepcopy] build. *)
Inductive tree :=
| TAtom (a : atom)
| TList (ts : list tree)
| TDict (es : list (atom * tree)).

(** The encoder's traversal.  [markers] holds the containers being
    encoded; meeting one again is "Circular reference detected".  An
    address outside the heap, which no Python program can hold, is a
    [SystemError]. *)
Fixpoint snapshot_fuel (n : nat) (h : heap) (markers : list loc) (v : pyval)
  : result tree :=
  match v with
  | VAtom a => inr (TAtom a)
  | VRef l =>
      if bool_decide (l ∈ markers) then inl ValueError
      else
        match n with
        | O => inl RecursionError
        | S n' =>
            match h !! l with
            | None => inl SystemError
            | Some (OList xs) =>
                res_map TList (res_mapM (snapshot_fuel n' h (l :: markers)) xs)
            | Some (ODict es) =>
                res_map TDict
                  (res_mapM (fun kv =>
                     res_map (pair (fst kv))
                       (snapshot_fuel n' h (l :: markers) (snd kv))) es)
            end
        end
  end.

(** The nesting depth of an acyclic graph is at most the number of
    objects, so this fuel is never exhausted before a cycle is met; the
    recursion limit as the encoder meets it is not modelled. *)
Definition snapshot (h : heap) (v : pyval) : result tree :=
  snapshot_fuel (S (length h)) h [] v.

(** The decoder's construction: fresh objects, children first; a dict
    is filled pair by pair, so a repeated key keeps the last value. *)
Fixpoint build (h : heap) (t : tree) : heap * pyval :=
  match t with
  | TAtom a => (h, VAtom a)
  | TList ts =>
      let '(h1, vs) :=
        (fix build_items (h : heap) (ts : list tree) : heap * list pyval :=
           match ts with
           | [] => (h, [])
           | t :: ts' =>
               let '(h1, v) := build h t in
               let '(h2, vs) := build_items h1 ts' in
               (h2, v :: vs)
           end) h ts in
      let '(h2, l) := new_object h1 (OList vs) in
      (h2, VRef l)
  | TDict es =>
      let '(h1, kvs) :=
        (fix build_entries (h : heap) (es : list (atom * tree))
           : heap * list (atom * pyval) :=
           match es with
           | [] => (h, [])
           | (k, t) :: es' =>
               let '(h1, v) := build h t in
               let '(h2, kvs) := build_entries h1 es' in
               (h2, (k, v) :: kvs)
           end) h es in
      let '(h2, l) := new_object h1 (ODict (dict_of_pairs kvs)) in
      (h2, VRef l)
  end.

(** *** [copy.deepcopy] *)

Definition memo_get (memo : list (loc * loc)) (l : loc) : option loc :=
  snd <$> find (fun p => Nat.eqb (fst p) l) memo.

(** [y.append (v)] on the list at [l] *)
Definition list_append (h : heap) (l : loc) (v : pyval) : heap :=
  match h !! l with
  | Some (OList ys) => <[l := OList (ys ++ [v])]> h
  | _ => h
  end.

(** [y[k] = v] on the dict at [l] *)
Definition dict_store (h : heap) (l : loc) (k : atom) (v : pyval) : heap :=
  match h !! l with
  | Some (ODict es) => <[l := ODict (dict_set k v es)]> h
  | _ => h
  end.

(** Atoms are returned as they are.  A container is copied once: the
    empty copy is entered in the memo before its elements are copied,
    so shared and cyclic structure is preserved. *)
Fixpoint deepcopy_fuel (n : nat) (memo : list (loc * loc)) (h : heap) (v : pyval)
  : result (list (loc * loc) * heap * pyval) :=
  match v with
  | VAtom a => inr (memo, h, VAtom a)
  | VRef l =>
      match memo_get memo l with
      | Some l' => inr (memo, h, VRef l')
      | None =>
          match n with
          | O => inl RecursionError
          | S n' =>
              match h !! l with
              | None => inl SystemError
              | Some (OList xs) =>
                  let '(h0, l') := new_object h (OList []) in
                  res_map (fun mh => (fst mh, snd mh, VRef l'))
                    ((fix copy_items (memo : list (loc * loc)) (h : heap)
                          (xs : list pyval) : result (list (loc * loc) * heap) :=
                        match xs with
                        | [] => inr (memo, h)
                        | x :: xs' =>
                            res_bind (deepcopy_fuel n' memo h x) (fun r =>
                              let '(memo1, h1, x') := r in
                              copy_items memo1 (list_append h1 l' x') xs')
                        end) ((l, l') :: memo) h0 xs)
              | Some (ODict es) =>
                  let '(h0, l') := new_object h (ODict []) in
                  res_map (fun mh => (fst mh, snd mh, VRef l'))
                    ((fix copy_entries (memo : list (loc * loc)) (h : heap)
                          (es : list (atom * pyval))
                        : result (list (loc * loc) * heap) :=
                        match es with
                        | [] => inr (memo, h)
                        | (k, x) :: es' =>
                            res_bind (deepcopy_fuel n' memo h x) (fun r =>
                              let '(memo1, h1, x') := r in
                              copy_entries memo1 (dict_store h1 l' k x') es')
                        end) ((l, l') :: memo) h0 es)
              end
          end
      end
  end.

(** [copy.deepcopy] recurses once for each container nested in the
    one it is copying and not yet in the memo; [depth] is how many
    such levels the interpreter lets it enter before it raises
    [RecursionError]. *)
Definition deepcopy (depth : nat) (h : heap) (v : pyval)
  : result (heap * pyval) :=
  res_map (fun r => (snd (fst r), snd r)) (deepcopy_fuel depth [] h v).

End Py.

Import Py.

(** ** The methods of [dict] that the backend proxies *)

Module Dict.

Inductive view_kind := ItemsView | KeysView | ValuesView.

(** What a call returns: a value, a 2-tuple ([popitem]) or a live view
    of the dict at an address ([items], [keys], [values]). *)
Inductive pyres :=
| RVal (v : pyval)
| RPair (k : atom) (v : pyval)
| RView (kind : view_kind) (l : loc).

Definition RNone : pyres := RVal VNone.

(** A bound method: heap, address of the receiver, positional and
    keyword arguments. *)
Definition method : Type :=
  heap -> loc -> list pyval -> list (string * pyval) -> heap * result pyres.

Definition entries_of (h : heap) (l : loc) : list (atom * pyval) :=
  match h !! l with
  | Some (ODict es) => es
  | _ => []
  end.

(** [iter (v)]: the elements of a list, the keys of a dict, the
    characters of a string. *)
Definition iterate (h : heap) (v : pyval) : result (list pyval) :=
  match v with
  | VAtom (AStr s) =>
      inr (map (fun c => VStr (String c EmptyString)) (list_ascii_of_string s))
  | VAtom _ => inl TypeError
  | VRef l =>
      match h !! l with
      | Some (OList xs) => inr xs
      | Some (ODict es) => inr (map (fun kv => VAtom (fst kv)) es)
      | None => inl SystemError
      end
  end.

Definition dict_contains : method := fun h l args kwargs =>
  match args, kwargs with
  | [k], [] =>
      (h, res_map (fun a =>
                     RVal (VBool (bool_decide
                                    (is_Some (dict_lookup a (entries_of h l))))))
            (as_key k))
  | _, _ => (h, inl TypeError)
  end.

Definition dict_getitem : method := fun h l args kwargs =>
  match args, kwargs with
  | [k], [] =>
      (h, res_bind (as_key k) (fun a =>
            match dict_lookup a (entries_of h l) with
            | Some v => inr (RVal v)
            | None => inl (KeyError a)
            end))
  | _, _ => (h, inl TypeError)
  end.

Definition dict_setitem : method := fun h l args kwargs =>
  match args, kwargs with
  | [k; v], [] =>
      match as_key k with
      | inl e => (h, inl e)
      | inr a => (dict_store h l a v, inr RNone)
      end
  | _, _ => (h, inl TypeError)
  end.

Definition dict_delitem : method := fun h l args kwargs =>
  match args, kwargs with
  | [k], [] =>
      match as_key k with
      | inl e => (h, inl e)
      | inr a =>
          match dict_lookup a (entries_of h l) with
          | Some _ => (<[l := ODict (dict_del a (entries_of h l))]> h, inr RNone)
          | None => (h, inl (KeyError a))
          end
      end
  | _, _ => (h, inl TypeError)
  end.

Definition dict_clear : method := fun h l args kwargs =>
  match args, kwargs with
  | [], [] => (<[l := ODict []]> h, inr RNone)
  | _, _ => (h, inl TypeError)
  end.

(** A shallow copy: a new dict holding the same value references. *)
Definition dict_copy : method := fun h l args kwargs =>
  match args, kwargs with
  | [], [] =>
      let '(h', l') := new_object h (ODict (entries_of h l)) in
      (h', inr (RVal (VRef l')))
  | _, _ => (h, inl TypeError)
  end.

(** [fromkeys (iterable, value = None)]: a class method, it builds a
    new dict and does not read the receiver. *)
Definition dict_fromkeys : method := fun h l args kwargs =>
  let make (it v : pyval) :=
    match res_bind (iterate h it) (res_mapM as_key) with
    | inl e => (h, inl e)
    | inr ks =>
        let '(h', l') :=
          new_object h (ODict (dict_of_pairs (map (fun k => (k, v)) ks))) in
        (h', inr (RVal (VRef l')))
    end in
  match args, kwargs with
  | [it], [] => make it VNone
  | [it; v], [] => make it v
  | _, _ => (h, inl TypeError)
  end.

Definition dict_get : method := fun h l args kwargs =>
  let get (k d : pyval) :=
    (h, res_map (fun a => RVal (default d (dict_lookup a (entries_of h l))))
          (as_key k)) in
  match args, kwargs with
  | [k], [] => get k VNone
  | [k; d], [] => get k d
  | _, _ => (h, inl TypeError)
  end.

Definition dict_view (kind : view_kind) : method := fun h l args kwargs =>
  match args, kwargs with
  | [], [] => (h, inr (RView kind l))
  | _, _ => (h, inl TypeError)
  end.

(** What iterating a view yields on the current heap. *)
Definition view_contents (h : heap) (r : pyres) : list pyres :=
  match r with
  | RView ItemsView l => map (fun kv => RPair (fst kv) (snd kv)) (entries_of h l)
  | RView KeysView l => map (fun kv => RVal (VAtom (fst kv))) (entries_of h l)
  | RView ValuesView l => map (fun kv => RVal (snd kv)) (entries_of h l)
  | _ => []
  end.

Definition dict_pop : method := fun h l args kwargs =>
  let pop (k : pyval) (d : option pyval) :=
    match as_key k with
    | inl e => (h, inl e)
    | inr a =>
        match dict_lookup a (entries_of h l), d with
        | Some v, _ => (<[l := ODict (dict_del a (entries_of h l))]> h, inr (RVal v))
        | None, Some v => (h, inr (RVal v))
        | None, None => (h, inl (KeyError a))
        end
    end in
  match args, kwargs with
  | [k], [] => pop k None
  | [k; d], [] => pop k (Some d)
  | _, _ => (h, inl TypeError)
  end.

(** The pair inserted last is removed and returned. *)
Definition dict_popitem : method := fun h l args kwargs =>
  match args, kwargs with
  | [], [] =>
      match rev (entries_of h l) with
      | [] => (h, inl (KeyError (AStr "popitem(): dictionary is empty")))
      | (k, v) :: es' => (<[l := ODict (rev es')]> h, inr (RPair k v))
      end
  | _, _ => (h, inl TypeError)
  end.

Definition dict_setdefault : method := fun h l args kwargs =>
  let setdefault (k d : pyval) :=
    match as_key k with
    | inl e => (h, inl e)
    | inr a =>
        match dict_lookup a (entries_of h l) with
        | Some v => (h, inr (RVal v))
        | None => (dict_store h l a d, inr (RVal d))
        end
    end in
  match args, kwargs with
  | [k], [] => setdefault k VNone
  | [k; d], [] => setdefault k d
  | _, _ => (h, inl TypeError)
  end.

(** [update] from a sequence of pairs: the pairs before a malformed
    element have been stored when the error is raised. *)
Fixpoint update_pairs (h : heap) (l : loc) (elems : list pyval)
  : heap * result unit :=
  match elems with
  | [] => (h, inr tt)
  | e :: rest =>
      match iterate h e with
      | inl err => (h, inl err)
      | inr [k; v] =>
          match as_key k with
          | inl err => (h, inl err)
          | inr a => update_pairs (dict_store h l a v) l rest
          end
      | inr _ => (h, inl ValueError)
      end
  end.

Definition update_kwargs (h : heap) (l : loc) (kwargs : list (string * pyval))
  : heap :=
  fold_left (fun h kv => dict_store h l (AStr (fst kv)) (snd kv)) kwargs h.

(** [update ([other], **kwargs)]: [other] is a dict or an iterable of
    pairs; the keyword arguments are stored after it. *)
Definition dict_update : method := fun h l args kwargs =>
  match args with
  | [] => (update_kwargs h l kwargs, inr RNone)
  | [other] =>
      let '(h1, r) :=
        match other with
        | VRef l' =>
            match h !! l' with
            | Some (ODict es) =>
                (fold_left (fun h kv => dict_store h l (fst kv) (snd kv)) es h,
                 inr tt)
            | Some (OList xs) => update_pairs h l xs
            | None => (h, inl SystemError)
            end
        | VAtom _ =>
            match iterate h other with
            | inl e => (h, inl e)
            | inr xs => update_pairs h l xs
            end
        end in
      match r with
      | inl e => (h1, inl e)
      | inr _ => (update_kwargs h1 l kwargs, inr RNone)
      end
  | _ => (h, inl TypeError)
  end.

(** The names the module loop installs on the backend class. *)
Definition func_names : list string :=
  ["__contains__"; "__getitem__"; "__setitem__"; "__delitem__"; "clear";
   "copy"; "fromkeys"; "get"; "items"; "keys"; "pop"; "popitem";
   "setdefault"; "update"; "values"].

Definition dict_methods : list (string * method) :=
  [("__contains__", dict_contains); ("__getitem__", dict_getitem);
   ("__setitem__", dict_setitem); ("__delitem__", dict_delitem);
   ("clear", dict_clear); ("copy", dict_copy); ("fromkeys", dict_fromkeys);
   ("get", dict_get); ("items", dict_view ItemsView);
   ("keys", dict_view KeysView); ("pop", dict_pop);
   ("popitem", dict_popitem); ("setdefault", dict_setdefault);
   ("update", dict_update); ("values", dict_view ValuesView)].

Definition dict_getattr (name : string) : option method :=
  snd <$> find (fun p => String.eqb (fst p) name) dict_methods.

(** Those of the proxied names that [list] and [str] define too. *)
Definition list_attrs : list string :=
  ["__contains__"; "__getitem__"; "__setitem__"; "__delitem__"; "clear";
   "copy"; "pop"].

Definition str_attrs : list string := ["__contains__"; "__getitem__"].

Definition has_name (name : string) (names : list string) : bool :=
  existsb (String.eqb name) names.

(** Calling [getattr (recv, name)] on the arguments, for a proxied name.
    [None], [bool] and [int] define none of these names.  The result
    is [None] (outside the model) for another name, for a method of
    [list] or [str], and for a dangling address. *)
Definition call_attr (h : heap) (recv : pyval) (name : string)
    (args : list pyval) (kwargs : list (string * pyval))
  : option (heap * result pyres) :=
  if negb (has_name name func_names) then None
  else
    match recv with
    | VRef l =>
        match h !! l with
        | Some (ODict _) => (fun m : method => m h l args kwargs) <$> dict_getattr name
        | Some (OList _) =>
            if has_name name list_attrs then None
            else Some (h, inl (AttributeError name))
        | None => None
        end
    | VAtom (AStr _) =>
        if has_name name str_attrs then None
        else Some (h, inl (AttributeError name))
    | VAtom _ => Some (h, inl (AttributeError name))
    end.

End Dict.

Import Dict.

(** ** The file system *)

Module FS.

Inductive node :=
| File (content : list byte)
| Dir.

(** A flat name space from paths to nodes.  Parent directories,
    permissions and symbolic links are not modelled. *)
Abbreviation filesystem := (gmap string node).

(** [os.path.exists] and [os.path.isfile] *)
Definition path_exists (fs : filesystem) (p : string) : bool :=
  bool_decide (is_Some (fs !! p)).

Definition path_isfile (fs : filesystem) (p : string) : bool :=
  match fs !! p with
  | Some (File _) => true
  | _ => false
  end.

(** The mode string of [open], as [io.open] reads it. *)
Record open_mode := {
  reading : bool;
  writing : bool;
  creating : bool;
  appending : bool;
  updating : bool;
  binary : bool
}.

Definition count_char (c : ascii) (m : string) : nat :=
  length (filter (fun x => x = c) (list_ascii_of_string m)).

Definition mode_chars : list ascii :=
  ["r"; "w"; "x"; "a"; "+"; "t"; "b"]%char.

Definition parse_mode (m : string) : option open_mode :=
  let has c := Nat.ltb 0 (count_char c m) in
  let once := forallb (fun c => Nat.leb (count_char c m) 1) mode_chars in
  let known :=
    forallb (fun x => existsb (Ascii.eqb x) mode_chars) (list_ascii_of_string m) in
  let kinds :=
    (count_char "r" m + count_char "w" m + count_char "x" m + count_char "a" m)%nat in
  if once && known && Nat.eqb kinds 1 && negb (has "t"%char && has "b"%char)
  then Some {| reading := has "r"%char; writing := has "w"%char;
               creating := has "x"%char; appending := has "a"%char;
               updating := has "+"%char; binary := has "b"%char |}
  else None.

(** An open file: handles live only inside one [with] block, so the
    path stands for the descriptor.  The source writes or reads once
    through each handle; the position is the start of the file, or its
    end for ["a"]. *)
Record handle := {
  h_path : string;
  h_readable : bool;
  h_writable : bool;
  h_binary : bool;
  h_append : bool
}.

Definition handle_of (p : string) (m : open_mode) : handle :=
  {| h_path := p;
     h_readable := reading m || updating m;
     h_writable := writing m || creating m || appending m || updating m;
     h_binary := binary m;
     h_append := appending m |}.

(** [open (p, mode)]: ["w"] creates the file or truncates it, with or
    without ["+"]; ["x"] refuses an existing path; ["r"] and ["a"]
    keep the content; a directory cannot be opened. *)
Definition open_file (fs : filesystem) (p : string) (mode : string)
  : result (filesystem * handle) :=
  match parse_mode mode with
  | None => inl ValueError
  | Some m =>
      match fs !! p with
      | Some Dir =>
          if creating m then inl (FileExistsError p)
          else inl (IsADirectoryError p)
      | Some (File c) =>
          if creating m then inl (FileExistsError p)
          else if writing m then inr (<[p := File []]> fs, handle_of p m)
          else inr (fs, handle_of p m)
      | None =>
          if reading m then inl (FileNotFoundError p)
          else inr (<[p := File []]> fs, handle_of p m)
      end
  end.

(** Writing through a handle: over the start of the content, or after
    its end for ["a"]. *)
Definition write_file (fs : filesystem) (f : handle) (data : list byte)
  : result filesystem :=
  if h_writable f then
    match fs !! h_path f with
    | Some (File c) =>
        inr (<[h_path f := File (if h_append f then c ++ data
                                 else data ++ drop (length data) c)]> fs)
    | _ => inl (FileNotFoundError (h_path f))
    end
  else inl UnsupportedOperation.

(** [f.read ()] from the start of the file. *)
Definition read_file (fs : filesystem) (f : handle) : result (list byte) :=
  if h_readable f then
    match fs !! h_path f with
    | Some (File c) => inr c
    | _ => inl (FileNotFoundError (h_path f))
    end
  else inl UnsupportedOperation.

End FS.

Import FS.

(** ** External collaborators *)

(** Modelled from the spec: the module [crypto] ([crypto.py]) is not
    among the sources.  Its operations are parameters with the
    signatures of the Crypto Provider contract: [make_new] is
    [HashBasedCryptoData.make_new], [check_string_key] the verification
    primitive, [encrypt] and [decrypt] those of [HashBasedCryptoProvider],
    [interop_load] and [interop_dump] those of
    [HashBasedCryptoDataFileInteropProvider] (the text read from, and
    written to, the metadata file; a dump yields the text written and the
    exception raised, if any).  The secret is [None] when the constructor's
    default was kept. *)
Class CryptoProvider := {
  cryptodata : Type;
  make_new : option string -> string -> result cryptodata;
  check_string_key : cryptodata -> option string -> string -> result unit;
  encrypt : cryptodata -> list byte -> result (list byte);
  decrypt : cryptodata -> list byte -> result (list byte);
  interop_load : string -> option string -> string -> result cryptodata;
  interop_dump : cryptodata -> string * option exn
}.

(** The text side of the standard library: the JSON text of a tree
    ([json_encode]), the tree a JSON text denotes ([json_decode], [None]
    for malformed text), the text [json.dump] has already written when
    the value turns out not to be encodable ([json_partial]), and the
    codecs behind [str.encode] and [bytes.decode]. *)
Class TextFormat := {
  json_encode : tree -> string;
  json_decode : string -> option tree;
  json_partial : heap -> pyval -> string;
  str_encode : string -> string -> result (list byte);
  bytes_decode : string -> list byte -> result string
}.

(** The interpreter's recursion limit as [copy.deepcopy] meets it: a
    container is always copied, and [deepcopy_depth] is the number of
    levels of containers nested below it that the copy can enter before
    [RecursionError] (it takes two frames a level, so this is somewhat
    under half of [sys.getrecursionlimit ()], less the frames of the
    caller).  The encoder and the decoder of [json] go about twice as
    deep before they meet the limit; that is not modelled. *)
Class Interpreter := {
  deepcopy_depth : nat
}.

(** ** The backend *)

Section Backend.

Context {crypto : CryptoProvider} {text : TextFormat} {interp : Interpreter}.

(** The attributes of a [JSONDatabaseBackend] object.  [crypto_data]
    is not set by [__init__]: it is absent until a load or a save
    assigns it. *)
Record JSONDatabaseBackend := {
  db_file_name : string;
  default : pyval;
  loaded : bool;
  _db : pyval;
  encryption : bool;
  crypto_data_file_name : option string;
  string_key : option string;
  encryption_text_encoding : string;
  crypto_data : option cryptodata
}.

(** [__init__], with the keyword defaults of the source supplied by
    [init_default]. *)
Definition init (db_file_name : string) (default : pyval) (encryption : bool)
    (crypto_data_file_name : option string) (string_key : option string)
    (encryption_text_encoding : string) : JSONDatabaseBackend :=
  {| db_file_name := db_file_name;
     default := default;
     loaded := false;
     _db := VNone;
     encryption := encryption;
     crypto_data_file_name := crypto_data_file_name;
     string_key := string_key;
     encryption_text_encoding := encryption_text_encoding;
     crypto_data := None |}.

Definition init_default (db_file_name : string) : JSONDatabaseBackend :=
  init db_file_name VNone false None None "utf-8".

(** What the program does to the outside, in order. *)
Inductive crypto_op :=
| CheckStringKey | MakeNew | Encrypt | Decrypt | InteropLoad | InteropDump.

Inductive event :=
| EvOpen (path : string) (mode : string)
| EvRead (path : string)
| EvWrite (path : string) (data : list byte)
| EvCrypto (op : crypto_op).

(** The machine state: disk, object heap, the trace of effects so far
    and the backend object. *)
Record state := {
  fs : filesystem;
  heap : Py.heap;
  trace : list event;
  self : JSONDatabaseBackend
}.

Definition with_fs (x : filesystem) (s : state) : state :=
  {| fs := x; heap := heap s; trace := trace s; self := self s |}.
Definition with_heap (x : Py.heap) (s : state) : state :=
  {| fs := fs s; heap := x; trace := trace s; self := self s |}.
Definition with_self (x : JSONDatabaseBackend) (s : state) : state :=
  {| fs := fs s; heap := heap s; trace := trace s; self := x |}.
Definition log (e : event) (s : state) : state :=
  {| fs := fs s; heap := heap s; trace := trace s ++ [e]; self := self s |}.

Definition set__db (v : pyval) (o : JSONDatabaseBackend) : JSONDatabaseBackend :=
  {| db_file_name := db_file_name o; default := default o; loaded := loaded o;
     _db := v; encryption := encryption o;
     crypto_data_file_name := crypto_data_file_name o;
     string_key := string_key o;
     encryption_text_encoding := encryption_text_encoding o;
     crypto_data := crypto_data o |}.
Definition set_loaded (b : bool) (o : JSONDatabaseBackend) : JSONDatabaseBackend :=
  {| db_file_name := db_file_name o; default := default o; loaded := b;
     _db := _db o; encryption := encryption o;
     crypto_data_file_name := crypto_data_file_name o;
     string_key := string_key o;
     encryption_text_encoding := encryption_text_encoding o;
     crypto_data := crypto_data o |}.
Definition set_crypto_data (c : cryptodata) (o : JSONDatabaseBackend)
  : JSONDatabaseBackend :=
  {| db_file_name := db_file_name o; default := default o; loaded := loaded o;
     _db := _db o; encryption := encryption o;
     crypto_data_file_name := crypto_data_file_name o;
     string_key := string_key o;
     encryption_text_encoding := encryption_text_encoding o;
     crypto_data := Some c |}.
Definition set_string_key (k : option string) (o : JSONDatabaseBackend)
  : JSONDatabaseBackend :=
  {| db_file_name := db_file_name o; default := default o; loaded := loaded o;
     _db := _db o; encryption := encryption o;
     crypto_data_file_name := crypto_data_file_name o;
     string_key := k;
     encryption_text_encoding := encryption_text_encoding o;
     crypto_data := crypto_data o |}.

(** *** Statements: a state and exception monad *)

Definition M (A : Type) : Type := state -> state * result A.

Definition ret {A} (a : A) : M A := fun s => (s, inr a).
Definition raise {A} (e : exn) : M A := fun s => (s, inl e).
Definition bind {A B} (m : M A) (k : A -> M B) : M B :=
  fun s =>
    match m s with
    | (s', inr a) => k a s'
    | (s', inl e) => (s', inl e)
    end.
Definition get : M state := fun s => (s, inr s).
Definition modify (f : state -> state) : M unit := fun s => (f s, inr tt).
Definition lift {A} (r : result A) : M A := fun s => (s, r).

(** [try: body except cls: handler], [catches] telling the class. *)
Definition try_except {A} (body : M A) (catches : exn -> bool) (handler : M A)
  : M A :=
  fun s =>
    match body s with
    | (s', inl e) => if catches e then handler s' else (s', inl e)
    | r => r
    end.

Notation "x <- c1 ;; c2" := (bind c1 (fun x => c2))
  (at level 100, c1 at next level, c2 at level 200, right associativity).
Notation "c1 ;;; c2" := (bind c1 (fun _ => c2))
  (at level 100, c2 at level 200, right associativity).

Definition when (b : bool) (m : M unit) : M unit :=
  if b then m else ret tt.

(** [assert cond, msg] *)
Definition assert (cond : bool) (msg : string) : M unit :=
  if cond then ret tt else raise (AssertionError msg).

(** *** Attribute access and assignment on [self] *)

Definition get_self : M JSONDatabaseBackend := fun s => (s, inr (self s)).

Definition assign (f : JSONDatabaseBackend -> JSONDatabaseBackend) : M unit :=
  modify (fun s => with_self (f (self s)) s).

(** [self.crypto_data]: an [AttributeError] while it has never been
    assigned. *)
Definition get_crypto_data : M cryptodata :=
  o <- get_self ;;
  match crypto_data o with
  | Some c => ret c
  | None => raise (AttributeError "crypto_data")
  end.

(** *** Effects *)

(** A call into the crypto module, recorded in the trace. *)
Definition crypto_call {A} (op : crypto_op) (r : result A) : M A :=
  modify (log (EvCrypto op)) ;;; lift r.

Definition os_path_exists (p : string) : M bool :=
  s <- get ;; ret (path_exists (fs s) p).

Definition os_path_isfile (p : string) : M bool :=
  s <- get ;; ret (path_isfile (fs s) p).

(** [open (p, mode)]; a path that is [None] is a [TypeError]. *)
Definition open (p : option string) (mode : string) : M handle :=
  match p with
  | None => raise TypeError
  | Some p =>
      modify (log (EvOpen p mode)) ;;;
      s <- get ;;
      r <- lift (open_file (fs s) p mode) ;;
      modify (with_fs (fst r)) ;;;
      ret (snd r)
  end.

(** [f.write (data)] on a binary handle *)
Definition write_bytes (f : handle) (data : list byte) : M unit :=
  modify (log (EvWrite (h_path f) data)) ;;;
  s <- get ;;
  fs' <- lift (write_file (fs s) f data) ;;
  modify (with_fs fs').

(** Text handles carry 8-bit text unchanged. *)
Definition write_text (f : handle) (data : string) : M unit :=
  write_bytes f (list_byte_of_string data).

Definition read_bytes (f : handle) : M (list byte) :=
  modify (log (EvRead (h_path f))) ;;;
  s <- get ;;
  lift (read_file (fs s) f).

Definition read_text (f : handle) : M string :=
  data <- read_bytes f ;; ret (string_of_list_byte data).

(** [copy.deepcopy (v)] *)
Definition copy_deepcopy (v : pyval) : M pyval :=
  s <- get ;;
  r <- lift (deepcopy (S deepcopy_depth) (heap s) v) ;;
  modify (with_heap (fst r)) ;;;
  ret (snd r).

(** [json.dumps (v)] *)
Definition json_dumps (v : pyval) : M string :=
  s <- get ;;
  t <- lift (snapshot (heap s) v) ;;
  ret (json_encode t).

(** [json.dump (v, f)]: when the value cannot be encoded, the text
    produced so far has been written. *)
Definition json_dump (v : pyval) (f : handle) : M unit :=
  s <- get ;;
  match snapshot (heap s) v with
  | inr t => write_text f (json_encode t)
  | inl e => write_text f (json_partial (heap s) v) ;;; raise e
  end.

(** [json.loads (text)]: the value is built from fresh objects. *)
Definition json_loads (data : string) : M pyval :=
  match json_decode data with
  | None => raise JSONDecodeError
  | Some t =>
      s <- get ;;
      let r := build (heap s) t in
      modify (with_heap (fst r)) ;;;
      ret (snd r)
  end.

(** [json.load (f)] *)
Definition json_load (f : handle) : M pyval :=
  data <- read_text f ;; json_loads data.

(** [HashBasedCryptoDataFileInteropProvider.dump (c, f)] *)
Definition crypto_dump (c : cryptodata) (f : handle) : M unit :=
  modify (log (EvCrypto InteropDump)) ;;;
  write_text f (fst (interop_dump c)) ;;;
  match snd (interop_dump c) with
  | Some e => raise e
  | None => ret tt
  end.

(** [HashBasedCryptoDataFileInteropProvider.load (f, key, text_encoding)] *)
Definition crypto_load (f : handle) (key : option string) (encoding : string)
  : M cryptodata :=
  modify (log (EvCrypto InteropLoad)) ;;;
  data <- read_text f ;;
  lift (interop_load data key encoding).

(** The mode of the source's f-strings: a ["+"] is added for a new
    database. *)
Definition mode_for (base : string) (_new : bool) : string :=
  base +:+ (if _new then "+" else EmptyString).

(** *** [save] *)

Definition is_InvalidKeyError (e : exn) : bool :=
  match e with
  | InvalidKeyError => true
  | _ => false
  end.

(** Lines 48-52: has the [string_key] attribute changed since the
    metadata in memory was made?  Only [crypto.InvalidKeyError] is
    caught. *)
Definition rotation_check (o : JSONDatabaseBackend) : M bool :=
  try_except
    (c <- get_crypto_data ;;
     crypto_call CheckStringKey
       (check_string_key c (string_key o) (encryption_text_encoding o)) ;;;
     ret false)
    is_InvalidKeyError
    (ret true).

(** Line 54: new metadata from the current [string_key]. *)
Definition regenerate (o : JSONDatabaseBackend) : M unit :=
  c <- crypto_call MakeNew
         (make_new (string_key o) (encryption_text_encoding o)) ;;
  assign (set_crypto_data c).

(** Lines 56-57 *)
Definition write_plain (o : JSONDatabaseBackend) (_new : bool) : M unit :=
  database_file <- open (Some (db_file_name o)) (mode_for "w" _new) ;;
  json_dump (_db o) database_file.

(** Lines 59-64 *)
Definition write_encrypted (o : JSONDatabaseBackend) (_new : bool) : M unit :=
  dumped <- json_dumps (_db o) ;;
  binary_db_dump <- lift (str_encode (encryption_text_encoding o) dumped) ;;
  c <- get_crypto_data ;;
  encrypted_db_dump <- crypto_call Encrypt (encrypt c binary_db_dump) ;;
  database_file <- open (Some (db_file_name o)) (mode_for "wb" _new) ;;
  write_bytes database_file encrypted_db_dump ;;;
  crypto_data_file <- open (crypto_data_file_name o) (mode_for "w" _new) ;;
  c <- get_crypto_data ;;
  crypto_dump c crypto_data_file.

(** Lines 44-64: everything after the assertion. *)
Definition save_body (o : JSONDatabaseBackend) (_new : bool) : M unit :=
  when (encryption o)
    (string_key_has_changed <-
       (if negb _new then rotation_check o else ret false) ;;
     when (_new || string_key_has_changed) (regenerate o)) ;;;
  if negb (encryption o) then write_plain o _new
  else write_encrypted o _new.

Definition not_loaded_message : string :=
  "The database needs to be loaded first!".

Definition save (_new : bool) : M unit :=
  o <- get_self ;;
  assert (negb (is_None (_db o))) not_loaded_message ;;;
  save_body o _new.

(** *** [load] *)

Definition load (create_if_nonexistent : bool) : M unit :=
  o <- get_self ;;
  present <- os_path_exists (db_file_name o) ;;
  if negb present then
    when (negb create_if_nonexistent)
      (raise (Exception "Database file doesn't exist")) ;;;
    v <- copy_deepcopy (default o) ;;
    assign (set__db v) ;;;
    assign (set_loaded true) ;;;
    save true
  else
    regular <- os_path_isfile (db_file_name o) ;;
    when (negb regular) (raise (Exception "Database file isn't a file")) ;;;
    (if negb (encryption o) then
       database_file <- open (Some (db_file_name o)) "r" ;;
       v <- json_load database_file ;;
       assign (set__db v)
     else
       crypto_data_file <- open (crypto_data_file_name o) "r" ;;
       c <- crypto_load crypto_data_file (string_key o)
              (encryption_text_encoding o) ;;
       assign (set_crypto_data c) ;;;
       database_file <- open (Some (db_file_name o)) "rb" ;;
       encrypted_db_dump <- read_bytes database_file ;;
       c <- get_crypto_data ;;
       binary_db_dump <- crypto_call Decrypt (decrypt c encrypted_db_dump) ;;
       decoded <- lift (bytes_decode (encryption_text_encoding o) binary_db_dump) ;;
       v <- json_loads decoded ;;
       assign (set__db v) ;;;
       save false) ;;;
    assign (set_loaded true).

(** *** The proxied mapping operations *)

(** [proxy_function_creator (function_name)] is a function of
    [self], the positional arguments and the keyword arguments.  Its
    first parameter is named [self]: called as a method with a keyword
    argument of that name, it raises [TypeError] (two values for
    [self]) before its body runs.  Otherwise it forwards its arguments
    to the attribute of that name of [self._db].  [None] when that
    attribute is outside the model (see [call_attr]). *)
Definition proxy_function_creator (function_name : string)
    (args : list pyval) (kwargs : list (string * pyval)) (s : state)
  : option (state * result pyres) :=
  if has_name "self" (map fst kwargs) then Some (s, inl TypeError)
  else
    match call_attr (heap s) (_db (self s)) function_name args kwargs with
    | Some (h', r) => Some (with_heap h' s, r)
    | None => None
    end.

(** The loop over [func_name]: the attributes it sets on the class. *)
Definition backend_getattr (name : string)
  : option (list pyval -> list (string * pyval) -> state
            -> option (state * result pyres)) :=
  if has_name name func_names then Some (proxy_function_creator name)
  else None.

End Backend.

(** ** Reference collaborators

    One concrete choice of the collaborators, on which the backend can be
    run: a JSON writer and reader for the values of the model, the
    identity codec for 8-bit text, and a toy crypto provider. *)

Module Reference.

Local Open Scope nat_scope.

(** *** JSON text *)

Definition dquote : ascii := ascii_of_nat 34.

Definition hex_digit (n : nat) : ascii :=
  nth n (list_ascii_of_string "0123456789abcdef") "0"%char.

Definition hex_value (c : ascii) : option nat :=
  let n := nat_of_ascii c in
  if (48 <=? n) && (n <=? 57) then Some (n - 48)
  else if (97 <=? n) && (n <=? 102) then Some (n - 87)
  else if (65 <=? n) && (n <=? 70) then Some (n - 55)
  else None.

(** One character of a string literal, escaped as [ensure_ascii] does. *)
Definition escape_char (c : ascii) : list ascii :=
  let n := nat_of_ascii c in
  if Ascii.eqb c dquote then ["\"%char; dquote]
  else if Ascii.eqb c "\"%char then ["\"; "\"]%char
  else if n =? 10 then ["\"; "n"]%char
  else if n =? 13 then ["\"; "r"]%char
  else if n =? 9 then ["\"; "t"]%char
  else if n =? 8 then ["\"; "b"]%char
  else if n =? 12 then ["\"; "f"]%char
  else if (32 <=? n) && (n <=? 126) then [c]
  else ["\"; "u"; "0"; "0"; hex_digit (n / 16); hex_digit (n mod 16)]%char.

Definition quote (s : string) : list ascii :=
  dquote :: concat (map escape_char (list_ascii_of_string s)) ++ [dquote].

Definition digits_of_Z (z : Z) : list ascii :=
  list_ascii_of_string (pretty z).

Definition encode_atom (a : atom) : list ascii :=
  match a with
  | ANone => list_ascii_of_string "null"
  | ABool true => list_ascii_of_string "true"
  | ABool false => list_ascii_of_string "false"
  | AInt z => digits_of_Z z
  | AStr s => quote s
  end.

(** Keys are written as strings. *)
Definition encode_key (a : atom) : list ascii :=
  match a with
  | AStr s => quote s
  | _ => dquote :: encode_atom a ++ [dquote]
  end.

Definition comma_sep (parts : list (list ascii)) : list ascii :=
  match parts with
  | [] => []
  | p :: ps => p ++ concat (map (fun q => [","; " "]%char ++ q) ps)
  end.

Fixpoint encode (t : tree) : list ascii :=
  match t with
  | TAtom a => encode_atom a
  | TList ts => ["["]%char ++ comma_sep (map encode ts) ++ ["]"]%char
  | TDict es =>
      ["{"]%char
      ++ comma_sep (map (fun kv => encode_key (fst kv) ++ [":"; " "]%char
                                   ++ encode (snd kv)) es)
      ++ ["}"]%char
  end.

Fixpoint skip_ws (cs : list ascii) : list ascii :=
  match cs with
  | c :: cs' =>
      let n := nat_of_ascii c in
      if (n =? 32) || (n =? 10) || (n =? 13) || (n =? 9) then skip_ws cs'
      else cs
  | [] => []
  end.

Definition is_digit (c : ascii) : bool :=
  let n := nat_of_ascii c in (48 <=? n) && (n <=? 57).

Fixpoint read_digits (acc : Z) (cs : list ascii) : Z * list ascii :=
  match cs with
  | c :: cs' =>
      if is_digit c
      then read_digits (10 * acc + Z.of_nat (nat_of_ascii c - 48)) cs'
      else (acc, cs)
  | [] => (acc, [])
  end.

(** Integers only: a fraction or an exponent is refused. *)
Definition read_int (cs : list ascii) : option (Z * list ascii) :=
  let '(neg, ds) :=
    match cs with
    | c :: cs' => if Ascii.eqb c "-"%char then (true, cs') else (false, cs)
    | [] => (false, [])
    end in
  match ds with
  | d :: _ =>
      if is_digit d then
        let '(z, rest) := read_digits 0 ds in
        match rest with
        | c :: _ =>
            if Ascii.eqb c "."%char || Ascii.eqb c "e"%char || Ascii.eqb c "E"%char
            then None
            else Some (if neg then (- z)%Z else z, rest)
        | [] => Some (if neg then (- z)%Z else z, rest)
        end
      else None
  | [] => None
  end.

(** The body of a string literal, after the opening quote. *)
Fixpoint read_string (cs : list ascii) : option (list ascii * list ascii) :=
  match cs with
  | [] => None
  | c :: cs' =>
      if Ascii.eqb c dquote then Some ([], cs')
      else if Ascii.eqb c "\"%char then
        match cs' with
        | e :: cs'' =>
            let continue (x : ascii) (rest : list ascii) :=
              match read_string rest with
              | Some (s, r) => Some (x :: s, r)
              | None => None
              end in
            if Ascii.eqb e "u"%char then
              match cs'' with
              | a :: b :: c1 :: c2 :: cs3 =>
                  match hex_value a, hex_value b, hex_value c1, hex_value c2 with
                  | Some 0, Some 0, Some x, Some y =>
                      continue (ascii_of_nat (16 * x + y)) cs3
                  | _, _, _, _ => None
                  end
              | _ => None
              end
            else if Ascii.eqb e "n"%char then continue (ascii_of_nat 10) cs''
            else if Ascii.eqb e "r"%char then continue (ascii_of_nat 13) cs''
            else if Ascii.eqb e "t"%char then continue (ascii_of_nat 9) cs''
            else if Ascii.eqb e "b"%char then continue (ascii_of_nat 8) cs''
            else if Ascii.eqb e "f"%char then continue (ascii_of_nat 12) cs''
            else if Ascii.eqb e dquote || Ascii.eqb e "\"%char
                    || Ascii.eqb e "/"%char
            then continue e cs''
            else None
        | [] => None
        end
      else if nat_of_ascii c <? 32 then None
      else
        match read_string cs' with
        | Some (s, r) => Some (c :: s, r)
        | None => None
        end
  end.

Definition starts_with (w : string) (cs : list ascii) : option (list ascii) :=
  let ws := list_ascii_of_string w in
  if bool_decide (take (length ws) cs = ws) then Some (drop (length ws) cs)
  else None.

Fixpoint read_value (n : nat) (cs : list ascii) : option (tree * list ascii) :=
  match n with
  | O => None
  | S n' =>
      match skip_ws cs with
      | [] => None
      | c :: rest =>
          if Ascii.eqb c dquote then
            match read_string rest with
            | Some (s, r) => Some (TAtom (AStr (string_of_list_ascii s)), r)
            | None => None
            end
          else if Ascii.eqb c "["%char then
            match skip_ws rest with
            | c' :: rest' =>
                if Ascii.eqb c' "]"%char then Some (TList [], rest')
                else
                  match read_items n' rest with
                  | Some (ts, r) => Some (TList ts, r)
                  | None => None
                  end
            | [] => None
            end
          else if Ascii.eqb c "{"%char then
            match skip_ws rest with
            | c' :: rest' =>
                if Ascii.eqb c' "}"%char then Some (TDict [], rest')
                else
                  match read_members n' rest with
                  | Some (es, r) => Some (TDict es, r)
                  | None => None
                  end
            | [] => None
            end
          else
            match starts_with "null" (c :: rest), starts_with "true" (c :: rest),
                  starts_with "false" (c :: rest) with
            | Some r, _, _ => Some (TAtom ANone, r)
            | _, Some r, _ => Some (TAtom (ABool true), r)
            | _, _, Some r => Some (TAtom (ABool false), r)
            | _, _, _ =>
                match read_int (c :: rest) with
                | Some (z, r) => Some (TAtom (AInt z), r)
                | None => None
                end
            end
      end
  end
with read_items (n : nat) (cs : list ascii) : option (list tree * list ascii) :=
  match n with
  | O => None
  | S n' =>
      match read_value n' cs with
      | Some (t, r) =>
          match skip_ws r with
          | c :: r' =>
              if Ascii.eqb c ","%char then
                match read_items n' r' with
                | Some (ts, r'') => Some (t :: ts, r'')
                | None => None
                end
              else if Ascii.eqb c "]"%char then Some ([t], r')
              else None
          | [] => None
          end
      | None => None
      end
  end
with read_members (n : nat) (cs : list ascii)
  : option (list (atom * tree) * list ascii) :=
  match n with
  | O => None
  | S n' =>
      match skip_ws cs with
      | q :: r0 =>
          if Ascii.eqb q dquote then
            match read_string r0 with
            | Some (k, r1) =>
                match skip_ws r1 with
                | c :: r2 =>
                    if Ascii.eqb c ":"%char then
                      match read_value n' r2 with
                      | Some (t, r3) =>
                          let kv := (AStr (string_of_list_ascii k), t) in
                          match skip_ws r3 with
                          | c' :: r4 =>
                              if Ascii.eqb c' ","%char then
                                match read_members n' r4 with
                                | Some (es, r5) => Some (kv :: es, r5)
                                | None => None
                                end
                              else if Ascii.eqb c' "}"%char then Some ([kv], r4)
                              else None
                          | [] => None
                          end
                      | None => None
                      end
                    else None
                | [] => None
                end
            | None => None
            end
          else None
      | [] => None
      end
  end.

Definition decode (s : string) : option tree :=
  let cs := list_ascii_of_string s in
  match read_value (S (length cs)) cs with
  | Some (t, r) =>
      match skip_ws r with
      | [] => Some t
      | _ => None
      end
  | None => None
  end.

(** The codecs: 8-bit text, byte for character, under the names below;
    any other name is unknown. *)
Definition known_encoding (name : string) : bool :=
  has_name name ["utf-8"; "ascii"; "latin-1"].

#[export] Instance simple_text : TextFormat := {|
  json_encode t := string_of_list_ascii (encode t);
  json_decode := decode;
  json_partial h v := EmptyString;
  str_encode name s :=
    if known_encoding name then inr (list_byte_of_string s) else inl LookupError;
  bytes_decode name b :=
    if known_encoding name then inr (string_of_list_byte b) else inl LookupError
|}.

(** *** The interpreter

    CPython under its default recursion limit of 1000. *)
#[export] Instance cpython : Interpreter := {|
  deepcopy_depth := 497
|}.

(** *** A toy crypto provider

    The metadata is the secret it was made from; loading it verifies
    the secret given; the cipher prefixes the reversed plaintext with
    the secret. *)
Definition toy_seal (k : string) (b : list byte) : list byte :=
  list_byte_of_string k ++ [x00] ++ rev b.

Definition toy_unseal (k : string) (ct : list byte) : option (list byte) :=
  let tag := list_byte_of_string k ++ [x00] in
  if bool_decide (take (length tag) ct = tag)
  then Some (rev (drop (length tag) ct))
  else None.

Definition toy_check (c : string) (k : option string) : result unit :=
  match k with
  | Some k => if String.eqb c k then inr tt else inl InvalidKeyError
  | None => inl TypeError
  end.

#[export] Instance toy_crypto : CryptoProvider := {|
  cryptodata := string;
  make_new k _ :=
    match k with
    | Some k => inr k
    | None => inl TypeError
    end;
  check_string_key c k _ := toy_check c k;
  encrypt c b := inr (toy_seal c b);
  decrypt c ct :=
    match toy_unseal c ct with
    | Some b => inr b
    | None => inl (CryptoError "DecryptError")
    end;
  interop_load data k _ := res_map (fun _ => data) (toy_check data k);
  interop_dump c := (c, None)
|}.

End Reference.


(** ** Notions used by the statements *)

(** A tree is a well-formed value when the keys of each of its mappings
    are pairwise different (for Python's [==]). *)
Fixpoint keys_distinct (ks : list atom) : bool :=
  match ks with
  | [] => true
  | k :: ks' => negb (existsb (key_eqb k) ks') && keys_distinct ks'
  end.

Fixpoint wf_tree (t : tree) : bool :=
  match t with
  | TAtom _ => true
  | TList ts => forallb wf_tree ts
  | TDict es =>
      keys_distinct (map fst es) && forallb (fun kv => wf_tree (snd kv)) es
  end.

(** The effects of the encrypted branch when it completes: the
    encryption, then the data file, then the metadata file. *)
Definition write_events (_new : bool) (db meta : string)
    (ciphertext metadata : list byte) : list event :=
  [EvCrypto Encrypt;
   EvOpen db (mode_for "wb" _new); EvWrite db ciphertext;
   EvOpen meta (mode_for "w" _new); EvCrypto InteropDump;
   EvWrite meta metadata].

(** The effects of a complete encrypted save, in order: the check of
    the key unless the database is new, the regeneration when [regen],
    then those of the encrypted branch. *)
Definition encrypted_save_events (_new regen : bool) (db meta : string)
    (ciphertext metadata : list byte) : list event :=
  (if _new then [] else [EvCrypto CheckStringKey])
  ++ (if regen then [EvCrypto MakeNew] else [])
  ++ write_events _new db meta ciphertext metadata.

(** An effect without the mode of the [open]. *)
Definition forget_mode (e : event) : event :=
  match e with
  | EvOpen p _ => EvOpen p EmptyString
  | _ => e
  end.

(** Modelled from the spec: what the store relies on from the Crypto
    Provider ([crypto.py] is not among the sources), for secrets that are
    strings and one text encoding.  Metadata made from a secret verifies
    it; metadata verifies one secret only, and reports another one with
    [InvalidKeyError]; metadata that verifies a secret encrypts and dumps
    without error; what was dumped loads back, under the same secret, as
    metadata that verifies it and decrypts what the original encrypted;
    under another secret the load fails, or the decryption does. *)
Record CryptoContract `{CryptoProvider} (enc : string) : Prop := {
  make_new_total : forall S, exists c, make_new (Some S) enc = inr c;
  make_new_verifies : forall S c,
    make_new (Some S) enc = inr c -> check_string_key c (Some S) enc = inr tt;
  verify_unique : forall S S' c,
    check_string_key c (Some S) enc = inr tt -> S' <> S ->
    check_string_key c (Some S') enc = inl InvalidKeyError;
  encrypt_total : forall S c b,
    check_string_key c (Some S) enc = inr tt -> exists ct, encrypt c b = inr ct;
  dump_total : forall S c,
    check_string_key c (Some S) enc = inr tt -> snd (interop_dump c) = None;
  load_dump : forall S c,
    check_string_key c (Some S) enc = inr tt ->
    exists c', interop_load (fst (interop_dump c)) (Some S) enc = inr c'
               /\ check_string_key c' (Some S) enc = inr tt
               /\ forall b ct, encrypt c b = inr ct -> decrypt c' ct = inr b;
  wrong_secret : forall S S' c,
    check_string_key c (Some S) enc = inr tt -> S' <> S ->
    match interop_load (fst (interop_dump c)) (Some S') enc with
    | inl _ => True
    | inr c' => forall b ct, encrypt c b = inr ct -> exists e, decrypt c' ct = inl e
    end
}.

(** ** Example states, for the collaborators of [Reference] *)

Module Examples.

Import Reference.

Definition empty_state (o : JSONDatabaseBackend) : state :=
  {| fs := ∅; heap := []; trace := []; self := o |}.

(** A plain store that was never loaded. *)
Definition plain_store : JSONDatabaseBackend := init_default "db.json".

(** A store marked loaded whose mapping is [None]: what a creating
    load with the default [None] leaves behind. *)
Definition loaded_without_mapping : state :=
  empty_state (set_loaded true plain_store).

(** A plain store, loaded, holding an empty dict. *)
Definition plain_loaded : state :=
  {| fs := ∅; heap := [ODict []]; trace := [];
     self := set_loaded true (set__db (VRef 0) plain_store) |}.

(** An encrypted store holding the dict [{"a": 1}], with metadata in
    memory for the secret ["old"], before [loaded] is set: the state in
    which an encrypted [load] calls [save]. *)
Definition encrypted_store (secret : string) : JSONDatabaseBackend :=
  set_crypto_data ("old" : cryptodata)
    (set__db (VRef 0)
       (init "db.bin" VNone true (Some "db.cryptodata") (Some secret) "utf-8")).

Definition encrypted_state (secret : string) : state :=
  {| fs := ∅; heap := [ODict [(AStr "a", VAtom (AInt 1))]]; trace := [];
     self := encrypted_store secret |}.

(** A plain store holding [{"a": 1, "b": [True, None]}]. *)
Definition nested_mapping : tree :=
  TDict [(AStr "a", TAtom (AInt 1));
         (AStr "b", TList [TAtom (ABool true); TAtom ANone])].

Definition nested_state : state :=
  {| fs := ∅;
     heap := [OList [VBool true; VNone];
              ODict [(AStr "a", VAtom (AInt 1)); (AStr "b", VRef 0)]];
     trace := [];
     self := set__db (VRef 1) (init_default "db.json") |}.

(** An encrypted store, never loaded, whose default is the empty dict
    at address 0, on an empty disk. *)
Definition fresh_encrypted (secret : string) : state :=
  {| fs := ∅; heap := [ODict []]; trace := [];
     self := init "db.bin" (VRef 0) true (Some "db.cryptodata")
               (Some secret) "utf-8" |}.

(** The heap after the mapping of that store, created at address 1,
    has received the key ["a"]. *)
Definition edited_heap : Py.heap :=
  [ODict []; ODict [(AStr "a", VAtom (AInt 1))]].


End Examples.

(** ** Notions used in the proofs *)

(** The handle [open] returns for the modes of [save]. *)
Definition write_handle (p : string) (_new bin : bool) : handle :=
  {| h_path := p; h_readable := _new; h_writable := true; h_binary := bin;
     h_append := false |}.

Definition base_binary (base : string) : bool := String.eqb base "wb".

(** The text a plain save leaves in the data file. *)
Definition dumped_text `{TextFormat} (h : Py.heap) (v : pyval) : string :=
  match snapshot h v with
  | inr t => json_encode t
  | inl _ => json_partial h v
  end.

(** The secret has changed: the metadata in memory reports the current
    [string_key] with [InvalidKeyError]. *)
Definition key_changed `{CryptoProvider} (o : JSONDatabaseBackend) : bool :=
  match crypto_data o with
  | Some c =>
      match check_string_key c (string_key o) (encryption_text_encoding o) with
      | inl e => is_InvalidKeyError e
      | inr _ => false
      end
  | None => false
  end.

(** The same operation applied directly to a standalone mapping: the
    method of that name of the dict at [l], called on the arguments. *)
Definition mapping_call (h : Py.heap) (l : loc) (name : string)
    (args : list pyval) (kwargs : list (string * pyval))
  : option (Py.heap * result pyres) :=
  match dict_getattr name with
  | Some m => Some (m h l args kwargs)
  | None => None
  end.

(** The loops of [build], by name. *)
Fixpoint build_items (h : Py.heap) (ts : list tree) : Py.heap * list pyval :=
  match ts with
  | [] => (h, [])
  | t :: ts' =>
      let '(h1, v) := build h t in
      let '(h2, vs) := build_items h1 ts' in
      (h2, v :: vs)
  end.

Fixpoint build_entries (h : Py.heap) (es : list (atom * tree))
  : Py.heap * list (atom * pyval) :=
  match es with
  | [] => (h, [])
  | (k, t) :: es' =>
      let '(h1, v) := build h t in
      let '(h2, kvs) := build_entries h1 es' in
      (h2, (k, v) :: kvs)
  end.

(** Nesting depth of a tree: the fuel its traversal needs. *)
Fixpoint tree_depth (t : tree) : nat :=
  match t with
  | TAtom _ => 0
  | TList ts => S (list_max (map tree_depth ts))
  | TDict es => S (list_max (map (fun kv => tree_depth (snd kv)) es))
  end.

(** A tree reads back: the value [build] makes for it from a heap [h],
    seen in any heap [H] that extends the result, with fuel for its depth
    and no marker among the addresses just allocated, is encoded as the
    tree itself. *)
Definition reads_back (t : tree) : Prop :=
  wf_tree t = true ->
  forall (h H : Py.heap) (n : nat) (markers : list loc),
    fst (build h t) `prefix_of` H ->
    tree_depth t <= n ->
    (forall l, l ∈ markers -> l < length h \/ length (fst (build h t)) <= l) ->
    snapshot_fuel n H markers (snd (build h t)) = inr t.

(** The handle [open] returns for the modes of [load]. *)
Definition read_handle (p : string) (bin : bool) : handle :=
  {| h_path := p; h_readable := true; h_writable := false; h_binary := bin;
     h_append := false |}.

(** What a creating load of an encrypted store needs from its
    surroundings: a path for the metadata that is not a directory, and a
    provider that makes metadata for the secret, encrypts the encoded
    text of the tree with them and dumps them. *)
Definition encryption_ready `{CryptoProvider} `{TextFormat}
    (o : JSONDatabaseBackend) (f : filesystem) (t : tree)
    (meta : string) (c : cryptodata) (ct : list byte) : Prop :=
  crypto_data_file_name o = Some meta
  /\ f !! meta <> Some Dir
  /\ make_new (string_key o) (encryption_text_encoding o) = inr c
  /\ (exists bin,
        str_encode (encryption_text_encoding o) (json_encode t) = inr bin
        /\ encrypt c bin = inr ct)
  /\ snd (interop_dump c) = None.

(** Two store objects with the same configuration: they may differ in
    the mapping, the [loaded] flag and the metadata in memory. *)
Definition same_config `{CryptoProvider} (o o' : JSONDatabaseBackend) : Prop :=
  db_file_name o' = db_file_name o
  /\ default o' = default o
  /\ encryption o' = encryption o
  /\ crypto_data_file_name o' = crypto_data_file_name o
  /\ string_key o' = string_key o
  /\ encryption_text_encoding o' = encryption_text_encoding o.




(** ** Notions used by the further properties *)

(** What no [save] or [load] changes in a store object but, at most, the
    mapping, the flag and the metadata: here the mapping and the flag are
    kept too. *)
Definition keeps `{CryptoProvider} (o o' : JSONDatabaseBackend) : Prop :=
  same_config o o' /\ _db o' = _db o /\ loaded o' = loaded o.

(** The encoder's reading of the entries of a dict. *)
Definition snapshot_entry (n : nat) (h : Py.heap) (markers : list loc)
    (kv : atom * pyval) : result (atom * tree) :=
  res_map (pair (fst kv)) (snapshot_fuel n h markers (snd kv)).

(** The state of a deep copy under way, started in the heap [h0]:
    [h] extends [h0]; [mk] are the objects being copied and [bad] the
    addresses no finished copy goes through (those of [h0] and the
    copies under way); every object in the memo is one being copied, or
    its copy reads as the object itself did. *)
Definition memo_ok (h0 : Py.heap) (mk bad : list loc)
    (memo : list (loc * loc)) (h : Py.heap) : Prop :=
  h0 `prefix_of` h
  /\ (forall b, b ∈ bad -> b < length h)
  /\ (forall l l' : loc, memo_get memo l = Some l' ->
        l ∈ mk
        \/ exists t n mk',
             snapshot_fuel n h0 mk' (VRef l) = inr t
             /\ snapshot_fuel (tree_depth t) h bad (VRef l') = inr t).

(** The two loops of [deepcopy_fuel], named: the elements of a list,
    then the entries of a dict, copied into the object at [l']. *)
Definition copy_items (n : nat) (l' : loc)
  : list (loc * loc) -> Py.heap -> list pyval
    -> result (list (loc * loc) * Py.heap) :=
  fix copy_items memo h xs :=
    match xs with
    | [] => inr (memo, h)
    | x :: xs' =>
        res_bind (deepcopy_fuel n memo h x) (fun r =>
          let '(memo1, h1, x') := r in
          copy_items memo1 (list_append h1 l' x') xs')
    end.

Definition copy_entries (n : nat) (l' : loc)
  : list (loc * loc) -> Py.heap -> list (atom * pyval)
    -> result (list (loc * loc) * Py.heap) :=
  fix copy_entries memo h es :=
    match es with
    | [] => inr (memo, h)
    | (k, x) :: es' =>
        res_bind (deepcopy_fuel n memo h x) (fun r =>
          let '(memo1, h1, x') := r in
          copy_entries memo1 (dict_store h1 l' k x') es')
    end.

(** What a recursive call of a deep copy under way returns. *)
Definition copy_result (n : nat) (h0 : Py.heap) (mk bad : list loc)
    (t : tree) (memo : list (loc * loc)) (h : Py.heap)
    (r : result (list (loc * loc) * Py.heap * pyval)) : Prop :=
  exists memo' h' v',
    r = inr (memo', h', v')
    /\ h `prefix_of` h'
    /\ (forall x y : loc, memo_get memo x = Some y -> memo_get memo' x = Some y)
    /\ memo_ok h0 mk bad memo' h'
    /\ snapshot_fuel n h' bad v' = inr t.


(** [dict_set] and [dict_lookup] on the entries of a tree. *)
Fixpoint tree_set (k : atom) (t : tree) (es : list (atom * tree))
  : list (atom * tree) :=
  match es with
  | [] => [(k, t)]
  | (k', t') :: es' =>
      if key_eqb k' k then (k', t) :: es' else (k', t') :: tree_set k t es'
  end.

Fixpoint tree_lookup (k : atom) (es : list (atom * tree)) : option tree :=
  match es with
  | [] => None
  | (k', t) :: es' => if key_eqb k' k then Some t else tree_lookup k es'
  end.

(** An effect on the file at [p]: no call of the crypto module is one. *)
Definition on_path (p : string) (e : event) : bool :=
  match e with
  | EvOpen q _ | EvRead q | EvWrite q _ => String.eqb q p
  | EvCrypto _ => false
  end.

(** ** Further states *)

Module Cases.

Import Reference Examples.

(** A plain store, never loaded, whose data path is a directory. *)
Definition on_directory : state :=
  {| fs := {["db.json" := Dir]}; heap := []; trace := [];
     self := plain_store |}.

(** A plain store, never loaded, whose data file holds [txt]. *)
Definition on_file (txt : string) : state :=
  {| fs := {["db.json" := File (list_byte_of_string txt)]}; heap := [];
     trace := []; self := plain_store |}.

(** A plain store whose mapping is a list that contains itself, over
    a data file written before. *)
Definition cyclic_state : state :=
  {| fs := {["db.json" := File (list_byte_of_string "{}")]};
     heap := [OList [VRef 0]]; trace := [];
     self := set__db (VRef 0) plain_store |}.

(** The same mapping in an encrypted store. *)
Definition cyclic_encrypted : state :=
  {| fs := ∅; heap := [OList [VRef 0]]; trace := [];
     self := encrypted_store "old" |}.

(** An encrypted store, never loaded, with metadata on the disk for
    the secret ["pw"] and a data file that they do not decrypt. *)
Definition undecryptable : state :=
  {| fs := {["db.bin" := File (list_byte_of_string "junk");
             "db.cryptodata" := File (list_byte_of_string "pw")]};
     heap := []; trace := [];
     self := init "db.bin" VNone true (Some "db.cryptodata") (Some "pw")
               "utf-8" |}.

(** An encrypted store, never loaded, built without a secret: its
    default is the empty dict at address 0, the disk is empty. *)
Definition without_secret : state :=
  {| fs := ∅; heap := [ODict []]; trace := [];
     self := init "db.bin" (VRef 0) true (Some "db.cryptodata") None
               "utf-8" |}.

(** An encrypted store built without a metadata path, holding an
    empty dict, on an empty disk. *)
Definition without_metadata_path : state :=
  {| fs := ∅; heap := [ODict []]; trace := [];
     self := set__db (VRef 0)
               (init "db.bin" VNone true None (Some "pw") "utf-8") |}.

(** A plain store, never loaded, whose default is the nested mapping
    of [nested_state], on an empty disk. *)
Definition nested_default : state :=
  {| fs := ∅; heap := heap nested_state; trace := [];
     self := init "db.json" (VRef 1) false None None "utf-8" |}.

(** The entries of [nested_mapping]. *)
Definition nested_entries : list (atom * tree) :=
  [(AStr "a", TAtom (AInt 1));
   (AStr "b", TList [TAtom (ABool true); TAtom ANone])].

End Cases.

(** * Properties *)

Section Properties.

Context {crypto : CryptoProvider} {text : TextFormat}
        {interp : Interpreter}.

Implicit Types (s : state) (o : JSONDatabaseBackend).

Arguments open_file : simpl never.
Arguments write_file : simpl never.
Arguments read_file : simpl never.
Arguments snapshot : simpl never.
Arguments deepcopy : simpl never.
Arguments build : simpl never.
Arguments mode_for : simpl never.
Arguments write_encrypted : simpl never.
Arguments write_plain : simpl never.
Arguments save : simpl never.

(** Unfolding of the statements of the embedding. *)
Ltac unfold_m :=
  unfold save, save_body, load, rotation_check, regenerate, write_plain,
    write_encrypted, crypto_dump, crypto_load, json_load, json_loads,
    json_dump, json_dumps, copy_deepcopy, read_text, read_bytes, write_text,
    write_bytes, open, os_path_exists, os_path_isfile, crypto_call,
    get_crypto_data, assign, get_self, assert, when, try_except, lift,
    modify, get, bind, raise, ret in *.

(** Case analysis on an innermost scrutinee, in a hypothesis or in the
    goal. *)
Ltac step_in H :=
  match type of H with
  | context [match ?x with _ => _ end] =>
      lazymatch x with
      | context [match _ with _ => _ end] => fail
      | _ => destruct x eqn:?
      end
  end.

Ltac step :=
  match goal with
  | |- context [match ?x with _ => _ end] =>
      lazymatch x with
      | context [match _ with _ => _ end] => fail
      | _ => destruct x eqn:?
      end
  end.

(** ** Basic facts *)

Lemma state_eta s :
  {| fs := fs s; heap := heap s; trace := trace s; self := self s |} = s.
Proof. by destruct s. Qed.

Lemma parse_mode_write (_new : bool) :
  parse_mode (mode_for "w" _new)
  = Some {| reading := false; writing := true; creating := false;
            appending := false; updating := _new; binary := false |}
  /\ parse_mode (mode_for "wb" _new)
     = Some {| reading := false; writing := true; creating := false;
               appending := false; updating := _new; binary := true |}.
Proof. by destruct _new. Qed.

Lemma open_file_write (f : filesystem) (p base : string) (_new : bool) :
  base = "w" \/ base = "wb" ->
  open_file f p (mode_for base _new)
  = match f !! p with
    | Some Dir => inl (IsADirectoryError p)
    | _ => inr (<[p := File []]> f, write_handle p _new (base_binary base))
    end.
Proof.
  intros Hb. unfold open_file.
  destruct (parse_mode_write _new) as [Hw Hwb].
  destruct Hb as [-> | ->]; [rewrite Hw | rewrite Hwb];
    destruct (f !! p) as [[c|]|]; simpl; try reflexivity;
    unfold handle_of, write_handle; simpl; by destruct _new.
Qed.

Lemma open_file_write_ok (f : filesystem) (p base : string) (_new : bool) :
  base = "w" \/ base = "wb" ->
  f !! p <> Some Dir ->
  open_file f p (mode_for base _new)
  = inr (<[p := File []]> f, write_handle p _new (base_binary base)).
Proof.
  intros Hb Hp. rewrite open_file_write by done.
  by destruct (f !! p) as [[|]|].
Qed.

Lemma open_file_path (f f' : filesystem) (p mode : string) (hd : handle) :
  open_file f p mode = inr (f', hd) -> h_path hd = p.
Proof.
  unfold open_file. intros H.
  repeat (step_in H; simplify_eq); reflexivity.
Qed.

Lemma write_file_handle (f : filesystem) (p : string) (_new bin : bool)
    (data : list byte) :
  f !! p = Some (File []) ->
  write_file f (write_handle p _new bin) data = inr (<[p := File data]> f).
Proof.
  intros H. unfold write_file. simpl. rewrite H.
  by rewrite drop_nil, app_nil_r.
Qed.

(** What the two lines of the plain branch do. *)
Lemma write_plain_run o (_new : bool) s :
  write_plain o _new s
  = let p := db_file_name o in
    match fs s !! p with
    | Some Dir => (log (EvOpen p (mode_for "w" _new)) s, inl (IsADirectoryError p))
    | _ =>
        ({| fs := <[p := File (list_byte_of_string (dumped_text (heap s) (_db o)))]> (fs s);
            heap := heap s;
            trace := trace s ++ [EvOpen p (mode_for "w" _new);
                                 EvWrite p (list_byte_of_string
                                              (dumped_text (heap s) (_db o)))];
            self := self s |},
         match snapshot (heap s) (_db o) with
         | inr _ => inr tt
         | inl e => inl e
         end)
    end.
Proof.
  unfold write_plain, json_dump, write_text, write_bytes, open, dumped_text.
  unfold bind, modify, get, lift, ret, raise. simpl.
  rewrite open_file_write by auto.
  destruct s as [f h t o']. simpl.
  destruct (f !! db_file_name o) as [[c|]|] eqn:Hp; simpl; try reflexivity.
  - destruct (snapshot h (_db o)); simpl;
      erewrite write_file_handle by apply lookup_insert_eq; simpl;
      unfold with_fs, log; simpl; rewrite insert_insert_eq, <- app_assoc; reflexivity.
  - destruct (snapshot h (_db o)); simpl;
      erewrite write_file_handle by apply lookup_insert_eq; simpl;
      unfold with_fs, log; simpl; rewrite insert_insert_eq, <- app_assoc; reflexivity.
Qed.

(** [save] never reads the [loaded] flag: with another value of the
    flag it does the same, and leaves that value in place. *)
Lemma save_ignores_loaded (b _new : bool) s s' r :
  save _new s = (s', r) ->
  save _new (with_self (set_loaded b (self s)) s)
  = (with_self (set_loaded b (self s')) s', r).
Proof.
  destruct s as [f h t o]. unfold_m. simpl. intros H.
  repeat (step_in H; simpl in *; simplify_eq; try reflexivity).
Qed.

(** What the encrypted branch does when every step succeeds. *)
Lemma write_encrypted_run o (_new : bool) s t bin c ct meta :
  snapshot (heap s) (_db o) = inr t ->
  str_encode (encryption_text_encoding o) (json_encode t) = inr bin ->
  crypto_data (self s) = Some c ->
  encrypt c bin = inr ct ->
  crypto_data_file_name o = Some meta ->
  fs s !! db_file_name o <> Some Dir ->
  fs s !! meta <> Some Dir ->
  write_encrypted o _new s
  = ({| fs := <[meta := File (list_byte_of_string (fst (interop_dump c)))]>
                (<[db_file_name o := File ct]> (fs s));
        heap := heap s;
        trace := trace s
                 ++ write_events _new (db_file_name o) meta ct
                      (list_byte_of_string (fst (interop_dump c)));
        self := self s |},
     match snd (interop_dump c) with
     | Some e => inl e
     | None => inr tt
     end).
Proof.
  intros Hsnap Henc Hc Hct Hmeta Hdb Hmd.
  destruct s as [f h tr o']. simpl in *.
  unfold write_encrypted, json_dumps, crypto_dump, write_text, write_bytes,
    open, crypto_call, get_crypto_data, get_self.
  unfold bind, modify, get, lift, ret, raise. simpl.
  rewrite Hsnap. simpl. rewrite Henc. simpl. rewrite Hc. simpl.
  rewrite Hct. simpl. rewrite open_file_write_ok by auto. simpl.
  erewrite write_file_handle by apply lookup_insert_eq. simpl.
  rewrite insert_insert_eq, Hmeta. simpl.
  assert (Hmd' : <[db_file_name o := File ct]> f !! meta <> Some Dir).
  { destruct (decide (db_file_name o = meta)) as [<- | Hne].
    - by rewrite lookup_insert_eq.
    - by rewrite lookup_insert_ne. }
  rewrite open_file_write_ok by auto. simpl. rewrite Hc. simpl.
  erewrite write_file_handle by apply lookup_insert_eq. simpl.
  rewrite insert_insert_eq.
  unfold write_events, with_fs, log. simpl. rewrite <- !app_assoc. simpl.
  by destruct (snd (interop_dump c)).
Qed.

(** The effects of the encrypted branch, however far it gets: a prefix
    of the complete sequence, the whole of it when it returns. *)
Lemma write_encrypted_trace o (_new : bool) s s' r :
  write_encrypted o _new s = (s', r) ->
  self s' = self s /\ heap s' = heap s
  /\ exists evs meta ct md,
      trace s' = trace s ++ evs
      /\ evs `prefix_of` write_events _new (db_file_name o) meta ct md
      /\ (r = inr tt ->
          evs = write_events _new (db_file_name o) meta ct md
          /\ crypto_data_file_name o = Some meta
          /\ exists c t bin,
              crypto_data (self s) = Some c
              /\ snapshot (heap s) (_db o) = inr t
              /\ str_encode (encryption_text_encoding o) (json_encode t) = inr bin
              /\ encrypt c bin = inr ct
              /\ md = list_byte_of_string (fst (interop_dump c))).
Proof.
  destruct s as [f h tr o']. unfold_m. simpl. intros H.
  repeat (step_in H; simpl in *; simplify_eq).
  all: repeat match goal with
         | Ho : open_file _ _ _ = inr ?x |- _ =>
             destruct x; apply open_file_path in Ho; simpl in *;
             rewrite ?Ho in *
         end.
  all: (split; [reflexivity|]); (split; [reflexivity|]).
  all: simpl; repeat rewrite <- (app_assoc tr); simpl.
  all: eexists _, _, _, _.
  all: (split; [first [reflexivity | symmetry; apply app_nil_r]|]).
  all: (split; [by eexists|]).
  all: intros ?; simplify_eq.
  all: (split; [reflexivity|]); (split; [reflexivity|]).
  all: eexists _, _, _; eauto 10.
  Unshelve. all: first [exact EmptyString | exact []].
Qed.

Lemma open_file_read (f : filesystem) (p : string) (c : list byte) :
  f !! p = Some (File c) ->
  open_file f p "r" = inr (f, read_handle p false)
  /\ open_file f p "rb" = inr (f, read_handle p true).
Proof. intros Hp. unfold open_file. rewrite Hp. by split. Qed.

Lemma read_file_handle (f : filesystem) (p : string) (bin : bool) (c : list byte) :
  f !! p = Some (File c) -> read_file f (read_handle p bin) = inr c.
Proof. intros Hp. unfold read_file. simpl. by rewrite Hp. Qed.

Lemma path_exists_file (f : filesystem) (p : string) (c : list byte) :
  f !! p = Some (File c) -> path_exists f p = true /\ path_isfile f p = true.
Proof.
  intros Hp. unfold path_exists, path_isfile. rewrite Hp.
  split; [|done]. apply bool_decide_eq_true_2. by eexists.
Qed.

(** What [load] does on a plain store whose data file holds the text
    of a tree. *)
Lemma load_plain_run s (create : bool) (c : list byte) (t : tree) :
  encryption (self s) = false ->
  fs s !! db_file_name (self s) = Some (File c) ->
  json_decode (string_of_list_byte c) = Some t ->
  load create s
  = ({| fs := fs s;
        heap := fst (build (heap s) t);
        trace := trace s ++ [EvOpen (db_file_name (self s)) "r";
                             EvRead (db_file_name (self s))];
        self := set_loaded true (set__db (snd (build (heap s) t)) (self s)) |},
     inr tt).
Proof.
  intros Henc Hfile Hdec.
  destruct (path_exists_file _ _ _ Hfile) as [Hex Hisf].
  destruct (open_file_read _ _ _ Hfile) as [Hopen _].
  destruct s as [f h tr o]. simpl in *.
  unfold_m. simpl. rewrite Hex. simpl. rewrite Hisf. simpl.
  rewrite Henc. simpl. rewrite Hopen. simpl.
  erewrite read_file_handle by done. simpl. rewrite Hdec. simpl.
  unfold with_self, with_heap, with_fs, log. simpl.
  by rewrite <- app_assoc.
Qed.


(** ** Building a value and reading it back *)

Lemma tree_ind' (P : tree -> Prop) :
  (forall a, P (TAtom a)) ->
  (forall ts, Forall P ts -> P (TList ts)) ->
  (forall es, Forall (fun kv => P (snd kv)) es -> P (TDict es)) ->
  forall t, P t.
Proof.
  intros Ha Hl Hd. fix IH 1. intros [a | ts | es].
  - apply Ha.
  - apply Hl. induction ts as [|t ts IHts]; constructor; [apply IH | apply IHts].
  - apply Hd. induction es as [|[k t] es IHes]; constructor; [apply IH | apply IHes].
Qed.

Lemma build_list (h : Py.heap) (ts : list tree) :
  build h (TList ts)
  = (fst (build_items h ts) ++ [OList (snd (build_items h ts))],
     VRef (length (fst (build_items h ts)))).
Proof.
  unfold build at 1. fold build.
  change ((fix build_items (h0 : Py.heap) (ts0 : list tree) {struct ts0} :
             Py.heap * list pyval :=
             match ts0 with
             | [] => (h0, [])
             | t :: ts' =>
                 let '(h1, v) := build h0 t in
                 let '(h2, vs) := build_items h1 ts' in (h2, v :: vs)
             end) h ts) with (build_items h ts).
  by destruct (build_items h ts).
Qed.

Lemma build_dict (h : Py.heap) (es : list (atom * tree)) :
  build h (TDict es)
  = (fst (build_entries h es) ++ [ODict (dict_of_pairs (snd (build_entries h es)))],
     VRef (length (fst (build_entries h es)))).
Proof.
  unfold build at 1. fold build.
  change ((fix build_entries (h0 : Py.heap) (es0 : list (atom * tree)) {struct es0} :
             Py.heap * list (atom * pyval) :=
             match es0 with
             | [] => (h0, [])
             | (k, t) :: es' =>
                 let '(h1, v) := build h0 t in
                 let '(h2, kvs) := build_entries h1 es' in (h2, (k, v) :: kvs)
             end) h es) with (build_entries h es).
  by destruct (build_entries h es).
Qed.

Lemma build_items_cons (h : Py.heap) (t : tree) (ts : list tree) :
  build_items h (t :: ts)
  = (fst (build_items (fst (build h t)) ts),
     snd (build h t) :: snd (build_items (fst (build h t)) ts)).
Proof.
  simpl. destruct (build h t) as [h1 v]. simpl.
  by destruct (build_items h1 ts).
Qed.

Lemma build_entries_cons (h : Py.heap) (k : atom) (t : tree)
    (es : list (atom * tree)) :
  build_entries h ((k, t) :: es)
  = (fst (build_entries (fst (build h t)) es),
     (k, snd (build h t)) :: snd (build_entries (fst (build h t)) es)).
Proof.
  simpl. destruct (build h t) as [h1 v]. simpl.
  by destruct (build_entries h1 es).
Qed.

(** Building only allocates: the heap grows at its end. *)
Lemma build_prefix (t : tree) :
  forall h : Py.heap, h `prefix_of` fst (build h t).
Proof.
  induction t as [a | ts IH | es IH] using tree_ind'; intros h.
  - done.
  - rewrite build_list. simpl.
    etrans; [|apply prefix_app_r; reflexivity].
    revert h. induction IH as [|t ts Ht _ IHts]; intros h; [done|].
    rewrite build_items_cons. simpl. etrans; [apply Ht | apply IHts].
  - rewrite build_dict. simpl.
    etrans; [|apply prefix_app_r; reflexivity].
    revert h. induction IH as [|[k t] es Ht _ IHes]; intros h; [done|].
    rewrite build_entries_cons. simpl. etrans; [apply Ht | apply IHes].
Qed.

Lemma build_items_prefix (ts : list tree) :
  forall h : Py.heap, h `prefix_of` fst (build_items h ts).
Proof.
  induction ts as [|t ts IH]; intros h; [done|].
  rewrite build_items_cons. simpl. etrans; [apply build_prefix | apply IH].
Qed.

Lemma build_entries_prefix (es : list (atom * tree)) :
  forall h : Py.heap, h `prefix_of` fst (build_entries h es).
Proof.
  induction es as [|[k t] es IH]; intros h; [done|].
  rewrite build_entries_cons. simpl. etrans; [apply build_prefix | apply IH].
Qed.

(** Every level of nesting is an object of its own. *)
Lemma build_length (t : tree) :
  forall h : Py.heap, length h + tree_depth t <= length (fst (build h t)).
Proof.
  induction t as [a | ts IH | es IH] using tree_ind'; intros h.
  - simpl. lia.
  - rewrite build_list. simpl. rewrite length_app. simpl.
    enough (length h + list_max (map tree_depth ts)
            <= length (fst (build_items h ts))) by lia.
    revert h. induction IH as [|t ts Ht _ IHts]; intros h; [simpl; lia|].
    rewrite build_items_cons. simpl.
    specialize (Ht h). specialize (IHts (fst (build h t))).
    pose proof (prefix_length _ _ (build_items_prefix ts (fst (build h t)))).
    lia.
  - rewrite build_dict. simpl. rewrite length_app. simpl.
    enough (length h + list_max (map (fun kv => tree_depth (snd kv)) es)
            <= length (fst (build_entries h es))) by lia.
    revert h. induction IH as [|[k t] es Ht _ IHes]; intros h; [simpl; lia|].
    rewrite build_entries_cons. simpl. simpl in Ht.
    specialize (Ht h). specialize (IHes (fst (build h t))).
    pose proof (prefix_length _ _ (build_entries_prefix es (fst (build h t)))).
    lia.
Qed.

Lemma build_entries_keys (es : list (atom * tree)) :
  forall h : Py.heap, map fst (snd (build_entries h es)) = map fst es.
Proof.
  induction es as [|[k t] es IH]; intros h; [done|].
  rewrite build_entries_cons. simpl. by rewrite IH.
Qed.

(** Storing pairs with pairwise different keys keeps them all, in
    order. *)
Lemma dict_set_fresh (k : atom) (v : pyval) (acc : list (atom * pyval)) :
  forallb (fun kv => negb (key_eqb (fst kv) k)) acc = true ->
  dict_set k v acc = acc ++ [(k, v)].
Proof.
  induction acc as [|[k' v'] acc IH]; simpl; [done|].
  intros [Hk Hacc]%andb_true_iff.
  destruct (key_eqb k' k); [done|]. by rewrite IH.
Qed.

Lemma keys_distinct_app (ks1 ks2 : list atom) :
  keys_distinct (ks1 ++ ks2) = true ->
  keys_distinct ks2 = true
  /\ forall k, k ∈ ks2 -> forallb (fun k' => negb (key_eqb k' k)) ks1 = true.
Proof.
  induction ks1 as [|k1 ks1 IH]; simpl; [done|].
  intros [Hk1 Hrest]%andb_true_iff. destruct (IH Hrest) as [H2 Hall].
  split; [done|]. intros k Hk. rewrite Hall by done. rewrite andb_true_r.
  apply negb_true_iff in Hk1. apply negb_true_iff.
  destruct (key_eqb k1 k) eqn:Heq; [|done].
  rewrite <- Hk1. symmetry. apply existsb_exists. exists k.
  split; [|done]. apply list_elem_of_In. apply elem_of_app. by right.
Qed.

Lemma dict_of_pairs_distinct (es : list (atom * pyval)) :
  keys_distinct (map fst es) = true -> dict_of_pairs es = es.
Proof.
  unfold dict_of_pairs.
  enough (forall acc, keys_distinct (map fst (acc ++ es)) = true ->
            fold_left (fun d kv => dict_set (fst kv) (snd kv) d) es acc
            = acc ++ es) as H by apply (H []).
  induction es as [|[k v] es IH]; intros acc Hd; simpl.
  - by rewrite app_nil_r.
  - rewrite dict_set_fresh.
    + rewrite IH; [by rewrite <- app_assoc|].
      by rewrite <- app_assoc.
    + rewrite map_app in Hd. apply keys_distinct_app in Hd as [_ Hall].
      specialize (Hall k (list_elem_of_here _ _)).
      rewrite forallb_forall in Hall.
      apply forallb_forall. intros [k' v'] Hin. simpl.
      apply Hall. apply in_map_iff. by exists (k', v').
Qed.

Lemma items_read_back (ts : list tree) :
  Forall reads_back ts ->
  forallb wf_tree ts = true ->
  forall (h H : Py.heap) (n : nat) (markers : list loc),
    fst (build_items h ts) `prefix_of` H ->
    list_max (map tree_depth ts) <= n ->
    (forall l, l ∈ markers ->
               l < length h \/ length (fst (build_items h ts)) <= l) ->
    res_mapM (snapshot_fuel n H markers) (snd (build_items h ts)) = inr ts.
Proof.
  induction 1 as [|t ts Ht _ IH]; intros Hwf h H n markers Hpre Hn Hmk; [done|].
  simpl in Hwf. apply andb_true_iff in Hwf as [Hwt Hwts].
  rewrite build_items_cons in *. simpl in *.
  pose proof (prefix_length _ _ (build_prefix t h)) as Hl1.
  pose proof (build_items_prefix ts (fst (build h t))) as Hp2.
  pose proof (prefix_length _ _ Hp2) as Hl2.
  rewrite (Ht Hwt h H n markers); [|by etrans | lia |].
  2:{ intros l Hl. destruct (Hmk l Hl); [left | right]; lia. }
  simpl. rewrite (IH Hwts (fst (build h t)) H n markers); [done | done | lia |].
  intros l Hl. destruct (Hmk l Hl); [left | right]; lia.
Qed.

Lemma entries_read_back (es : list (atom * tree)) :
  Forall (fun kv => reads_back (snd kv)) es ->
  forallb (fun kv => wf_tree (snd kv)) es = true ->
  forall (h H : Py.heap) (n : nat) (markers : list loc),
    fst (build_entries h es) `prefix_of` H ->
    list_max (map (fun kv => tree_depth (snd kv)) es) <= n ->
    (forall l, l ∈ markers ->
               l < length h \/ length (fst (build_entries h es)) <= l) ->
    res_mapM (fun kv => res_map (pair (fst kv)) (snapshot_fuel n H markers (snd kv)))
      (snd (build_entries h es))
    = inr es.
Proof.
  induction 1 as [|[k t] es Ht _ IH]; intros Hwf h H n markers Hpre Hn Hmk; [done|].
  simpl in Hwf. apply andb_true_iff in Hwf as [Hwt Hwts].
  rewrite build_entries_cons in *. simpl in *.
  pose proof (prefix_length _ _ (build_prefix t h)) as Hl1.
  pose proof (build_entries_prefix es (fst (build h t))) as Hp2.
  pose proof (prefix_length _ _ Hp2) as Hl2.
  rewrite (Ht Hwt h H n markers); [|by etrans | lia |].
  2:{ intros l Hl. destruct (Hmk l Hl); [left | right]; lia. }
  simpl. rewrite (IH Hwts (fst (build h t)) H n markers); [done | done | lia |].
  intros l Hl. destruct (Hmk l Hl); [left | right]; lia.
Qed.

Lemma snapshot_fuel_ref (n : nat) (h : Py.heap) (markers : list loc) (l : loc) :
  snapshot_fuel (S n) h markers (VRef l)
  = if bool_decide (l ∈ markers) then inl ValueError
    else
      match h !! l with
      | None => inl SystemError
      | Some (OList xs) =>
          res_map TList (res_mapM (snapshot_fuel n h (l :: markers)) xs)
      | Some (ODict es) =>
          res_map TDict
            (res_mapM (fun kv =>
               res_map (pair (fst kv))
                 (snapshot_fuel n h (l :: markers) (snd kv))) es)
      end.
Proof. reflexivity. Qed.

Lemma snapshot_fuel_build (t : tree) : reads_back t.
Proof.
  induction t as [a | ts IH | es IH] using tree_ind';
    intros Hwf h H n markers Hpre Hn Hmk.
  - by destruct n.
  - rewrite build_list in *. simpl in *.
    pose proof (prefix_length _ _ (build_items_prefix ts h)) as Hl1.
    destruct n as [|n]; [lia|]. rewrite snapshot_fuel_ref.
    rewrite bool_decide_eq_false_2.
    2:{ intros Hin. destruct (Hmk _ Hin) as [Hlt | Hge]; [lia|].
        rewrite length_app in Hge. simpl in Hge. lia. }
    assert (Hlk : H !! (length (fst (build_items h ts)) : loc)
                  = Some (OList (snd (build_items h ts)))).
    { eapply prefix_lookup_Some; [|exact Hpre]. by apply list_lookup_middle. }
    rewrite Hlk.
    rewrite (items_read_back ts IH Hwf h H n); [done | | lia |].
    + etrans; [|exact Hpre]. by apply prefix_app_r.
    + intros l [-> | Hl]%elem_of_cons; [right; lia|].
      destruct (Hmk l Hl) as [Hlt | Hge]; [by left | right].
      rewrite length_app in Hge. simpl in Hge. lia.
  - rewrite build_dict in *. simpl in *.
    apply andb_true_iff in Hwf as [Hkeys Hwf].
    pose proof (prefix_length _ _ (build_entries_prefix es h)) as Hl1.
    destruct n as [|n]; [lia|]. rewrite snapshot_fuel_ref.
    rewrite bool_decide_eq_false_2.
    2:{ intros Hin. destruct (Hmk _ Hin) as [Hlt | Hge]; [lia|].
        rewrite length_app in Hge. simpl in Hge. lia. }
    assert (Hlk : H !! (length (fst (build_entries h es)) : loc)
                  = Some (ODict (dict_of_pairs (snd (build_entries h es))))).
    { eapply prefix_lookup_Some; [|exact Hpre]. by apply list_lookup_middle. }
    rewrite Hlk.
    rewrite dict_of_pairs_distinct by (by rewrite build_entries_keys).
    rewrite (entries_read_back es IH Hwf h H n); [done | | lia |].
    + etrans; [|exact Hpre]. by apply prefix_app_r.
    + intros l [-> | Hl]%elem_of_cons; [right; lia|].
      destruct (Hmk l Hl) as [Hlt | Hge]; [by left | right].
      rewrite length_app in Hge. simpl in Hge. lia.
Qed.

(** A decoded value, once built, encodes back to the tree it came
    from. *)
Lemma snapshot_build (h : Py.heap) (t : tree) :
  wf_tree t = true ->
  snapshot (fst (build h t)) (snd (build h t)) = inr t.
Proof.
  intros Hwf. unfold snapshot.
  apply snapshot_fuel_build; [done | done | |].
  - pose proof (build_length t h). lia.
  - intros l Hl. by apply elem_of_nil in Hl.
Qed.

(** ** Successful encrypted saves and loads, read backwards *)

(** The encrypted branch with a directory in the way. *)
Lemma write_encrypted_dir o (_new : bool) s t bin c ct meta :
  snapshot (heap s) (_db o) = inr t ->
  str_encode (encryption_text_encoding o) (json_encode t) = inr bin ->
  crypto_data (self s) = Some c ->
  encrypt c bin = inr ct ->
  crypto_data_file_name o = Some meta ->
  fs s !! db_file_name o = Some Dir \/ fs s !! meta = Some Dir ->
  exists e, snd (write_encrypted o _new s) = inl e.
Proof.
  intros Hsnap Henc Hc Hct Hmeta Hdir.
  destruct s as [f h tr o']. simpl in *.
  unfold write_encrypted, json_dumps, crypto_dump, write_text, write_bytes,
    open, crypto_call, get_crypto_data, get_self.
  unfold bind, modify, get, lift, ret, raise. simpl.
  rewrite Hsnap. simpl. rewrite Henc. simpl. rewrite Hc. simpl.
  rewrite Hct. simpl. rewrite open_file_write by auto.
  destruct (f !! db_file_name o) as [[cdb|]|] eqn:Hdb; simpl; [|by eexists|].
  - erewrite write_file_handle by apply lookup_insert_eq. simpl.
    rewrite insert_insert_eq, Hmeta. simpl.
    rewrite open_file_write by auto.
    destruct Hdir as [Hd | Hd]; [done|].
    assert (Hne : db_file_name o <> meta) by (intros <-; congruence).
    rewrite lookup_insert_ne by done. rewrite Hd. simpl. by eexists.
  - erewrite write_file_handle by apply lookup_insert_eq. simpl.
    rewrite insert_insert_eq, Hmeta. simpl.
    rewrite open_file_write by auto.
    destruct Hdir as [Hd | Hd]; [done|].
    assert (Hne : db_file_name o <> meta) by (intros <-; congruence).
    rewrite lookup_insert_ne by done. rewrite Hd. simpl. by eexists.
Qed.

Lemma dir_or_not (f : filesystem) (p : string) :
  f !! p = Some Dir \/ f !! p <> Some Dir.
Proof. destruct (f !! p) as [[|]|]; auto. Qed.

(** An encrypted branch that returned found what it needed, and left
    the ciphertext and the dump of the metadata on disk. *)
Lemma write_encrypted_ok_inv o (_new : bool) s s' :
  write_encrypted o _new s = (s', inr tt) ->
  exists t bin c ct meta,
    snapshot (heap s) (_db o) = inr t
    /\ str_encode (encryption_text_encoding o) (json_encode t) = inr bin
    /\ crypto_data (self s) = Some c
    /\ encrypt c bin = inr ct
    /\ crypto_data_file_name o = Some meta
    /\ snd (interop_dump c) = None
    /\ s' = {| fs := <[meta := File (list_byte_of_string (fst (interop_dump c)))]>
                       (<[db_file_name o := File ct]> (fs s));
               heap := heap s;
               trace := trace s
                        ++ write_events _new (db_file_name o) meta ct
                             (list_byte_of_string (fst (interop_dump c)));
               self := self s |}.
Proof.
  intros Hw.
  destruct (write_encrypted_trace _ _ _ _ _ Hw)
    as (_ & _ & evs & meta & ct & md & _ & _ & Hok).
  destruct Hok as (_ & Hmeta & c & t & bin & Hc & Hsnap & Henc & Hct & _); [done|].
  exists t, bin, c, ct, meta.
  destruct (dir_or_not (fs s) (db_file_name o)) as [Hd1 | Hd1].
  { destruct (write_encrypted_dir o _new s t bin c ct meta) as [e He]; auto.
    rewrite Hw in He. done. }
  destruct (dir_or_not (fs s) meta) as [Hd2 | Hd2].
  { destruct (write_encrypted_dir o _new s t bin c ct meta) as [e He]; auto.
    rewrite Hw in He. done. }
  rewrite (write_encrypted_run o _new s t bin c ct meta) in Hw by done.
  destruct (snd (interop_dump c)); simplify_eq. done.
Qed.

Lemma not_dir_after_writes (f : filesystem) (db meta p : string)
    (a b : list byte) :
  p = db \/ p = meta ->
  <[meta := File a]> (<[db := File b]> f) !! p <> Some Dir.
Proof.
  intros Hp. destruct (decide (meta = p)) as [-> | Hne].
  - by rewrite lookup_insert_eq.
  - rewrite lookup_insert_ne by done.
    destruct Hp as [-> | ->]; [by rewrite lookup_insert_eq | done].
Qed.

(** An encrypted [save] that returned. *)
Lemma save_encrypted_ok_inv s (_new : bool) s' :
  encryption (self s) = true ->
  save _new s = (s', inr tt) ->
  exists c meta,
    is_None (_db (self s)) = false
    /\ ((_new = false /\ crypto_data (self s) = Some c
         /\ check_string_key c (string_key (self s))
              (encryption_text_encoding (self s)) = inr tt)
        \/ make_new (string_key (self s)) (encryption_text_encoding (self s))
           = inr c)
    /\ crypto_data_file_name (self s) = Some meta
    /\ fs s' !! db_file_name (self s) <> Some Dir
    /\ fs s' !! meta <> Some Dir
    /\ heap s' = heap s
    /\ same_config (self s) (self s')
    /\ _db (self s') = _db (self s)
    /\ loaded (self s') = loaded (self s)
    /\ crypto_data (self s') = Some c.
Proof.
  intros Henc Hsave.
  destruct s as [f h tr o]. simpl in *.
  unfold save, save_body, rotation_check, regenerate, crypto_call,
    get_crypto_data, assign, get_self, assert, when, try_except, lift,
    modify, get, bind, raise, ret in Hsave.
  simpl in Hsave. rewrite Henc in Hsave. simpl in Hsave.
  destruct (is_None (_db o)) eqn:Hnone; simpl in Hsave; [done|].
  destruct _new; simpl in Hsave.
  - destruct (make_new (string_key o) (encryption_text_encoding o))
      as [e|c] eqn:Hnew; simpl in Hsave; [done|].
    apply write_encrypted_ok_inv in Hsave
      as (t & bin & c' & ct & meta & ? & ? & ? & ? & ? & ? & ->).
    simpl in *. simplify_eq. eexists _, meta.
    repeat split; eauto 10 using not_dir_after_writes.
  - destruct (crypto_data o) as [c|] eqn:Hc; simpl in Hsave; [|done].
    destruct (check_string_key c (string_key o) (encryption_text_encoding o))
      as [e|[]] eqn:Hcheck; simpl in Hsave.
    + destruct (is_InvalidKeyError e) eqn:He; simpl in Hsave; [|done].
      destruct (make_new (string_key o) (encryption_text_encoding o))
        as [e'|c'] eqn:Hnew; simpl in Hsave; [done|].
      apply write_encrypted_ok_inv in Hsave
        as (t & bin & c'' & ct & meta & ? & ? & ? & ? & ? & ? & ->).
      simpl in *. simplify_eq. eexists _, meta.
      repeat split; eauto 10 using not_dir_after_writes.
    + apply write_encrypted_ok_inv in Hsave
        as (t & bin & c'' & ct & meta & ? & ? & ? & ? & ? & ? & ->).
      simpl in *. simplify_eq. eexists _, meta.
      repeat split; eauto 10 using not_dir_after_writes.
Qed.

(** An encrypted [load] that returned: the configuration is what it
    was, the data and metadata paths are not directories, and the
    metadata in memory verify the secret or were made from it. *)
Lemma load_encrypted_ok_inv s (create : bool) s' :
  encryption (self s) = true ->
  load create s = (s', inr tt) ->
  exists c meta,
    same_config (self s) (self s')
    /\ crypto_data (self s') = Some c
    /\ (check_string_key c (string_key (self s))
          (encryption_text_encoding (self s)) = inr tt
        \/ make_new (string_key (self s)) (encryption_text_encoding (self s))
           = inr c)
    /\ crypto_data_file_name (self s) = Some meta
    /\ fs s' !! db_file_name (self s) <> Some Dir
    /\ fs s' !! meta <> Some Dir
    /\ is_None (_db (self s')) = false.
Proof.
  intros Henc Hload.
  destruct s as [f h tr o]. simpl in *.
  unfold load, crypto_load, json_loads, copy_deepcopy, read_text, read_bytes,
    open, os_path_exists, os_path_isfile, crypto_call, get_crypto_data,
    assign, get_self, when, lift, modify, get, bind, raise, ret in Hload.
  simpl in Hload. rewrite Henc in Hload. simpl in Hload.
  repeat (step_in Hload; simpl in *; simplify_eq).
  all: repeat match goal with u : unit |- _ => destruct u end.
  all: match goal with
       | Hs : save _ _ = (_, inr _) |- _ =>
           apply save_encrypted_ok_inv in Hs; [|simpl; exact Henc];
           destruct Hs as (? & ? & HNone & HKey & HMeta & HDb & HMd & HHeap
                           & HCfg & HDb2 & HLd & HC)
       end.
  all: simpl in *; eexists _, _.
  all: destruct HCfg as (? & ? & ? & ? & ? & ?).
  all: split; [done|]; split; [exact HC|].
  all: (split; [destruct HKey as [(_ & _ & ?) | ?]; auto|]).
  all: split; [first [exact HMeta | reflexivity]|].
  all: split; [exact HDb|].
  all: split; [first [exact HMd | congruence]|].
  all: rewrite HDb2; exact HNone.
Qed.

(** ** Encrypted saves and loads, run forwards *)

(** A [save] whose key check passes. *)
Lemma save_keep_run s c t bin ct meta :
  encryption (self s) = true ->
  is_None (_db (self s)) = false ->
  crypto_data (self s) = Some c ->
  check_string_key c (string_key (self s)) (encryption_text_encoding (self s))
  = inr tt ->
  snapshot (heap s) (_db (self s)) = inr t ->
  str_encode (encryption_text_encoding (self s)) (json_encode t) = inr bin ->
  encrypt c bin = inr ct ->
  crypto_data_file_name (self s) = Some meta ->
  snd (interop_dump c) = None ->
  fs s !! db_file_name (self s) <> Some Dir ->
  fs s !! meta <> Some Dir ->
  exists s',
    save false s = (s', inr tt)
    /\ fs s' = <[meta := File (list_byte_of_string (fst (interop_dump c)))]>
                 (<[db_file_name (self s) := File ct]> (fs s))
    /\ heap s' = heap s
    /\ self s' = self s.
Proof.
  intros Henc Hnone Hc Hcheck Hsnap Hbin Hct Hmeta Hdump Hdb Hmd.
  unfold save, save_body, rotation_check, regenerate, crypto_call,
    get_crypto_data, assign, get_self, assert, when, try_except, lift,
    modify, get, bind, raise, ret.
  simpl. rewrite Henc, Hnone. simpl. rewrite Hc. simpl. rewrite Hcheck. simpl.
  erewrite write_encrypted_run; simpl; eauto.
  rewrite Hdump. eexists. split; [reflexivity|]. done.
Qed.

(** A [save] whose key check reports a changed secret. *)
Lemma save_rotate_run s c0 c t bin ct meta :
  encryption (self s) = true ->
  is_None (_db (self s)) = false ->
  crypto_data (self s) = Some c0 ->
  check_string_key c0 (string_key (self s)) (encryption_text_encoding (self s))
  = inl InvalidKeyError ->
  make_new (string_key (self s)) (encryption_text_encoding (self s)) = inr c ->
  snapshot (heap s) (_db (self s)) = inr t ->
  str_encode (encryption_text_encoding (self s)) (json_encode t) = inr bin ->
  encrypt c bin = inr ct ->
  crypto_data_file_name (self s) = Some meta ->
  snd (interop_dump c) = None ->
  fs s !! db_file_name (self s) <> Some Dir ->
  fs s !! meta <> Some Dir ->
  exists s',
    save false s = (s', inr tt)
    /\ fs s' = <[meta := File (list_byte_of_string (fst (interop_dump c)))]>
                 (<[db_file_name (self s) := File ct]> (fs s))
    /\ heap s' = heap s
    /\ self s' = set_crypto_data c (self s).
Proof.
  intros Henc Hnone Hc Hcheck Hnew Hsnap Hbin Hct Hmeta Hdump Hdb Hmd.
  unfold save, save_body, rotation_check, regenerate, crypto_call,
    get_crypto_data, assign, get_self, assert, when, try_except, lift,
    modify, get, bind, raise, ret.
  simpl. rewrite Henc, Hnone. simpl. rewrite Hc. simpl. rewrite Hcheck. simpl.
  rewrite Hnew. simpl.
  erewrite write_encrypted_run; simpl; eauto.
  rewrite Hdump. eexists. split; [reflexivity|]. done.
Qed.

(** An encrypted [load] of files written under the secret of the
    store. *)
Lemma load_encrypted_run s (create : bool) meta md ct c bin txt t bin' ct' :
  encryption (self s) = true ->
  crypto_data_file_name (self s) = Some meta ->
  fs s !! meta = Some (File md) ->
  fs s !! db_file_name (self s) = Some (File ct) ->
  interop_load (string_of_list_byte md) (string_key (self s))
    (encryption_text_encoding (self s)) = inr c ->
  decrypt c ct = inr bin ->
  bytes_decode (encryption_text_encoding (self s)) bin = inr txt ->
  json_decode txt = Some t ->
  wf_tree t = true ->
  is_None (snd (build (heap s) t)) = false ->
  check_string_key c (string_key (self s)) (encryption_text_encoding (self s))
  = inr tt ->
  str_encode (encryption_text_encoding (self s)) (json_encode t) = inr bin' ->
  encrypt c bin' = inr ct' ->
  snd (interop_dump c) = None ->
  exists s',
    load create s = (s', inr tt)
    /\ heap s' = fst (build (heap s) t)
    /\ _db (self s') = snd (build (heap s) t)
    /\ loaded (self s') = true.
Proof.
  intros Henc Hmeta Hmd Hdb Hload Hdec Htxt Hjson Hwf Hnone Hcheck Hbin Hct Hdump.
  destruct (path_exists_file _ _ _ Hdb) as [Hex Hisf].
  destruct (open_file_read _ _ _ Hmd) as [Hopen1 _].
  destruct (open_file_read _ _ _ Hdb) as [_ Hopen2].
  destruct s as [f h tr o]. simpl in *.
  unfold load, crypto_load, json_loads, copy_deepcopy, read_text, read_bytes,
    open, os_path_exists, os_path_isfile, crypto_call, get_crypto_data,
    assign, get_self, when, lift, modify, get, bind, raise, ret.
  simpl. rewrite Hex. simpl. rewrite Hisf. simpl. rewrite Henc. simpl.
  rewrite Hmeta. simpl. rewrite Hopen1. simpl.
  erewrite read_file_handle by done. simpl. rewrite Hload. simpl.
  rewrite Hopen2. simpl. erewrite read_file_handle by done. simpl.
  rewrite Hdec. simpl. rewrite Htxt. simpl. rewrite Hjson. simpl.
  match goal with
  | |- context [save false ?st] =>
      destruct (save_keep_run st c t bin' ct' meta) as (s' & Hs & Hfs & Hh & Hself)
  end; simpl; try done.
  - by apply snapshot_build.
  - congruence.
  - congruence.
  - rewrite Hs. simpl. eexists. split; [reflexivity|]. simpl.
    rewrite Hh, Hself. done.
Qed.

(** An encrypted [load] under a secret that the provider rejects,
    while loading the metadata or while decrypting. *)
Lemma load_wrong_secret s (create : bool) meta md ct :
  encryption (self s) = true ->
  crypto_data_file_name (self s) = Some meta ->
  fs s !! meta = Some (File md) ->
  fs s !! db_file_name (self s) = Some (File ct) ->
  match interop_load (string_of_list_byte md) (string_key (self s))
          (encryption_text_encoding (self s)) with
  | inl _ => True
  | inr c => exists e, decrypt c ct = inl e
  end ->
  exists s' e, load create s = (s', inl e).
Proof.
  intros Henc Hmeta Hmd Hdb Hrej.
  destruct (path_exists_file _ _ _ Hdb) as [Hex Hisf].
  destruct (open_file_read _ _ _ Hmd) as [Hopen1 _].
  destruct (open_file_read _ _ _ Hdb) as [_ Hopen2].
  destruct s as [f h tr o]. simpl in *.
  unfold load, crypto_load, json_loads, copy_deepcopy, read_text, read_bytes,
    open, os_path_exists, os_path_isfile, crypto_call, get_crypto_data,
    assign, get_self, when, lift, modify, get, bind, raise, ret.
  simpl. rewrite Hex. simpl. rewrite Hisf. simpl. rewrite Henc. simpl.
  rewrite Hmeta. simpl. rewrite Hopen1. simpl.
  erewrite read_file_handle by done. simpl.
  destruct (interop_load (string_of_list_byte md) (string_key o)
              (encryption_text_encoding o)) as [e|c]; simpl.
  - by eexists _, _.
  - destruct Hrej as [e He].
    rewrite Hopen2. simpl. erewrite read_file_handle by done. simpl.
    rewrite He. simpl. by eexists _, _.
Qed.

(** ** The claims *)

(** C5: with the data file missing and [create_if_nonexistent] false,
    [load] raises the "doesn't exist" exception and the whole state
    (disk, trace of effects, heap, attributes of the store, so the
    [loaded] flag and the mapping) is what it was. *)
Theorem load_refuses_missing_file s :
  path_exists (fs s) (db_file_name (self s)) = false ->
  load false s = (s, inl (Exception "Database file doesn't exist")).
Proof.
  intros Hmiss. unfold_m. simpl. by rewrite Hmiss.
Qed.

(** C10: with the default [None] and the data file missing, a creating
    [load] fails in its inner [save] with the "needs to be loaded
    first" assertion; the store is left marked loaded, with [None] for
    mapping, and nothing else has changed. *)
Theorem load_default_none_fails s :
  default (self s) = VNone ->
  path_exists (fs s) (db_file_name (self s)) = false ->
  load true s
  = (with_self (set_loaded true (set__db VNone (self s))) s,
     inl (AssertionError not_loaded_message)).
Proof.
  intros Hdef Hmiss. unfold load. unfold bind at 1. unfold get_self at 1.
  unfold bind at 1. unfold os_path_exists, bind, get, ret. simpl.
  rewrite Hmiss. simpl. unfold_m. simpl.
  rewrite Hdef. simpl. by destruct s.
Qed.

(** C6, amended: the guard of [save] tests the mapping, not the flag.
    When the mapping is [None], [save] raises the "needs to be loaded
    first" assertion and the whole state is what it was; otherwise the
    guard passes and the rest of [save] runs.  The [loaded] flag is
    never read. *)
Theorem save_guard_tests_mapping s (_new : bool) :
  (if is_None (_db (self s))
   then save _new s = (s, inl (AssertionError not_loaded_message))
   else save _new s = save_body (self s) _new s)
  /\ forall b,
      save _new (with_self (set_loaded b (self s)) s)
      = (with_self (set_loaded b (self (fst (save _new s)))) (fst (save _new s)),
         snd (save _new s)).
Proof.
  split.
  - unfold save, bind, get_self, assert, ret, raise.
    by destruct (is_None (_db (self s))).
  - intros b. apply save_ignores_loaded. by destruct (save _new s).
Qed.

(** C9: in a plain store the two values of [_new] leave the same disk
    (so the same content in the data file), the same heap, the same
    store and the same outcome; the traces differ in the mode of the
    [open] only. *)
Theorem plain_save_same_content s :
  encryption (self s) = false ->
  fs (fst (save true s)) = fs (fst (save false s))
  /\ heap (fst (save true s)) = heap (fst (save false s))
  /\ self (fst (save true s)) = self (fst (save false s))
  /\ snd (save true s) = snd (save false s)
  /\ map forget_mode (trace (fst (save true s)))
     = map forget_mode (trace (fst (save false s))).
Proof.
  intros Henc.
  assert (Hrun : forall n, save n s
    = if is_None (_db (self s))
      then (s, inl (AssertionError not_loaded_message))
      else write_plain (self s) n s).
  { intros n. unfold save, save_body, bind, get_self, assert, when, ret, raise.
    rewrite Henc. simpl. by destruct (is_None (_db (self s))). }
  rewrite !Hrun, !write_plain_run.
  destruct (is_None (_db (self s))); [done|]. simpl.
  destruct (fs s !! db_file_name (self s)) as [[c|]|]; simpl;
    rewrite ?map_app; simpl; done.
Qed.

(** C1: the key-rotation check of an encrypted [save] with [_new]
    false, on a store holding a mapping and metadata [c].  When the
    verification succeeds, [save] goes on to the encrypted branch with
    the metadata untouched, and they are still [c] afterwards.  When it
    raises [InvalidKeyError], new metadata are made from the current
    secret and stored before the encrypted branch runs (if making
    them fails, that error is the outcome).  Any other exception is the
    outcome of [save], as raised, with nothing done after the check. *)
Theorem key_rotation_check_outcomes s c :
  encryption (self s) = true ->
  is_None (_db (self s)) = false ->
  crypto_data (self s) = Some c ->
  let o := self s in
  let checked := log (EvCrypto CheckStringKey) s in
  match check_string_key c (string_key o) (encryption_text_encoding o) with
  | inr _ =>
      save false s = write_encrypted o false checked
      /\ crypto_data (self (fst (save false s))) = Some c
  | inl e =>
      if is_InvalidKeyError e then
        match make_new (string_key o) (encryption_text_encoding o) with
        | inr c' =>
            save false s
            = write_encrypted o false
                (with_self (set_crypto_data c' o) (log (EvCrypto MakeNew) checked))
            /\ crypto_data (self (fst (save false s))) = Some c'
        | inl e' => save false s = (log (EvCrypto MakeNew) checked, inl e')
        end
      else save false s = (checked, inl e)
  end.
Proof.
  intros Henc Hdb Hc o checked. subst o checked.
  unfold save, save_body, rotation_check, regenerate, crypto_call,
    get_crypto_data, assign, get_self, assert, when, try_except, lift,
    modify, get, bind, raise, ret.
  simpl. rewrite Henc, Hdb. simpl. rewrite Hc. simpl.
  destruct (check_string_key c (string_key (self s))
              (encryption_text_encoding (self s))) as [e|[]] eqn:Hcheck; simpl.
  - destruct (is_InvalidKeyError e) eqn:He; simpl; [|reflexivity].
    destruct (make_new (string_key (self s)) (encryption_text_encoding (self s)))
      as [e'|c'] eqn:Hnew; simpl; [reflexivity|].
    split; [reflexivity|].
    match goal with
    | |- context [write_encrypted ?o ?n ?st] =>
        destruct (write_encrypted o n st) as [s' r] eqn:Hw
    end.
    apply write_encrypted_trace in Hw as (Hself & _). simpl.
    by rewrite Hself.
  - split; [reflexivity|].
    match goal with
    | |- context [write_encrypted ?o ?n ?st] =>
        destruct (write_encrypted o n st) as [s' r] eqn:Hw
    end.
    apply write_encrypted_trace in Hw as (Hself & _). simpl.
    by rewrite Hself.
Qed.

(** C3: the effects of an encrypted [save], however far it gets, are
    a prefix of: the check of the key (unless [_new]), the making of
    new metadata (when [_new] or the secret has changed), the
    encryption, the opening and writing of the data file, the opening
    and writing of the metadata file.  A [save] that returns has done
    all of them in that order: the ciphertext written was made with the
    metadata in memory at the end, which are the regenerated ones when
    there was a regeneration, and their dump is what is written last. *)
Theorem encrypted_save_order s (_new : bool) :
  encryption (self s) = true ->
  let o := self s in
  let s' := fst (save _new s) in
  exists evs meta ct md,
    trace s' = trace s ++ evs
    /\ evs `prefix_of`
         encrypted_save_events _new (_new || key_changed o)
           (db_file_name o) meta ct md
    /\ (snd (save _new s) = inr tt ->
        evs = encrypted_save_events _new (_new || key_changed o)
                (db_file_name o) meta ct md
        /\ crypto_data_file_name o = Some meta
        /\ exists c t bin,
            crypto_data (self s') = Some c
            /\ (if _new || key_changed o
                then make_new (string_key o) (encryption_text_encoding o) = inr c
                else crypto_data o = Some c)
            /\ snapshot (heap s) (_db o) = inr t
            /\ str_encode (encryption_text_encoding o) (json_encode t) = inr bin
            /\ encrypt c bin = inr ct
            /\ md = list_byte_of_string (fst (interop_dump c))).
Proof.
  intros Henc o s'. subst o s'.
  destruct (save _new s) as [s' r] eqn:Hsave. simpl.
  destruct s as [f h tr o]. simpl in *.
  unfold save, save_body, rotation_check, regenerate, crypto_call,
    get_crypto_data, assign, get_self, assert, when, try_except, lift,
    modify, get, bind, raise, ret in Hsave.
  unfold key_changed. simpl in Hsave. rewrite Henc in Hsave. simpl in Hsave.
  destruct (is_None (_db o)) eqn:Hnone; simpl in Hsave.
  { simplify_eq. exists [], EmptyString, [], []. rewrite app_nil_r.
    split; [done|]. split; [apply prefix_nil | done]. }
  destruct _new; simpl in Hsave.
  - (* a new database: no check, always a regeneration *)
    destruct (make_new (string_key o) (encryption_text_encoding o))
      as [e|c] eqn:Hnew; simpl in Hsave.
    + simplify_eq. simpl. exists [EvCrypto MakeNew], EmptyString, [], [].
      split; [done|]. split; [by eexists | done].
    + apply write_encrypted_trace in Hsave
        as (Hself & Hheap & evs & meta & ct & md & Htr & Hpre & Hok).
      simpl in *. rewrite Hself. exists (EvCrypto MakeNew :: evs), meta, ct, md.
      split; [by rewrite Htr, <- app_assoc|].
      split; [by apply prefix_cons|].
      intros ->. destruct Hok as (-> & Hmeta & c0 & t & bin & Hc & Hrest); [done|].
      split; [done|]. split; [done|]. simplify_eq.
      simpl. destruct Hrest as (? & ? & ? & ?).
      eexists _, _, _. repeat split; eauto.
  - destruct (crypto_data o) as [c|] eqn:Hc; simpl in Hsave.
    2:{ simplify_eq. simpl. exists [], EmptyString, [], []. rewrite app_nil_r.
        split; [done|]. split; [apply prefix_nil | done]. }
    destruct (check_string_key c (string_key o) (encryption_text_encoding o))
      as [e|[]] eqn:Hcheck; simpl in Hsave.
    + destruct (is_InvalidKeyError e) eqn:He; simpl in Hsave.
      * destruct (make_new (string_key o) (encryption_text_encoding o))
          as [e'|c'] eqn:Hnew; simpl in Hsave.
        -- simplify_eq. simpl.
           exists [EvCrypto CheckStringKey; EvCrypto MakeNew], EmptyString, [], [].
           split; [by rewrite <- app_assoc|]. split; [by eexists | done].
        -- apply write_encrypted_trace in Hsave
             as (Hself & Hheap & evs & meta & ct & md & Htr & Hpre & Hok).
           simpl in *. rewrite Hself.
           exists (EvCrypto CheckStringKey :: EvCrypto MakeNew :: evs), meta, ct, md.
           split; [by rewrite Htr, <- !app_assoc|].
           split; [by do 2 apply prefix_cons|].
           intros ->.
           destruct Hok as (-> & Hmeta & c0 & t & bin & Hc0 & Hrest); [done|].
           split; [done|]. split; [done|]. simplify_eq.
           simpl. destruct Hrest as (? & ? & ? & ?).
      eexists _, _, _. repeat split; eauto.
      * simplify_eq. simpl. exists [EvCrypto CheckStringKey], EmptyString, [], [].
        split; [done|]. split; [by eexists | done].
    + apply write_encrypted_trace in Hsave
        as (Hself & Hheap & evs & meta & ct & md & Htr & Hpre & Hok).
      simpl in *. rewrite Hself. exists (EvCrypto CheckStringKey :: evs), meta, ct, md.
      split; [by rewrite Htr, <- app_assoc|].
      split; [by apply prefix_cons|].
      intros ->. destruct Hok as (-> & Hmeta & c0 & t & bin & Hc0 & Hrest); [done|].
      split; [done|]. split; [done|]. simplify_eq.
      simpl. destruct Hrest as (? & ? & ? & ?).
      eexists _, _, _. repeat split; eauto.
Qed.

Lemma func_names_are_dict_methods (name : string) :
  has_name name func_names = true -> is_Some (dict_getattr name).
Proof.
  unfold has_name. rewrite existsb_exists. intros (x & Hin & Heq).
  apply String.eqb_eq in Heq. subst x.
  unfold func_names in Hin. simpl in Hin.
  repeat (destruct Hin as [<- | Hin]; [by eexists|]).
  done.
Qed.

(** C8: the function the module loop installs names its first
    parameter [self].  Called on a store with a keyword argument of
    that name, whatever the name proxied, the positional arguments and
    the other keyword arguments, it raises [TypeError] and leaves the
    store, the heap, the disk and the trace as they were: the
    attribute of the mapping is not called. *)
Theorem proxy_rejects_keyword_self s (name : string) (args : list pyval)
    (kwargs : list (string * pyval)) :
  has_name "self" (map fst kwargs) = true ->
  proxy_function_creator name args kwargs s = Some (s, inl TypeError).
Proof. intros Hself. unfold proxy_function_creator. by rewrite Hself. Qed.

(** Of the fifteen methods, only [update] takes keyword arguments:
    the others raise [TypeError] when given any, and change nothing. *)
Lemma dict_method_rejects_keywords (name : string) (m : method)
    (h : Py.heap) (l : loc) (args : list pyval) (kv : string * pyval)
    (kwargs : list (string * pyval)) :
  has_name name func_names = true ->
  name <> "update" ->
  dict_getattr name = Some m ->
  m h l args (kv :: kwargs) = (h, inl TypeError).
Proof.
  unfold has_name. rewrite existsb_exists. intros (x & Hin & Heq) Hup Hm.
  apply String.eqb_eq in Heq. subst x.
  unfold func_names in Hin. simpl in Hin.
  repeat (destruct Hin as [<- | Hin];
          [first [done
                 | injection Hm as <-;
                   by destruct args as [|? [|? [|? ?]]]]|]).
  done.
Qed.

(** X21: for each of the fifteen names, on a store whose [_db] is a
    dict, the function the module loop installs is the proxy; called
    with any arguments but [update] with a keyword argument named
    [self], it gives what the dict method of that name gives on the
    mapping itself, result and new heap alike; the disk, the trace of
    effects and the attributes of the store are untouched; and the
    value of the [loaded] flag makes no difference. *)
Theorem proxies_forward_to_mapping s (l : loc) (es : list (atom * pyval))
    (name : string) (args : list pyval) (kwargs : list (string * pyval)) :
  has_name name func_names = true ->
  (name = "update" -> has_name "self" (map fst kwargs) = false) ->
  _db (self s) = VRef l ->
  heap s !! l = Some (ODict es) ->
  exists h' r,
    mapping_call (heap s) l name args kwargs = Some (h', r)
    /\ backend_getattr name = Some (proxy_function_creator name)
    /\ proxy_function_creator name args kwargs s
       = Some ({| fs := fs s; heap := h'; trace := trace s; self := self s |}, r)
    /\ forall b,
        proxy_function_creator name args kwargs
          (with_self (set_loaded b (self s)) s)
        = Some ({| fs := fs s; heap := h'; trace := trace s;
                   self := set_loaded b (self s) |}, r).
Proof.
  intros Hname Hself Hdb Hl.
  destruct (func_names_are_dict_methods name Hname) as [m Hm].
  exists (fst (m (heap s) l args kwargs)), (snd (m (heap s) l args kwargs)).
  unfold mapping_call, backend_getattr, proxy_function_creator, call_attr.
  destruct (has_name "self" (map fst kwargs)) eqn:Hkw.
  - assert (Hup : name <> "update") by (intros ->; by specialize (Hself eq_refl)).
    destruct kwargs as [|kv kwargs]; [done|].
    pose proof (dict_method_rejects_keywords name m (heap s) l args kv
                  kwargs Hname Hup Hm) as Hrej.
    rewrite Hname, Hm, Hrej. cbn [fst snd]. destruct s.
    repeat split; reflexivity.
  - cbn [self heap with_self with_heap set_loaded _db].
    rewrite Hname, Hdb, Hl, Hm. cbn [negb fmap option_fmap option_map].
    destruct (m (heap s) l args kwargs) as [h' r]. cbn [fst snd].
    repeat split; reflexivity.
Qed.

(** C7: in a plain store holding a mapping [M] with pairwise different
    keys that the text format represents (decoding its text gives it
    back), with a data path that is not a directory, [save] succeeds.
    After it, [load] succeeds on every plain store object for the same
    data path, whatever that object holds in memory (the store that
    saved, or a new one with no mapping) and whatever the heap: the
    mapping in memory afterwards is [M], read back from the file. *)
Theorem plain_save_load_roundtrip s (es : list (atom * tree))
    (_new create : bool) :
  encryption (self s) = false ->
  snapshot (heap s) (_db (self s)) = inr (TDict es) ->
  wf_tree (TDict es) = true ->
  json_decode (json_encode (TDict es)) = Some (TDict es) ->
  fs s !! db_file_name (self s) <> Some Dir ->
  exists s1,
    save _new s = (s1, inr tt)
    /\ forall (o' : JSONDatabaseBackend) (h : Py.heap) (tr : list event),
        encryption o' = false ->
        db_file_name o' = db_file_name (self s) ->
        exists s2,
          load create {| fs := fs s1; heap := h; trace := tr; self := o' |}
          = (s2, inr tt)
          /\ snapshot (heap s2) (_db (self s2)) = inr (TDict es)
          /\ loaded (self s2) = true.
Proof.
  intros Henc Hsnap Hwf Hrep Hdir.
  assert (Hnone : is_None (_db (self s)) = false).
  { by destruct (_db (self s)) as [[]|]. }
  assert (Hsave : save _new s
    = ({| fs := <[db_file_name (self s)
                  := File (list_byte_of_string (json_encode (TDict es)))]> (fs s);
          heap := heap s;
          trace := trace s ++ [EvOpen (db_file_name (self s)) (mode_for "w" _new);
                               EvWrite (db_file_name (self s))
                                 (list_byte_of_string (json_encode (TDict es)))];
          self := self s |}, inr tt)).
  { unfold save, save_body, bind, get_self, assert, when, ret, raise.
    rewrite Hnone, Henc. simpl. rewrite write_plain_run. simpl.
    unfold dumped_text. rewrite Hsnap.
    by destruct (fs s !! db_file_name (self s)) as [[|]|]. }
  eexists. split; [exact Hsave|].
  intros o' h tr Henc' Hdb'. eexists. split.
  - apply load_plain_run with (c := list_byte_of_string (json_encode (TDict es)));
      simpl; [done | rewrite Hdb'; apply lookup_insert_eq |].
    by rewrite string_of_list_byte_of_string.
  - simpl. split; [|done]. by apply snapshot_build.
Qed.

Lemma deepcopy_empty_dict (depth : nat) (h : Py.heap) (ld : loc) :
  h !! ld = Some (ODict []) ->
  deepcopy (S depth) h (VRef ld) = inr (h ++ [ODict []], VRef (length h)).
Proof.
  intros Hld. unfold deepcopy. simpl. by rewrite Hld.
Qed.

Lemma snapshot_empty_dict (h : Py.heap) (l : loc) :
  h !! l = Some (ODict []) -> snapshot h (VRef l) = inr (TDict []).
Proof.
  intros Hl. unfold snapshot. rewrite snapshot_fuel_ref. simpl.
  by rewrite Hl.
Qed.

(** C4: a store whose default is an empty dict and whose data file is
    missing (and, when encrypted, whose provider and metadata path are
    ready).  A creating [load] returns; the store is marked loaded; its
    mapping is a new object, an empty dict, and the objects that were
    there, the default among them, are untouched; whatever is later
    stored at the address of the default, the mapping of the store
    still reads as the empty dict; the data file is now a regular file
    (holding the text of the empty dict in a plain store), and so is
    the metadata file of an encrypted store. *)
Theorem load_creates_from_default s (ld : loc) :
  default (self s) = VRef ld ->
  heap s !! ld = Some (ODict []) ->
  path_exists (fs s) (db_file_name (self s)) = false ->
  (if encryption (self s)
   then exists meta c ct, encryption_ready (self s) (fs s) (TDict []) meta c ct
   else True) ->
  exists s',
    load true s = (s', inr tt)
    /\ loaded (self s') = true
    /\ _db (self s') = VRef (length (heap s))
    /\ heap s' = heap s ++ [ODict []]
    /\ snapshot (heap s') (_db (self s')) = inr (TDict [])
    /\ (forall obj : pyobj,
          snapshot (<[ld := obj]> (heap s')) (_db (self s')) = inr (TDict []))
    /\ path_isfile (fs s') (db_file_name (self s)) = true
    /\ (if encryption (self s)
        then exists meta, crypto_data_file_name (self s) = Some meta
                          /\ path_isfile (fs s') meta = true
        else fs s' = <[db_file_name (self s)
                       := File (list_byte_of_string (json_encode (TDict [])))]>
                       (fs s)).
Proof.
  intros Hdef Hld Hmiss Hready.
  assert (Hnodir : fs s !! db_file_name (self s) = None).
  { unfold path_exists in Hmiss. apply bool_decide_eq_false in Hmiss.
    destruct (fs s !! db_file_name (self s)) eqn:E; [|done].
    exfalso. apply Hmiss. by eexists. }
  assert (Hlen : ld < length (heap s)) by (by eapply lookup_lt_Some).
  assert (Hnew : (heap s ++ [ODict []]) !! (length (heap s) : loc)
                 = Some (ODict [])) by (by apply list_lookup_middle).
  assert (Hsnap : snapshot (heap s ++ [ODict []]) (VRef (length (heap s)))
                  = inr (TDict [])) by (by apply snapshot_empty_dict).
  assert (Hmut : forall obj : pyobj,
             snapshot (<[ld := obj]> (heap s ++ [ODict []]))
               (VRef (length (heap s))) = inr (TDict [])).
  { intros obj. apply snapshot_empty_dict.
    etrans; [apply list_lookup_insert_ne; lia | exact Hnew]. }
  assert (Hload : load true s
    = save true {| fs := fs s; heap := heap s ++ [ODict []]; trace := trace s;
                   self := set_loaded true
                             (set__db (VRef (length (heap s))) (self s)) |}).
  { unfold load, copy_deepcopy, os_path_exists, assign, get_self, when, lift,
      modify, get, bind, raise, ret.
    simpl. rewrite Hmiss. simpl. rewrite Hdef.
    rewrite deepcopy_empty_dict by done. reflexivity. }
  rewrite Hload. clear Hload.
  unfold save, save_body, bind, get_self, assert, when, ret, raise. simpl.
  destruct (encryption (self s)) eqn:Henc; simpl.
  - destruct Hready as (meta & c & ct & Hmeta & Hmdir & Hmake & (bin & Hbin & Hct) & Hdump).
    unfold regenerate, crypto_call, assign, lift, modify, bind, ret. simpl.
    rewrite Hmake. simpl.
    erewrite write_encrypted_run; simpl; eauto.
    2:{ by rewrite Hnodir. }
    rewrite Hdump. eexists. split; [reflexivity|]. simpl.
    repeat split; try done.
    + unfold path_isfile.
      destruct (decide (meta = db_file_name (self s))) as [-> | Hne].
      * by rewrite lookup_insert_eq.
      * rewrite lookup_insert_ne by done. by rewrite lookup_insert_eq.
    + exists meta. split; [done|]. unfold path_isfile. by rewrite lookup_insert_eq.
  - rewrite write_plain_run. simpl. rewrite Hnodir.
    unfold dumped_text. rewrite Hsnap.
    eexists. split; [reflexivity|]. simpl.
    repeat split; try done.
    unfold path_isfile. by rewrite lookup_insert_eq.
Qed.

(** C2: an encrypted store with secret [S], whose provider honours the
    contract and whose metadata path differs from the data path, is
    loaded; its secret is then set to another one, [S'], and [save] is
    called while the mapping in memory is [M] (a mapping with pairwise
    different keys that the text format and the codec represent).  The
    [save] returns.  After it, a new store object with the same paths
    and the secret [S'] loads, and holds [M]; a new store object with
    the secret [S] fails to load. *)
Theorem key_rotation_roundtrip s0 s1 (S S' meta : string)
    (es : list (atom * tree)) (h2 : Py.heap) (create : bool) :
  let enc := encryption_text_encoding (self s0) in
  let db := db_file_name (self s0) in
  CryptoContract enc ->
  encryption (self s0) = true ->
  string_key (self s0) = Some S ->
  crypto_data_file_name (self s0) = Some meta ->
  meta <> db ->
  load create s0 = (s1, inr tt) ->
  S' <> S ->
  snapshot h2 (_db (self s1)) = inr (TDict es) ->
  wf_tree (TDict es) = true ->
  json_decode (json_encode (TDict es)) = Some (TDict es) ->
  (exists bin, str_encode enc (json_encode (TDict es)) = inr bin
               /\ bytes_decode enc bin = inr (json_encode (TDict es))) ->
  exists s3,
    save false (with_heap h2 (with_self (set_string_key (Some S') (self s1)) s1))
    = (s3, inr tt)
    /\ forall (dflt : pyval) (h4 : Py.heap) (tr4 : list event) (create' : bool),
        let fresh k :=
          {| fs := fs s3; heap := h4; trace := tr4;
             self := init db dflt true (Some meta) (Some k) enc |} in
        (exists s5, load create' (fresh S') = (s5, inr tt)
                    /\ snapshot (heap s5) (_db (self s5)) = inr (TDict es)
                    /\ loaded (self s5) = true)
        /\ (exists s6 e, load create' (fresh S) = (s6, inl e)).
Proof.
  intros enc db Hcontract Henc HS Hmeta Hne Hload HSS' Hsnap Hwf Hrep
    (bin & Hbin & Hback).
  destruct (load_encrypted_ok_inv _ _ _ Henc Hload)
    as (c0 & meta0 & Hcfg & Hc0 & Hkey0 & Hmeta0 & Hdb1 & Hmd1 & Hnone1).
  destruct Hcfg as (Hcdb & _ & Hcenc & Hcmeta & Hckey & Hcte).
  assert (meta0 = meta) as -> by congruence.
  rewrite HS in Hkey0. fold enc in Hkey0.
  assert (Hv0 : check_string_key c0 (Some S) enc = inr tt).
  { destruct Hkey0 as [Hk | Hm]; [exact Hk|].
    exact (make_new_verifies enc Hcontract S c0 Hm). }
  pose proof (verify_unique enc Hcontract S S' c0 Hv0 HSS') as Hinv.
  destruct (make_new_total enc Hcontract S') as [c1 Hc1].
  pose proof (make_new_verifies enc Hcontract S' c1 Hc1) as Hv1.
  destruct (encrypt_total enc Hcontract S' c1 bin Hv1) as [ct Hct].
  pose proof (dump_total enc Hcontract S' c1 Hv1) as Hdump1.
  destruct (save_rotate_run
              (with_heap h2 (with_self (set_string_key (Some S') (self s1)) s1))
              c0 c1 (TDict es) bin ct meta)
    as (s3 & Hsave & Hfs3 & Hheap3 & Hself3); simpl;
    rewrite ?Hcenc, ?Hcmeta, ?Hcte, ?Hcdb; fold enc; try done.
  exists s3. split; [exact Hsave|].
  intros dflt h4 tr4 create'.
  set (fresh := fun k : string =>
         {| fs := fs s3; heap := h4; trace := tr4;
            self := init db dflt true (Some meta) (Some k) enc |}).
  change ((exists s5, load create' (fresh S') = (s5, inr tt)
                      /\ snapshot (heap s5) (_db (self s5)) = inr (TDict es)
                      /\ loaded (self s5) = true)
          /\ (exists s6 e, load create' (fresh S) = (s6, inl e))).
  simpl in Hfs3. rewrite Hcdb in Hfs3. fold db in Hfs3.
  assert (Hmd3 : fs s3 !! meta
                 = Some (File (list_byte_of_string (fst (interop_dump c1))))).
  { rewrite Hfs3. apply lookup_insert_eq. }
  assert (Hdb3 : fs s3 !! db = Some (File ct)).
  { rewrite Hfs3. rewrite lookup_insert_ne by done. apply lookup_insert_eq. }
  split.
  - destruct (load_dump enc Hcontract S' c1 Hv1) as (c2 & Hld & Hv2 & Hdec).
    destruct (encrypt_total enc Hcontract S' c2 bin Hv2) as [ct2 Hct2].
    pose proof (dump_total enc Hcontract S' c2 Hv2) as Hdump2.
    destruct (load_encrypted_run (fresh S') create' meta
                (list_byte_of_string (fst (interop_dump c1))) ct c2 bin
                (json_encode (TDict es)) (TDict es) bin ct2)
      as (s5 & Hs5 & Hh5 & Hdb5 & Hl5); subst fresh; simpl; try done.
    + by rewrite string_of_list_byte_of_string.
    + by apply Hdec.
    + by rewrite build_dict.
    + exists s5. split; [exact Hs5|]. split; [|done].
      simpl in Hh5, Hdb5. rewrite Hh5, Hdb5. by apply snapshot_build.
  - pose proof (wrong_secret enc Hcontract S' S c1 Hv1) as Hwrong.
    apply (load_wrong_secret (fresh S) create' meta
             (list_byte_of_string (fst (interop_dump c1))) ct);
      subst fresh; simpl; try done.
    rewrite string_of_list_byte_of_string.
    destruct (interop_load (fst (interop_dump c1)) (Some S) enc) as [e|c3];
      [done|].
    apply (Hwrong (not_eq_sym HSS') bin ct Hct).
Qed.

End Properties.

(** * The claims on the reference collaborators *)

Section Instances.

Import Reference Examples.

Lemma toy_unseal_seal (k : string) (b : list byte) :
  toy_unseal k (toy_seal k b) = Some b.
Proof.
  unfold toy_unseal, toy_seal.
  rewrite (app_assoc (list_byte_of_string k) [x00] (rev b)).
  rewrite take_app_length, drop_app_length, rev_involutive.
  by rewrite bool_decide_eq_true_2.
Qed.

(** The toy provider honours the contract, for every encoding. *)
Lemma toy_contract (enc : string) : CryptoContract (H := toy_crypto) enc.
Proof.
  split; simpl.
  - intros S. by eexists.
  - intros S c [= <-]. by rewrite String.eqb_refl.
  - intros S S' c Hc HS. destruct (String.eqb c S) eqn:E; [|done].
    apply String.eqb_eq in E as ->.
    destruct (String.eqb S S') eqn:E'; [|done].
    apply String.eqb_eq in E'. congruence.
  - intros S c b _. by eexists.
  - done.
  - intros S c Hc. rewrite Hc. simpl. exists c. split; [done|]. split; [done|].
    intros b ct [= <-]. by rewrite toy_unseal_seal.
  - intros S S' c Hc HS. destruct (String.eqb c S) eqn:E; [|done].
    apply String.eqb_eq in E as ->.
    destruct (String.eqb S S') eqn:E'; [|done].
    apply String.eqb_eq in E'. congruence.
Qed.

(** C5 at a store that was never loaded, on an empty disk. *)
Lemma load_refuses_missing_file_witness :
  path_exists (fs (empty_state plain_store))
    (db_file_name (self (empty_state plain_store))) = false
  /\ load false (empty_state plain_store)
     = (empty_state plain_store, inl (Exception "Database file doesn't exist")).
Proof.
  split; [reflexivity|].
  apply (load_refuses_missing_file (empty_state plain_store)). reflexivity.
Defined.

(** C10 at the store the constructor's defaults give. *)
Lemma load_default_none_fails_witness :
  default (self (empty_state plain_store)) = VNone
  /\ path_exists (fs (empty_state plain_store))
       (db_file_name (self (empty_state plain_store))) = false
  /\ load true (empty_state plain_store)
     = (loaded_without_mapping, inl (AssertionError not_loaded_message)).
Proof.
  split; [reflexivity|]. split; [reflexivity|].
  apply (load_default_none_fails (empty_state plain_store)); reflexivity.
Defined.

(** C6 as stated fails both ways: a store marked loaded whose mapping
    is [None] (what a creating load with the default [None] leaves)
    gets the assertion error, and a store not yet marked loaded that
    holds a mapping (the save inside an encrypted load) is saved. *)
Lemma save_guard_flag_counterexample :
  (loaded (self loaded_without_mapping) = true
   /\ save false loaded_without_mapping
      = (loaded_without_mapping, inl (AssertionError not_loaded_message)))
  /\ (loaded (self (encrypted_state "old")) = false
      /\ snd (save false (encrypted_state "old")) = inr tt).
Proof. vm_compute. repeat split. Qed.

(** C9 at a loaded plain store holding an empty dict. *)
Lemma plain_save_same_content_witness :
  encryption (self plain_loaded) = false
  /\ fs (fst (save true plain_loaded))
     = fs (fst (save false plain_loaded)).
Proof.
  split; [reflexivity|].
  apply (plain_save_same_content plain_loaded). reflexivity.
Defined.

(** C1 at an encrypted store whose metadata were made for ["old"] and
    whose secret is now ["new"]: the metadata are regenerated. *)
Lemma key_rotation_check_outcomes_witness :
  encryption (self (encrypted_state "new")) = true
  /\ is_None (_db (self (encrypted_state "new"))) = false
  /\ crypto_data (self (encrypted_state "new")) = Some ("old" : cryptodata)
  /\ crypto_data (self (fst (save false (encrypted_state "new"))))
     = Some ("new" : cryptodata).
Proof.
  split; [reflexivity|]. split; [reflexivity|]. split; [reflexivity|].
  exact (proj2 (key_rotation_check_outcomes (encrypted_state "new") "old"
                  eq_refl eq_refl eq_refl)).
Defined.

(** C3 at the same store. *)
Lemma encrypted_save_order_witness :
  encryption (self (encrypted_state "new")) = true
  /\ exists evs meta ct md,
      trace (fst (save false (encrypted_state "new")))
      = trace (encrypted_state "new") ++ evs
      /\ evs `prefix_of`
           encrypted_save_events false
             (false || key_changed (self (encrypted_state "new")))
             "db.bin" meta ct md.
Proof.
  split; [reflexivity|].
  destruct (encrypted_save_order (encrypted_state "new") false eq_refl)
    as (evs & meta & ct & md & Htr & Hpre & _).
  exists evs, meta, ct, md. split; [exact Htr | exact Hpre].
Defined.

(** C8 at [update (self = 1)] on a loaded store holding an empty
    dict: the proxy raises [TypeError] and the mapping is unchanged,
    where the method of the mapping stores the key. *)
Lemma proxy_rejects_keyword_self_witness :
  has_name "self" (map fst [("self", VAtom (AInt 1))]) = true
  /\ proxy_function_creator "update" [] [("self", VAtom (AInt 1))] plain_loaded
     = Some (plain_loaded, inl TypeError)
  /\ mapping_call (heap plain_loaded) 0 "update" [] [("self", VAtom (AInt 1))]
     = Some ([ODict [(AStr "self", VAtom (AInt 1))]], inr RNone).
Proof.
  split; [reflexivity|]. split; [|reflexivity].
  apply (proxy_rejects_keyword_self plain_loaded "update" []
           [("self", VAtom (AInt 1))]).
  reflexivity.
Defined.

(** X21 at a loaded store holding an empty dict, for [setdefault]. *)
Lemma proxies_forward_to_mapping_witness :
  has_name "setdefault" func_names = true
  /\ _db (self plain_loaded) = VRef 0
  /\ heap plain_loaded !! (0 : loc) = Some (ODict [])
  /\ exists h' r,
      mapping_call (heap plain_loaded) 0 "setdefault"
        [VStr "k"; VAtom (AInt 3)] [] = Some (h', r)
      /\ proxy_function_creator "setdefault" [VStr "k"; VAtom (AInt 3)] []
           plain_loaded
         = Some ({| fs := fs plain_loaded; heap := h';
                    trace := trace plain_loaded;
                    self := self plain_loaded |}, r).
Proof.
  split; [reflexivity|]. split; [reflexivity|]. split; [reflexivity|].
  destruct (proxies_forward_to_mapping plain_loaded 0 []
              "setdefault" [VStr "k"; VAtom (AInt 3)] []
              eq_refl (fun _ => eq_refl) eq_refl eq_refl)
    as (h' & r & Hcall & _ & Hproxy & _).
  exists h', r. split; [exact Hcall | exact Hproxy].
Defined.

(** C7 at a plain store holding a nested mapping, read back by a new
    store object on an empty heap. *)
Lemma plain_save_load_roundtrip_witness :
  encryption (self nested_state) = false
  /\ snapshot (heap nested_state) (_db (self nested_state)) = inr nested_mapping
  /\ wf_tree nested_mapping = true
  /\ json_decode (json_encode nested_mapping) = Some nested_mapping
  /\ exists s1 s2,
      save false nested_state = (s1, inr tt)
      /\ load true {| fs := fs s1; heap := []; trace := [];
                      self := init_default "db.json" |}
         = (s2, inr tt)
      /\ snapshot (heap s2) (_db (self s2)) = inr nested_mapping
      /\ loaded (self s2) = true.
Proof.
  split; [reflexivity|]. split; [vm_compute; reflexivity|].
  split; [reflexivity|]. split; [vm_compute; reflexivity|].
  destruct (plain_save_load_roundtrip nested_state
              [(AStr "a", TAtom (AInt 1));
               (AStr "b", TList [TAtom (ABool true); TAtom ANone])]
              false true) as (s1 & Hsave & Hload).
  - reflexivity.
  - vm_compute; reflexivity.
  - reflexivity.
  - vm_compute; reflexivity.
  - vm_compute. discriminate.
  - destruct (Hload (init_default "db.json") [] [] eq_refl eq_refl)
      as (s2 & Hs2 & Hsnap & Hl).
    exists s1, s2. repeat split; assumption.
Defined.

(** C4 at an encrypted store whose default is an empty dict. *)
Lemma load_creates_from_default_witness :
  default (self (fresh_encrypted "k")) = VRef 0
  /\ heap (fresh_encrypted "k") !! (0 : loc) = Some (ODict [])
  /\ path_exists (fs (fresh_encrypted "k")) "db.bin" = false
  /\ exists s',
      load true (fresh_encrypted "k") = (s', inr tt)
      /\ loaded (self s') = true
      /\ _db (self s') = VRef 1
      /\ path_isfile (fs s') "db.bin" = true
      /\ path_isfile (fs s') "db.cryptodata" = true.
Proof.
  split; [reflexivity|]. split; [reflexivity|]. split; [reflexivity|].
  destruct (load_creates_from_default (fresh_encrypted "k") 0
              eq_refl eq_refl eq_refl)
    as (s' & Hload & Hloaded & Hdb & _ & _ & _ & Hfile & meta & Hmeta & Hmfile).
  - exists "db.cryptodata", ("k" : @cryptodata toy_crypto),
      (toy_seal "k" (list_byte_of_string "{}")).
    split; [reflexivity|]. split; [vm_compute; discriminate|].
    split; [reflexivity|]. split; [|reflexivity].
    exists (list_byte_of_string "{}"). split; reflexivity.
  - exists s'. split; [exact Hload|]. split; [exact Hloaded|].
    split; [exact Hdb|]. split; [exact Hfile|].
    injection Hmeta as <-. exact Hmfile.
Defined.

(** C2 at a store created with the secret ["k"], whose mapping
    receives a key before the secret becomes ["k2"]. *)
Lemma key_rotation_roundtrip_witness :
  CryptoContract "utf-8"
  /\ load true (fresh_encrypted "k") = (fst (load true (fresh_encrypted "k")), inr tt)
  /\ snapshot edited_heap (_db (self (fst (load true (fresh_encrypted "k")))))
     = inr (TDict [(AStr "a", TAtom (AInt 1))])
  /\ exists s3,
      save false
        (with_heap edited_heap
           (with_self
              (set_string_key (Some "k2")
                 (self (fst (load true (fresh_encrypted "k")))))
              (fst (load true (fresh_encrypted "k")))))
      = (s3, inr tt)
      /\ (exists s5,
            load true
              {| fs := fs s3; heap := []; trace := [];
                 self := init "db.bin" VNone true (Some "db.cryptodata")
                           (Some "k2") "utf-8" |}
            = (s5, inr tt)
            /\ snapshot (heap s5) (_db (self s5))
               = inr (TDict [(AStr "a", TAtom (AInt 1))]))
      /\ (exists s6 e,
            load true
              {| fs := fs s3; heap := []; trace := [];
                 self := init "db.bin" VNone true (Some "db.cryptodata")
                           (Some "k") "utf-8" |}
            = (s6, inl e)).
Proof.
  split; [apply toy_contract|]. split; [vm_compute; reflexivity|].
  split; [vm_compute; reflexivity|].
  destruct (key_rotation_roundtrip (fresh_encrypted "k")
              (fst (load true (fresh_encrypted "k")))
              "k" "k2" "db.cryptodata" [(AStr "a", TAtom (AInt 1))]
              edited_heap true)
    as (s3 & Hsave & Hfresh).
  - apply toy_contract.
  - reflexivity.
  - reflexivity.
  - reflexivity.
  - vm_compute. discriminate.
  - vm_compute; reflexivity.
  - vm_compute. discriminate.
  - vm_compute; reflexivity.
  - reflexivity.
  - vm_compute; reflexivity.
  - eexists. split; vm_compute; reflexivity.
  - exists s3. split; [exact Hsave|].
    destruct (Hfresh VNone [] [] true) as [(s5 & H5 & Hs5 & _) Hfail].
    split; [by exists s5 | exact Hfail].
Defined.

(** C2 as stated fails at the mapping [{1: "x"}]: the text format
    writes the key as a string, so the new store object, which loads
    with the new secret, holds [{"1": "x"}] and not the mapping that
    was saved. *)
Lemma key_rotation_int_key_counterexample :
  CryptoContract "utf-8"
  /\ load true (fresh_encrypted "k")
     = (fst (load true (fresh_encrypted "k")), inr tt)
  /\ snapshot [ODict []; ODict [(AInt 1, VStr "x")]]
       (_db (self (fst (load true (fresh_encrypted "k")))))
     = inr (TDict [(AInt 1, TAtom (AStr "x"))])
  /\ exists s3 s5,
      save false
        (with_heap [ODict []; ODict [(AInt 1, VStr "x")]]
           (with_self
              (set_string_key (Some "k2")
                 (self (fst (load true (fresh_encrypted "k")))))
              (fst (load true (fresh_encrypted "k")))))
      = (s3, inr tt)
      /\ load true
           {| fs := fs s3; heap := []; trace := [];
              self := init "db.bin" VNone true (Some "db.cryptodata")
                        (Some "k2") "utf-8" |}
         = (s5, inr tt)
      /\ snapshot (heap s5) (_db (self s5))
         = inr (TDict [(AStr "1", TAtom (AStr "x"))])
      /\ snapshot (heap s5) (_db (self s5))
         <> inr (TDict [(AInt 1, TAtom (AStr "x"))]).
Proof.
  split; [apply toy_contract|]. split; [vm_compute; reflexivity|].
  split; [vm_compute; reflexivity|].
  eexists _, _. split; [vm_compute; reflexivity|].
  split; [vm_compute; reflexivity|].
  split; [vm_compute; reflexivity|].
  vm_compute. discriminate.
Qed.

End Instances.

(** * The model at work *)

Section Runs.

Import Reference Examples.

(** [True] and [1] are the same key, and the first key object stays. *)
Example bool_and_int_keys :
  dict_set (ABool true) (VStr "b") [(AInt 1, VStr "a")] = [(AInt 1, VStr "b")]
  /\ dict_lookup (ABool true) [(AInt 1, VStr "a")] = Some (VStr "a").
Proof. split; reflexivity. Qed.

(** [d.update (["ab", "c"])] stores ['a': 'b'], then raises
    [ValueError]. *)
Example update_stops_at_short_element :
  dict_update [ODict []; OList [VStr "ab"; VStr "c"]] 0 [VRef 1] []
  = ([ODict [(AStr "a", VStr "b")]; OList [VStr "ab"; VStr "c"]],
     inl ValueError).
Proof. reflexivity. Qed.

(** [popitem] on an empty dict, and a proxied call on a store whose
    mapping is [None]. *)
Example popitem_empty :
  dict_popitem [ODict []] 0 [] []
  = ([ODict []], inl (KeyError (AStr "popitem(): dictionary is empty"))).
Proof. reflexivity. Qed.

Example proxy_keyword_self :
  proxy_function_creator "get" [VStr "a"] [("self", VNone)] plain_loaded
  = Some (plain_loaded, inl TypeError).
Proof. reflexivity. Qed.

Example proxy_on_none :
  proxy_function_creator "get" [VStr "a"] [] loaded_without_mapping
  = Some (loaded_without_mapping, inl (AttributeError "get")).
Proof. reflexivity. Qed.

(** A deep copy keeps sharing and cycles and touches no old object. *)
Example deepcopy_cycle :
  deepcopy 2 [OList [VRef 0; VRef 1]; ODict [(AStr "x", VRef 0)]] (VRef 0)
  = inr ([OList [VRef 0; VRef 1]; ODict [(AStr "x", VRef 0)];
          OList [VRef 2; VRef 3]; ODict [(AStr "x", VRef 2)]],
         VRef 2).
Proof. reflexivity. Qed.

(** A list nested one level deeper than the interpreter allows. *)
Example deepcopy_too_deep :
  deepcopy 1 [OList []; OList [VRef 0]] (VRef 1) = inl RecursionError.
Proof. reflexivity. Qed.

Example snapshot_cycle :
  snapshot [OList [VRef 0]] (VRef 0) = inl ValueError.
Proof. reflexivity. Qed.

(** The text of a nested list, and its reading. *)
Example json_text :
  json_encode (TList [TAtom (AInt 1); TList [TAtom (ABool true); TAtom ANone]])
  = "[1, [true, null]]"
  /\ json_decode " [ 1,[true , null], -42 ] "
     = Some (TList [TAtom (AInt 1); TList [TAtom (ABool true); TAtom ANone];
                    TAtom (AInt (-42))])
  /\ json_decode (json_encode nested_mapping) = Some nested_mapping
  /\ json_decode "[1, 2.5]" = None.
Proof. repeat split; vm_compute; reflexivity. Qed.

(** The modes of [save]: both create or truncate. *)
Example modes_of_save :
  mode_for "w" true = "w+" /\ mode_for "wb" false = "wb"
  /\ res_map fst (open_file {["f" := File [x61]]} "f" "w+")
     = inr {["f" := File []]}
  /\ res_map fst (open_file {["f" := File [x61]]} "f" "x")
     = inl (FileExistsError "f").
Proof. repeat split; vm_compute; reflexivity. Qed.

(** A changed secret: the trace of the save, and its outcome. *)
Example rotation_run :
  trace (fst (save false (encrypted_state "new")))
  = encrypted_save_events false true "db.bin" "db.cryptodata"
      (toy_seal "new"
         (list_byte_of_string
            (json_encode (TDict [(AStr "a", TAtom (AInt 1))]))))
      (list_byte_of_string "new")
  /\ snd (save false (encrypted_state "new")) = inr tt.
Proof. split; vm_compute; reflexivity. Qed.

End Runs.

(** * Further properties of the backend *)

Section Coverage.

Context {crypto : CryptoProvider} {text : TextFormat}
        {interp : Interpreter}.

Implicit Types (s : state) (o : JSONDatabaseBackend).

Arguments open_file : simpl never.
Arguments write_file : simpl never.
Arguments read_file : simpl never.
Arguments snapshot : simpl never.
Arguments deepcopy : simpl never.
Arguments build : simpl never.
Arguments mode_for : simpl never.
Arguments write_encrypted : simpl never.
Arguments write_plain : simpl never.
Arguments save : simpl never.

(** Unfolding of every statement but [save]. *)
Ltac unfold_load :=
  unfold load, crypto_load, json_load, json_loads, copy_deepcopy, read_text,
    read_bytes, open, os_path_exists, os_path_isfile, crypto_call,
    get_crypto_data, assign, get_self, when, lift, modify, get, bind, raise,
    ret in *.

Ltac unfold_save :=
  unfold save, save_body, rotation_check, regenerate, crypto_call,
    get_crypto_data, assign, get_self, assert, when, try_except, lift,
    modify, get, bind, raise, ret in *.

(** Case analysis on an innermost scrutinee of a hypothesis. *)
Ltac case_in H :=
  match type of H with
  | context [match ?x with _ => _ end] =>
      lazymatch x with
      | context [match _ with _ => _ end] => fail
      | _ => destruct x eqn:?
      end
  end.

(** ** A store that was never loaded *)

Lemma call_attr_none (h : Py.heap) (name : string) (args : list pyval)
    (kwargs : list (string * pyval)) :
  has_name name func_names = true ->
  call_attr h VNone name args kwargs = Some (h, inl (AttributeError name)).
Proof. intros Hn. unfold call_attr. by rewrite Hn. Qed.

(** A proxied call on a store whose mapping is [None]. *)
Lemma proxy_without_mapping s (name : string) (args : list pyval)
    (kwargs : list (string * pyval)) :
  _db (self s) = VNone ->
  has_name name func_names = true ->
  proxy_function_creator name args kwargs s
  = Some (s, inl (if has_name "self" (map fst kwargs) then TypeError
                  else AttributeError name)).
Proof.
  intros Hdb Hn. unfold proxy_function_creator.
  destruct (has_name "self" (map fst kwargs)); [done|].
  rewrite Hdb, call_attr_none by done. by destruct s.
Qed.

(** X1: the object [__init__] builds is not loaded, whatever its
    arguments: [save] raises the "needs to be loaded first" assertion
    and each proxied operation raises an error ([TypeError] when a
    keyword argument is named [self], [AttributeError] otherwise, for
    [None] has no such attribute), and neither changes anything. *)
Theorem new_store_is_not_usable (db : string) (dflt : pyval) (encr : bool)
    (meta key : option string) (enc : string) (f : filesystem) (h : Py.heap)
    (tr : list event) (name : string) (args : list pyval)
    (kwargs : list (string * pyval)) (_new : bool) :
  has_name name func_names = true ->
  let s := {| fs := f; heap := h; trace := tr;
              self := init db dflt encr meta key enc |} in
  loaded (self s) = false
  /\ save _new s = (s, inl (AssertionError not_loaded_message))
  /\ proxy_function_creator name args kwargs s
     = Some (s, inl (if has_name "self" (map fst kwargs) then TypeError
                     else AttributeError name)).
Proof.
  intros Hn s. split; [reflexivity|]. split; [reflexivity|].
  by apply proxy_without_mapping.
Qed.

Lemma load_refuses_directory_aux s (create : bool) :
  fs s !! db_file_name (self s) = Some Dir ->
  load create s = (s, inl (Exception "Database file isn't a file")).
Proof.
  intros Hdir.
  assert (Hex : path_exists (fs s) (db_file_name (self s)) = true).
  { unfold path_exists. rewrite Hdir. apply bool_decide_eq_true_2. by eexists. }
  assert (Hisf : path_isfile (fs s) (db_file_name (self s)) = false).
  { unfold path_isfile. by rewrite Hdir. }
  unfold_load. simpl. rewrite Hex. simpl. by rewrite Hisf.
Qed.

(** X2: when the data path is a directory, [load] raises the "isn't a
    file" exception, with either value of [create_if_nonexistent], and
    changes nothing. *)
Theorem load_refuses_directory s (create : bool) :
  fs s !! db_file_name (self s) = Some Dir ->
  load create s = (s, inl (Exception "Database file isn't a file")).
Proof. apply load_refuses_directory_aux. Qed.

(** What [load] does on a plain store whose data file is there. *)
Lemma load_plain_file s (create : bool) (c : list byte) :
  encryption (self s) = false ->
  fs s !! db_file_name (self s) = Some (File c) ->
  load create s
  = match json_decode (string_of_list_byte c) with
    | Some t =>
        ({| fs := fs s;
            heap := fst (build (heap s) t);
            trace := trace s ++ [EvOpen (db_file_name (self s)) "r";
                                 EvRead (db_file_name (self s))];
            self := set_loaded true (set__db (snd (build (heap s) t)) (self s)) |},
         inr tt)
    | None =>
        ({| fs := fs s; heap := heap s;
            trace := trace s ++ [EvOpen (db_file_name (self s)) "r";
                                 EvRead (db_file_name (self s))];
            self := self s |},
         inl JSONDecodeError)
    end.
Proof.
  intros Henc Hfile.
  destruct (path_exists_file _ _ _ Hfile) as [Hex Hisf].
  destruct (open_file_read _ _ _ Hfile) as [Hopen _].
  destruct s as [f h tr o]. simpl in *.
  unfold_load. simpl. rewrite Hex. simpl. rewrite Hisf. simpl.
  rewrite Henc. simpl. rewrite Hopen. simpl.
  erewrite read_file_handle by done. simpl.
  destruct (json_decode (string_of_list_byte c)); simpl;
    unfold with_self, with_heap, with_fs, log; simpl;
    by rewrite <- app_assoc.
Qed.

(** X3: a plain [load] of a path that exists never changes the disk;
    when the text of the file is not JSON it raises [JSONDecodeError]
    and the store object and the heap are what they were, so a store
    loaded before keeps its mapping and its flag. *)
Theorem plain_load_reads_only s (create : bool) :
  encryption (self s) = false ->
  path_exists (fs s) (db_file_name (self s)) = true ->
  fs (fst (load create s)) = fs s
  /\ forall c,
      fs s !! db_file_name (self s) = Some (File c) ->
      json_decode (string_of_list_byte c) = None ->
      snd (load create s) = inl JSONDecodeError
      /\ self (fst (load create s)) = self s
      /\ heap (fst (load create s)) = heap s.
Proof.
  intros Henc Hex.
  destruct (fs s !! db_file_name (self s)) as [[c|]|] eqn:Hp.
  - rewrite (load_plain_file s create c) by done.
    split; [by destruct (json_decode (string_of_list_byte c))|].
    intros c' [= <-] Hbad. by rewrite Hbad.
  - rewrite load_refuses_directory_aux by done. split; [done|]. intros c' [=].
  - unfold path_exists in Hex. rewrite Hp in Hex.
    apply bool_decide_eq_true in Hex as [? [=]].
Qed.

(** X4: [load] does not ask for a mapping.  On a plain store whose
    file holds the JSON text [null], it returns and marks the store
    loaded with [None] for mapping: after that [save] raises the
    "needs to be loaded first" assertion and each proxied operation
    raises an error ([TypeError] when a keyword argument is named
    [self], [AttributeError] otherwise). *)
Theorem load_of_null_file s (create : bool) (c : list byte) :
  encryption (self s) = false ->
  fs s !! db_file_name (self s) = Some (File c) ->
  json_decode (string_of_list_byte c) = Some (TAtom ANone) ->
  exists s',
    load create s = (s', inr tt)
    /\ loaded (self s') = true
    /\ _db (self s') = VNone
    /\ fs s' = fs s
    /\ (forall n, save n s' = (s', inl (AssertionError not_loaded_message)))
    /\ (forall name args kwargs,
          has_name name func_names = true ->
          proxy_function_creator name args kwargs s'
          = Some (s', inl (if has_name "self" (map fst kwargs)
                           then TypeError else AttributeError name))).
Proof.
  intros Henc Hfile Hnull.
  rewrite (load_plain_file s create c) by done. rewrite Hnull.
  eexists. split; [reflexivity|]. simpl.
  split; [done|]. split; [done|]. split; [done|]. split.
  - intros n. reflexivity.
  - intros name args kwargs Hn. by apply proxy_without_mapping.
Qed.

(** ** Plain saves *)

Lemma plain_save_run s (n : bool) :
  encryption (self s) = false ->
  save n s
  = if is_None (_db (self s))
    then (s, inl (AssertionError not_loaded_message))
    else write_plain (self s) n s.
Proof.
  intros Henc.
  unfold save, save_body, bind, get_self, assert, when, ret, raise.
  rewrite Henc. simpl. by destruct (is_None (_db (self s))).
Qed.

(** X5: a plain [save], whatever its outcome, leaves the heap and the
    store object as they were and changes no path of the disk but the
    data path; when the data path is a directory it raises
    [IsADirectoryError] (after the guard) and the disk is unchanged. *)
Theorem plain_save_frame s (n : bool) :
  encryption (self s) = false ->
  heap (fst (save n s)) = heap s
  /\ self (fst (save n s)) = self s
  /\ (forall p, p <> db_file_name (self s) ->
                fs (fst (save n s)) !! p = fs s !! p)
  /\ (fs s !! db_file_name (self s) = Some Dir ->
      fs (fst (save n s)) = fs s
      /\ (is_None (_db (self s)) = false ->
          snd (save n s) = inl (IsADirectoryError (db_file_name (self s))))).
Proof.
  intros Henc. rewrite plain_save_run by done. rewrite write_plain_run.
  destruct (is_None (_db (self s))); simpl.
  { repeat split; done. }
  destruct (fs s !! db_file_name (self s)) as [[c|]|] eqn:Hp; simpl.
  - repeat split; try done. intros p Hne. by rewrite lookup_insert_ne.
  - repeat split; done.
  - repeat split; try done. intros p Hne. by rewrite lookup_insert_ne.
Qed.

(** X6: after a plain [save] that returned, a second [save] (with
    either flag) returns too and leaves the disk, the heap and the store
    exactly as the first one left them. *)
Theorem plain_save_twice s s1 (n n' : bool) :
  encryption (self s) = false ->
  save n s = (s1, inr tt) ->
  exists s2,
    save n' s1 = (s2, inr tt)
    /\ fs s2 = fs s1 /\ heap s2 = heap s1 /\ self s2 = self s1.
Proof.
  intros Henc Hsave. rewrite plain_save_run in Hsave by done.
  destruct (is_None (_db (self s))) eqn:Hnone; [done|].
  rewrite write_plain_run in Hsave. simpl in Hsave.
  destruct (snapshot (heap s) (_db (self s))) as [e|t] eqn:Hsnap.
  { by destruct (fs s !! db_file_name (self s)) as [[|]|]. }
  assert (s1 = {| fs := <[db_file_name (self s)
                    := File (list_byte_of_string
                               (dumped_text (heap s) (_db (self s))))]> (fs s);
                  heap := heap s;
                  trace := trace s ++ [EvOpen (db_file_name (self s)) (mode_for "w" n);
                                       EvWrite (db_file_name (self s))
                                         (list_byte_of_string
                                            (dumped_text (heap s) (_db (self s))))];
                  self := self s |}) as ->.
  { destruct (fs s !! db_file_name (self s)) as [[|]|]; by simplify_eq. }
  rewrite plain_save_run by done. simpl. rewrite Hnone.
  rewrite write_plain_run. simpl. rewrite lookup_insert_eq, Hsnap.
  eexists. split; [reflexivity|]. simpl.
  by rewrite insert_insert_eq.
Qed.

(** X7: a plain [save] opens the data file before it encodes the
    mapping.  When the mapping cannot be encoded (a cycle), [save]
    raises the encoder's error and the data file, whatever it held, now
    holds only the text written before the error. *)
Theorem plain_save_failure_truncates s (n : bool) (e : exn) (c : list byte) :
  encryption (self s) = false ->
  is_None (_db (self s)) = false ->
  snapshot (heap s) (_db (self s)) = inl e ->
  fs s !! db_file_name (self s) = Some (File c) ->
  snd (save n s) = inl e
  /\ fs (fst (save n s)) !! db_file_name (self s)
     = Some (File (list_byte_of_string
                     (json_partial (heap s) (_db (self s))))).
Proof.
  intros Henc Hnone Hsnap Hfile.
  rewrite plain_save_run by done. rewrite Hnone, write_plain_run. simpl.
  rewrite Hfile. unfold dumped_text. rewrite Hsnap. simpl.
  split; [done|]. apply lookup_insert_eq.
Qed.

(** ** Encrypted saves *)

Lemma keeps_refl o : keeps o o.
Proof. repeat split. Qed.

Lemma keeps_set_crypto_data o c : keeps o (set_crypto_data c o).
Proof. repeat split. Qed.

Lemma open_file_frame (f f' : filesystem) (p mode : string) (hd : handle) :
  open_file f p mode = inr (f', hd) ->
  forall q, q <> p -> f' !! q = f !! q.
Proof.
  unfold open_file. intros H q Hq.
  repeat (case_in H; simplify_eq); try done; by rewrite lookup_insert_ne.
Qed.

Lemma write_file_frame (f f' : filesystem) (hd : handle) (data : list byte) :
  write_file f hd data = inr f' ->
  forall q, q <> h_path hd -> f' !! q = f !! q.
Proof.
  unfold write_file. intros H q Hq.
  repeat (case_in H; simplify_eq); by rewrite lookup_insert_ne.
Qed.

(** The encrypted branch writes to the data path and to the metadata
    path only. *)
Lemma write_encrypted_frame o (n : bool) s s' r :
  write_encrypted o n s = (s', r) ->
  forall p, p <> db_file_name o -> crypto_data_file_name o <> Some p ->
            fs s' !! p = fs s !! p.
Proof.
  destruct s as [f h tr o']. 
  unfold write_encrypted, crypto_dump, json_dumps, write_text, write_bytes,
    open, crypto_call, get_crypto_data, get_self, lift, modify, get, bind,
    raise, ret.
  simpl. intros H p Hdb Hmeta.
  repeat (case_in H; simpl in *; simplify_eq); try done.
  all: repeat match goal with
         | Ho : open_file _ _ _ = inr (?a, ?b) |- _ =>
             pose proof (open_file_frame _ _ _ _ _ Ho p) as ?;
             apply open_file_path in Ho; simpl in Ho
         | Ho : open_file _ _ _ = inr ?x |- _ => destruct x
         | Hw : write_file _ _ _ = inr _ |- _ =>
             pose proof (write_file_frame _ _ _ _ Hw p) as ?; clear Hw
         end.
  all: simpl in *; subst.
  all: repeat match goal with
         | Hf : ?q <> ?p' -> _ = _ |- _ =>
             rewrite Hf by congruence; clear Hf
         end.
  all: done.
Qed.

(** The encrypted branch stops before it opens a file when the mapping
    cannot be encoded. *)
Lemma write_encrypted_unencodable o (n : bool) s (e : exn) :
  snapshot (heap s) (_db o) = inl e ->
  write_encrypted o n s = (s, inl e).
Proof.
  intros Hsnap.
  unfold write_encrypted, json_dumps, lift, get, bind, raise, ret.
  simpl. by rewrite Hsnap.
Qed.

(** An encrypted [save] past its guard: either the key check or the
    regeneration raises, or the encrypted branch runs; up to there
    nothing but the trace and the metadata in memory has changed. *)
Lemma save_encrypted_split s (n : bool) :
  encryption (self s) = true ->
  is_None (_db (self s)) = false ->
  (exists s1 e,
      save n s = (s1, inl e)
      /\ fs s1 = fs s /\ heap s1 = heap s /\ keeps (self s) (self s1))
  \/ (exists s1 pre,
         save n s = write_encrypted (self s) n s1
         /\ fs s1 = fs s /\ heap s1 = heap s /\ keeps (self s) (self s1)
         /\ trace s1 = trace s ++ pre).
Proof.
  intros Henc Hnone. destruct s as [f h tr o]. simpl in *.
  unfold_save. simpl. rewrite Henc, Hnone. simpl.
  destruct n; simpl.
  - destruct (make_new (string_key o) (encryption_text_encoding o))
      as [e|c]; simpl.
    + left. eexists _, _. split; [reflexivity|]. simpl.
      auto using keeps_refl.
    + right. eexists _, _. split; [reflexivity|]. simpl.
      auto using keeps_set_crypto_data.
  - destruct (crypto_data o) as [c|]; simpl.
    2:{ left. eexists _, _. split; [reflexivity|]. simpl.
        auto using keeps_refl. }
    destruct (check_string_key c (string_key o) (encryption_text_encoding o))
      as [e|[]]; simpl.
    + destruct (is_InvalidKeyError e); simpl.
      * destruct (make_new (string_key o) (encryption_text_encoding o))
          as [e'|c']; simpl.
        -- left. eexists _, _. split; [reflexivity|]. simpl.
           auto using keeps_refl.
        -- right. eexists _, _. split; [reflexivity|]. simpl.
           split; [done|]. split; [done|].
           split; [apply keeps_set_crypto_data|].
           by rewrite <- app_assoc.
      * left. eexists _, _. split; [reflexivity|]. simpl.
        auto using keeps_refl.
    + right. eexists _, _. split; [reflexivity|]. simpl.
      auto using keeps_refl.
Qed.

Lemma keeps_trans o1 o2 o3 : keeps o1 o2 -> keeps o2 o3 -> keeps o1 o3.
Proof.
  intros ((?&?&?&?&?&?)&?&?) ((?&?&?&?&?&?)&?&?).
  repeat split; congruence.
Qed.

(** X8: an encrypted [save], whatever its outcome, leaves the heap as
    it was, changes no attribute of the store but the metadata in
    memory, and changes no path of the disk but the data path and the
    metadata path. *)
Theorem encrypted_save_frame s (n : bool) :
  encryption (self s) = true ->
  heap (fst (save n s)) = heap s
  /\ keeps (self s) (self (fst (save n s)))
  /\ (forall p, p <> db_file_name (self s) ->
                crypto_data_file_name (self s) <> Some p ->
                fs (fst (save n s)) !! p = fs s !! p).
Proof.
  intros Henc.
  destruct (is_None (_db (self s))) eqn:Hnone.
  { assert (Hs : save n s = (s, inl (AssertionError not_loaded_message))).
    { unfold save, bind, get_self, assert, raise. by rewrite Hnone. }
    rewrite Hs. simpl. auto using keeps_refl. }
  destruct (save_encrypted_split s n Henc Hnone)
    as [(s1 & e & -> & Hfs & Hh & Hk) | (s1 & pre & -> & Hfs & Hh & Hk & _)].
  { simpl. rewrite Hfs, Hh. auto. }
  destruct (write_encrypted (self s) n s1) as [s' r] eqn:Hw. simpl.
  destruct (write_encrypted_trace _ _ _ _ _ Hw) as (Hself & Hheap & _).
  rewrite Hself, Hheap, Hh. split; [done|]. split; [done|].
  intros p Hdb Hmeta. rewrite <- Hfs.
  by apply (write_encrypted_frame _ _ _ _ _ Hw).
Qed.

(** X9: an encrypted [save] encodes and encrypts before it opens a
    file: when the mapping cannot be encoded, [save] raises and the
    disk is exactly what it was. *)
Theorem encrypted_save_failure_keeps_disk s (n : bool) (e : exn) :
  encryption (self s) = true ->
  is_None (_db (self s)) = false ->
  snapshot (heap s) (_db (self s)) = inl e ->
  fs (fst (save n s)) = fs s
  /\ exists e', snd (save n s) = inl e'.
Proof.
  intros Henc Hnone Hsnap.
  destruct (save_encrypted_split s n Henc Hnone)
    as [(s1 & e1 & -> & Hfs & Hh & Hk) | (s1 & pre & -> & Hfs & Hh & Hk & _)].
  { simpl. split; [done | by eexists]. }
  rewrite (write_encrypted_unencodable _ _ _ e) by (by rewrite Hh).
  simpl. split; [done | by eexists].
Qed.

(** X10: after an encrypted [save] that returned, the metadata file
    holds the dump of the metadata now in memory, and the data file
    holds the mapping's encoded text encrypted with them.  When the two
    paths are the same path, what is left in it is the dump alone. *)
Theorem encrypted_save_leaves_matching_files s s' (n : bool) :
  encryption (self s) = true ->
  save n s = (s', inr tt) ->
  exists c t bin ct meta,
    crypto_data_file_name (self s) = Some meta
    /\ crypto_data (self s') = Some c
    /\ snapshot (heap s) (_db (self s)) = inr t
    /\ str_encode (encryption_text_encoding (self s)) (json_encode t) = inr bin
    /\ encrypt c bin = inr ct
    /\ fs s' !! meta = Some (File (list_byte_of_string (fst (interop_dump c))))
    /\ (meta <> db_file_name (self s) ->
        fs s' !! db_file_name (self s) = Some (File ct)).
Proof.
  intros Henc Hsave.
  destruct (is_None (_db (self s))) eqn:Hnone.
  { unfold save, bind, get_self, assert, raise in Hsave.
    rewrite Hnone in Hsave. done. }
  destruct (save_encrypted_split s n Henc Hnone)
    as [(s1 & e1 & Hs & _) | (s1 & pre & Hs & Hfs & Hh & Hk & _)].
  { rewrite Hs in Hsave. done. }
  rewrite Hs in Hsave.
  apply write_encrypted_ok_inv in Hsave
    as (t & bin & c & ct & meta & Hsnap & Hbin & Hc & Hct & Hmeta & _ & ->).
  exists c, t, bin, ct, meta. simpl. rewrite <- Hh.
  repeat split; try done.
  - apply lookup_insert_eq.
  - intros Hne. rewrite lookup_insert_ne by done. apply lookup_insert_eq.
Qed.

(** ** Encrypted loads *)

(** An encrypted [save] that returned, in full. *)
Lemma save_encrypted_ok_run s s' (n : bool) :
  encryption (self s) = true ->
  save n s = (s', inr tt) ->
  exists pre c t bin ct meta,
    crypto_data_file_name (self s) = Some meta
    /\ crypto_data (self s') = Some c
    /\ snapshot (heap s) (_db (self s)) = inr t
    /\ str_encode (encryption_text_encoding (self s)) (json_encode t) = inr bin
    /\ encrypt c bin = inr ct
    /\ fs s' = <[meta := File (list_byte_of_string (fst (interop_dump c)))]>
                 (<[db_file_name (self s) := File ct]> (fs s))
    /\ heap s' = heap s
    /\ keeps (self s) (self s')
    /\ trace s' = trace s ++ pre
                  ++ write_events n (db_file_name (self s)) meta ct
                       (list_byte_of_string (fst (interop_dump c))).
Proof.
  intros Henc Hsave.
  destruct (is_None (_db (self s))) eqn:Hnone.
  { unfold save, bind, get_self, assert, raise in Hsave.
    rewrite Hnone in Hsave. done. }
  destruct (save_encrypted_split s n Henc Hnone)
    as [(s1 & e1 & Hs & _) | (s1 & pre & Hs & Hfs & Hh & Hk & Htr)].
  { rewrite Hs in Hsave. done. }
  rewrite Hs in Hsave.
  apply write_encrypted_ok_inv in Hsave
    as (t & bin & c & ct & meta & Hsnap & Hbin & Hc & Hct & Hmeta & _ & ->).
  exists pre, c, t, bin, ct, meta. simpl.
  rewrite <- Hh, <- Hfs, Htr, <- app_assoc. repeat split; try done.
  all: destruct Hk as ((?&?&?&?&?&?)&?&?); done.
Qed.

(** Opening to read changes nothing on the disk. *)
Lemma open_file_read_inv (f f' : filesystem) (p : string) (hd : handle) :
  open_file f p "r" = inr (f', hd) \/ open_file f p "rb" = inr (f', hd) ->
  f' = f.
Proof.
  unfold open_file.
  intros [H|H]; vm_compute parse_mode in H;
    destruct (f !! p) as [[]|]; simpl in H; congruence.
Qed.

(** An encrypted [load] that returned has ended with a [save] that
    returned: [save (_new = True)] when the data file was missing,
    [save ()] when it was there. *)
Lemma load_encrypted_ends_with_save s s' (create : bool) :
  encryption (self s) = true ->
  load create s = (s', inr tt) ->
  exists s1 s2 pre,
    trace s1 = trace s ++ pre
    /\ fs s1 = fs s
    /\ same_config (self s) (self s1)
    /\ save (negb (path_exists (fs s) (db_file_name (self s)))) s1 = (s2, inr tt)
    /\ fs s' = fs s2 /\ heap s' = heap s2 /\ trace s' = trace s2
    /\ same_config (self s2) (self s')
    /\ _db (self s') = _db (self s2)
    /\ crypto_data (self s') = crypto_data (self s2)
    /\ loaded (self s') = true.
Proof.
  intros Henc Hload.
  destruct s as [f h tr o]. simpl in *.
  unfold_load. simpl in Hload. rewrite Henc in Hload. simpl in Hload.
  repeat (case_in Hload; simpl in *; simplify_eq).
  all: repeat match goal with u : unit |- _ => destruct u end.
  all: repeat match goal with
         | Ho : open_file _ _ _ = inr ?p |- _ =>
             destruct p; pose proof (open_file_read_inv _ _ _ _ (or_introl Ho));
             clear Ho
         | Ho : open_file _ _ _ = inr ?p |- _ =>
             destruct p; pose proof (open_file_read_inv _ _ _ _ (or_intror Ho));
             clear Ho
         end.
  all: simpl in *; subst.
  all: match goal with
       | Hs : save _ ?s1 = (?s2, inr _) |- _ =>
           let HE := fresh in
           assert (HE : encryption (self s1) = true) by (simpl; exact Henc);
           pose proof (save_encrypted_ok_run _ _ _ HE Hs)
             as (? & ? & ? & ? & ? & ? & _ & _ & _ & _ & _ & _ & _ & HK & _);
           destruct HK as (_ & _ & HL);
           eexists s1, s2, _
       end.
  all: simpl in *.
  all: (split; [simpl; repeat rewrite <- (app_assoc tr); simpl;
                first [reflexivity | symmetry; apply app_nil_r]|]).
  all: (split; [reflexivity|]).
  all: (split; [repeat split|]).
  all: try match goal with
         | Hp : negb (path_exists _ _) = _ |- _ => rewrite Hp
         end.
  all: (split; [eassumption|]).
  all: repeat split; done.
Qed.

(** X11: every encrypted [load] that returns has rewritten both files:
    its last effects are those of the encrypted branch of [save], the
    metadata file holds the dump of the metadata now in memory, the
    data file holds the mapping now in memory, encoded and encrypted
    with them, and the store is marked loaded. *)
Theorem encrypted_load_rewrites_files s s' (create : bool) :
  encryption (self s) = true ->
  load create s = (s', inr tt) ->
  exists pre c t bin ct meta,
    crypto_data_file_name (self s) = Some meta
    /\ crypto_data (self s') = Some c
    /\ snapshot (heap s') (_db (self s')) = inr t
    /\ str_encode (encryption_text_encoding (self s)) (json_encode t) = inr bin
    /\ encrypt c bin = inr ct
    /\ trace s' = trace s ++ pre
                  ++ write_events
                       (negb (path_exists (fs s) (db_file_name (self s))))
                       (db_file_name (self s)) meta ct
                       (list_byte_of_string (fst (interop_dump c)))
    /\ fs s' !! meta = Some (File (list_byte_of_string (fst (interop_dump c))))
    /\ (meta <> db_file_name (self s) ->
        fs s' !! db_file_name (self s) = Some (File ct))
    /\ loaded (self s') = true.
Proof.
  intros Henc Hload.
  destruct (load_encrypted_ends_with_save _ _ _ Henc Hload)
    as (s1 & s2 & pre & Htr1 & Hfs1 & Hcfg1 & Hsave & Hfs & Hh & Htr & Hcfg2
        & Hdb & Hc & Hl).
  assert (Henc1 : encryption (self s1) = true).
  { destruct Hcfg1 as (?&?&?&?&?&?). congruence. }
  destruct (save_encrypted_ok_run _ _ _ Henc1 Hsave)
    as (pre2 & c & t & bin & ct & meta & Hmeta & Hc2 & Hsnap & Hbin & Hct
        & Hfs2 & Hh2 & Hk & Htr2).
  destruct Hcfg1 as (E1&E2&E3&E4&E5&E6).
  destruct Hk as (_ & Hdb2 & _).
  exists (pre ++ pre2), c, t, bin, ct, meta.
  rewrite Hh, Hdb, Hh2, Hdb2, Hc, Hfs, Htr, Htr2, Htr1, Hfs2.
  rewrite <- E1, <- E4, <- E6 in *.
  rewrite <- !app_assoc.
  repeat split; try done.
  - apply lookup_insert_eq.
  - intros Hne. rewrite lookup_insert_ne by done. apply lookup_insert_eq.
Qed.

(** ** Loads that raise *)

(** No [save] changes the heap or what [keeps] names. *)
Lemma save_keeps s (n : bool) s' r :
  save n s = (s', r) -> keeps (self s) (self s') /\ heap s' = heap s.
Proof.
  intros Hs.
  destruct (is_None (_db (self s))) eqn:Hnone.
  { unfold save, bind, get_self, assert, raise in Hs. rewrite Hnone in Hs.
    simpl in Hs. simplify_eq. auto using keeps_refl. }
  destruct (encryption (self s)) eqn:Henc.
  - destruct (save_encrypted_split s n Henc Hnone)
      as [(s1 & e & Hs1 & Hfs & Hh & Hk)
         | (s1 & pre & Hs1 & Hfs & Hh & Hk & _)];
      rewrite Hs1 in Hs.
    + simplify_eq. auto.
    + destruct (write_encrypted_trace _ _ _ _ _ Hs) as (Hself & Hheap & _).
      rewrite Hself, Hheap. auto.
  - rewrite plain_save_run, Hnone, write_plain_run in Hs by done.
    simpl in Hs.
    destruct (fs s !! db_file_name (self s)) as [[c|]|];
      simplify_eq; simpl; auto using keeps_refl.
Qed.

(** X12: a [load] that raises where the data path exists never marks
    the store loaded: the flag and the configuration of the store are
    what they were, whichever step raised. *)
Theorem failed_load_keeps_flag s s' (create : bool) (e : exn) :
  path_exists (fs s) (db_file_name (self s)) = true ->
  load create s = (s', inl e) ->
  loaded (self s') = loaded (self s) /\ same_config (self s) (self s').
Proof.
  intros Hex Hload.
  destruct s as [f h tr o]. simpl in *.
  unfold_load. simpl in Hload. rewrite Hex in Hload. simpl in Hload.
  repeat (case_in Hload; simpl in *; simplify_eq).
  all: repeat match goal with u : unit |- _ => destruct u end.
  all: try match goal with
         | Hs : save _ _ = _ |- _ =>
             apply save_keeps in Hs; simpl in Hs;
             destruct Hs as (((?&?&?&?&?&?)&?&?)&?)
         end.
  all: simpl in *; repeat split; simpl; congruence.
Qed.

(** X13: an encrypted [load] whose metadata file reads back as [c]
    but whose data file [c] does not decrypt raises the provider's
    error; the disk, the heap, the mapping and the flag are what they
    were, but the metadata in memory have already been replaced by
    [c]. *)
Theorem failed_decrypt_replaces_metadata s (create : bool) (meta : string)
    (md ct : list byte) (c : cryptodata) (e : exn) :
  encryption (self s) = true ->
  crypto_data_file_name (self s) = Some meta ->
  fs s !! meta = Some (File md) ->
  fs s !! db_file_name (self s) = Some (File ct) ->
  interop_load (string_of_list_byte md) (string_key (self s))
    (encryption_text_encoding (self s)) = inr c ->
  decrypt c ct = inl e ->
  exists s',
    load create s = (s', inl e)
    /\ fs s' = fs s /\ heap s' = heap s
    /\ keeps (self s) (self s')
    /\ crypto_data (self s') = Some c
    /\ trace s' = trace s ++ [EvOpen meta "r"; EvCrypto InteropLoad;
                              EvRead meta;
                              EvOpen (db_file_name (self s)) "rb";
                              EvRead (db_file_name (self s));
                              EvCrypto Decrypt].
Proof.
  intros Henc Hmeta Hmd Hct Hload Hdec.
  destruct (path_exists_file _ _ _ Hct) as [Hex Hfile].
  destruct (open_file_read _ _ _ Hmd) as [Hopen1 _].
  destruct (open_file_read _ _ _ Hct) as [_ Hopen2].
  destruct s as [f h tr o]. simpl in *.
  eexists. split.
  - unfold_load. simpl.
    rewrite Hex. simpl. rewrite Hfile. simpl. rewrite Henc. simpl.
    rewrite Hmeta. simpl. rewrite Hopen1. simpl.
    erewrite read_file_handle by done. simpl. rewrite Hload. simpl.
    rewrite Hopen2. simpl. erewrite read_file_handle by done. simpl.
    rewrite Hdec. simpl. reflexivity.
  - simpl. repeat rewrite <- (app_assoc tr). simpl.
    repeat split; done.
Qed.

(** X14: a creating [load] of an encrypted store whose new metadata
    cannot be made raises the provider's error after the mapping has
    been copied from the default: the store is left marked loaded, with
    the copy as its mapping, nothing written to the disk and the
    metadata in memory as they were; when there were none, every later
    [save ()] raises [AttributeError]. *)
Theorem failed_creation_leaves_store_loaded s (h' : Py.heap) (v : pyval)
    (e : exn) :
  encryption (self s) = true ->
  path_exists (fs s) (db_file_name (self s)) = false ->
  deepcopy (S deepcopy_depth) (heap s) (default (self s)) = inr (h', v) ->
  is_None v = false ->
  make_new (string_key (self s)) (encryption_text_encoding (self s)) = inl e ->
  exists s',
    load true s = (s', inl e)
    /\ fs s' = fs s /\ heap s' = h'
    /\ loaded (self s') = true
    /\ _db (self s') = v
    /\ crypto_data (self s') = crypto_data (self s)
    /\ (crypto_data (self s) = None ->
        save false s' = (s', inl (AttributeError "crypto_data"))).
Proof.
  intros Henc Hmiss Hcopy Hnone Hnew.
  destruct s as [f h tr o]. simpl in *.
  eexists. split.
  - unfold_load. simpl. rewrite Hmiss. simpl. rewrite Hcopy. simpl.
    unfold_save. simpl. rewrite Hnone. simpl. rewrite Henc. simpl.
    rewrite Hnew. simpl. reflexivity.
  - simpl. repeat split; try done.
    intros Hc. unfold_save. simpl. rewrite Hnone. simpl.
    rewrite Henc. simpl. rewrite Hc. simpl. reflexivity.
Qed.

(** ** [copy.deepcopy] *)

Lemma res_mapM_Forall2 {A B} (f : A -> result B) (xs : list A) (ts : list B) :
  res_mapM f xs = inr ts <-> Forall2 (fun x t => f x = inr t) xs ts.
Proof.
  revert ts. induction xs as [|x xs IH]; intros ts; simpl.
  - split.
    + intros [= <-]. constructor.
    + intros H. by inversion H.
  - unfold res_bind. split.
    + destruct (f x) as [e|b] eqn:Hx; [done|].
      destruct (res_mapM f xs) as [e|bs] eqn:Hxs; [done|].
      intros [= <-]. constructor; [done|]. by apply IH.
    + intros H. inversion H as [|? t ? ts' Hx Hxs]; subst.
      rewrite Hx. apply IH in Hxs. by rewrite Hxs.
Qed.

Lemma snapshot_fuel_atom_inv (n : nat) (h : Py.heap) (mk : list loc)
    (a : atom) (t : tree) :
  snapshot_fuel n h mk (VAtom a) = inr t -> t = TAtom a.
Proof. destruct n; simpl; congruence. Qed.

(** What a reading of a reference is made of. *)
Lemma snapshot_fuel_ref_inv (n : nat) (h : Py.heap) (mk : list loc)
    (l : loc) (t : tree) :
  snapshot_fuel n h mk (VRef l) = inr t ->
  exists n', n = S n' /\ (l ∉ mk)
    /\ ((exists xs ts, h !! l = Some (OList xs) /\ t = TList ts
           /\ Forall2 (fun x t => snapshot_fuel n' h (l :: mk) x = inr t) xs ts)
        \/ (exists es ets, h !! l = Some (ODict es) /\ t = TDict ets
              /\ Forall2 (fun kv kt => snapshot_entry n' h (l :: mk) kv = inr kt)
                   es ets)).
Proof.
  destruct n as [|n'].
  { simpl. by destruct (bool_decide (l ∈ mk)). }
  rewrite snapshot_fuel_ref.
  destruct (bool_decide (l ∈ mk)) eqn:Hmk; [done|].
  apply bool_decide_eq_false in Hmk.
  intros H. exists n'. split; [done|]. split; [done|].
  destruct (h !! l) as [[xs|es]|]; [| |done].
  - left. unfold res_map, res_bind in H.
    destruct (res_mapM _ xs) as [|ts] eqn:Hxs; [done|]. simplify_eq.
    exists xs, ts. repeat split. by apply res_mapM_Forall2.
  - right. unfold res_map at 1, res_bind at 1 in H.
    destruct (res_mapM _ es) as [|ets] eqn:Hes; [done|]. simplify_eq.
    exists es, ets. repeat split. by apply res_mapM_Forall2 in Hes.
Qed.

Lemma snapshot_fuel_list (n : nat) (h : Py.heap) (mk : list loc) (l : loc)
    (xs : list pyval) (ts : list tree) :
  l ∉ mk -> h !! l = Some (OList xs) ->
  Forall2 (fun x t => snapshot_fuel n h (l :: mk) x = inr t) xs ts ->
  snapshot_fuel (S n) h mk (VRef l) = inr (TList ts).
Proof.
  intros Hmk Hl Hxs. rewrite snapshot_fuel_ref.
  rewrite bool_decide_eq_false_2 by done. rewrite Hl.
  apply res_mapM_Forall2 in Hxs. by rewrite Hxs.
Qed.

Lemma snapshot_fuel_dict (n : nat) (h : Py.heap) (mk : list loc) (l : loc)
    (es : list (atom * pyval)) (ets : list (atom * tree)) :
  l ∉ mk -> h !! l = Some (ODict es) ->
  Forall2 (fun kv kt => snapshot_entry n h (l :: mk) kv = inr kt) es ets ->
  snapshot_fuel (S n) h mk (VRef l) = inr (TDict ets).
Proof.
  intros Hmk Hl Hes. rewrite snapshot_fuel_ref.
  rewrite bool_decide_eq_false_2 by done. rewrite Hl.
  apply res_mapM_Forall2 in Hes. unfold snapshot_entry in Hes.
  by rewrite Hes.
Qed.

Lemma snapshot_entry_inv (n : nat) (h : Py.heap) (mk : list loc)
    (kv : atom * pyval) (kt : atom * tree) :
  snapshot_entry n h mk kv = inr kt <->
  fst kt = fst kv /\ snapshot_fuel n h mk (snd kv) = inr (snd kt).
Proof.
  unfold snapshot_entry, res_map, res_bind.
  destruct (snapshot_fuel n h mk (snd kv)) as [e|t]; destruct kt as [k t'];
    simpl; split; try (intros [= <- <-]; done); try (intros [? ?]; done).
  intros [<- [= <-]]. done.
Qed.

(** A reading goes through no marker and through objects of the heap
    only: it stays what it is in a heap that keeps the objects outside
    the markers, under markers that were markers or were free. *)
Lemma snapshot_fuel_mono (n : nat) :
  forall (h h' : Py.heap) (mk mk' : list loc) (v : pyval) (t : tree),
    snapshot_fuel n h mk v = inr t ->
    (forall (x : loc) (ob : pyobj), x ∉ mk -> h !! x = Some ob -> h' !! x = Some ob) ->
    (forall x : loc, x ∈ mk' -> x ∈ mk \/ length h <= x) ->
    snapshot_fuel n h' mk' v = inr t.
Proof.
  induction n as [|n IH]; intros h h' mk mk' v t Hs Hh Hmk.
  { destruct v as [a|l]; [done|].
    apply snapshot_fuel_ref_inv in Hs as (? & ? & _). done. }
  destruct v as [a|l]; [done|].
  apply snapshot_fuel_ref_inv in Hs as (n' & [= <-] & Hl & Hcase).
  assert (Hl' : l ∉ mk').
  { intros Hin. destruct (Hmk _ Hin) as [?|Hge]; [done|].
    destruct Hcase as [(xs & ts & Hx & _)|(es & ets & Hx & _)];
      apply lookup_lt_Some in Hx; lia. }
  assert (Hh' : forall (x : loc) (ob : pyobj),
             x ∉ l :: mk -> h !! x = Some ob -> h' !! x = Some ob).
  { intros x ob Hx. apply Hh. intros ?. apply Hx. by right. }
  assert (Hmk' : forall x : loc, x ∈ l :: mk' -> x ∈ l :: mk \/ length h <= x).
  { intros x [->|Hx]%elem_of_cons; [left; left|].
    destruct (Hmk _ Hx); [left; by right | by right]. }
  destruct Hcase as [(xs & ts & Hx & -> & Hxs)|(es & ets & Hx & -> & Hes)].
  - apply snapshot_fuel_list with xs; [done|by apply Hh|].
    eapply Forall2_impl; [exact Hxs|]. intros x t Hr.
    eapply IH; [exact Hr|exact Hh'|exact Hmk'].
  - apply snapshot_fuel_dict with es; [done|by apply Hh|].
    eapply Forall2_impl; [exact Hes|]. intros kv kt Hr.
    apply snapshot_entry_inv in Hr as [Hk Hr]. apply snapshot_entry_inv.
    split; [done|]. eapply IH; [exact Hr|exact Hh'|exact Hmk'].
Qed.

Lemma Forall2_fun {A B} (P Q : A -> B -> Prop) (xs : list A) (ts ts' : list B) :
  Forall2 P xs ts -> Forall2 Q xs ts' ->
  (forall x t t', P x t -> Q x t' -> t = t') -> ts = ts'.
Proof.
  intros HP. revert ts'. induction HP; intros ts' HQ Hf; inversion HQ; subst.
  - done.
  - f_equal; eauto.
Qed.

(** The tree read does not depend on the fuel or on the markers. *)
Lemma snapshot_fuel_fun (n : nat) :
  forall (m : nat) (h : Py.heap) (mk mk' : list loc) (v : pyval) (t t' : tree),
    snapshot_fuel n h mk v = inr t ->
    snapshot_fuel m h mk' v = inr t' ->
    t = t'.
Proof.
  induction n as [|n IH]; intros m h mk mk' v t t' Hs Hs'.
  { destruct v as [a|l].
    - apply snapshot_fuel_atom_inv in Hs, Hs'. congruence.
    - apply snapshot_fuel_ref_inv in Hs as (? & ? & _). done. }
  destruct v as [a|l].
  { apply snapshot_fuel_atom_inv in Hs, Hs'. congruence. }
  apply snapshot_fuel_ref_inv in Hs as (n' & [= <-] & _ & Hcase).
  apply snapshot_fuel_ref_inv in Hs' as (m' & -> & _ & Hcase').
  destruct Hcase as [(xs & ts & Hx & -> & Hxs)|(es & ets & Hx & -> & Hes)];
    destruct Hcase' as [(xs' & ts' & Hx' & -> & Hxs')|(es' & ets' & Hx' & -> & Hes')];
    rewrite Hx in Hx'; simplify_eq.
  - f_equal. eapply Forall2_fun; [exact Hxs|exact Hxs'|].
    intros x t t' Hr Hr'. eapply IH; [exact Hr|exact Hr'].
  - f_equal. eapply Forall2_fun; [exact Hes|exact Hes'|].
    intros kv [k t] [k' t'] [Hk Hr]%snapshot_entry_inv
      [Hk' Hr']%snapshot_entry_inv. simpl in *.
    f_equal; [congruence|]. eapply IH; [exact Hr|exact Hr'].
Qed.

Lemma Forall2_Forall_r {A B} (P : A -> B -> Prop) (Q : B -> Prop)
    (xs : list A) (ts : list B) :
  Forall2 P xs ts -> (forall x t, P x t -> Q t) -> Forall Q ts.
Proof. induction 1; intros Hq; constructor; eauto. Qed.

Lemma Forall2_impl_r {A B} (P R : A -> B -> Prop) (Q : B -> Prop)
    (xs : list A) (ts : list B) :
  Forall2 P xs ts -> Forall Q ts ->
  (forall x t, P x t -> Q t -> R x t) -> Forall2 R xs ts.
Proof.
  induction 1; intros HQ Hr; inversion HQ; subst; constructor; eauto.
Qed.

(** The fuel of a reading is at least the depth of the tree read... *)
Lemma snapshot_fuel_depth (n : nat) :
  forall (h : Py.heap) (mk : list loc) (v : pyval) (t : tree),
    snapshot_fuel n h mk v = inr t -> tree_depth t <= n.
Proof.
  induction n as [|n IH]; intros h mk v t Hs.
  { destruct v as [a|l].
    - apply snapshot_fuel_atom_inv in Hs as ->. done.
    - apply snapshot_fuel_ref_inv in Hs as (? & ? & _). done. }
  destruct v as [a|l].
  { apply snapshot_fuel_atom_inv in Hs as ->. simpl. lia. }
  apply snapshot_fuel_ref_inv in Hs as (n' & [= <-] & _ & Hcase).
  destruct Hcase as [(xs & ts & Hx & -> & Hxs)|(es & ets & Hx & -> & Hes)];
    simpl; apply le_n_S, list_max_le, Forall_map.
  - eapply Forall2_Forall_r; [exact Hxs|]. intros x t Hr. simpl.
    eapply IH; exact Hr.
  - eapply Forall2_Forall_r; [exact Hes|].
    intros kv kt [_ Hr]%snapshot_entry_inv. simpl. eapply IH; exact Hr.
Qed.

(** ... and that depth is fuel enough. *)
Lemma snapshot_fuel_refuel (n : nat) :
  forall (m : nat) (h : Py.heap) (mk : list loc) (v : pyval) (t : tree),
    snapshot_fuel n h mk v = inr t -> tree_depth t <= m ->
    snapshot_fuel m h mk v = inr t.
Proof.
  induction n as [|n IH]; intros m h mk v t Hs Hm.
  { destruct v as [a|l].
    - apply snapshot_fuel_atom_inv in Hs as ->. by destruct m.
    - apply snapshot_fuel_ref_inv in Hs as (? & ? & _). done. }
  destruct v as [a|l].
  { apply snapshot_fuel_atom_inv in Hs as ->. by destruct m. }
  apply snapshot_fuel_ref_inv in Hs as (n' & [= <-] & Hl & Hcase).
  destruct Hcase as [(xs & ts & Hx & -> & Hxs)|(es & ets & Hx & -> & Hes)];
    simpl in Hm; (destruct m as [|m']; [lia|]);
    apply le_S_n, list_max_le, Forall_map in Hm.
  - apply snapshot_fuel_list with xs; [done..|].
    eapply Forall2_impl_r; [exact Hxs|exact Hm|].
    intros x t Hr Hd. simpl in Hd. eapply IH; [exact Hr|exact Hd].
  - apply snapshot_fuel_dict with es; [done..|].
    eapply Forall2_impl_r; [exact Hes|exact Hm|].
    intros kv kt [Hk Hr]%snapshot_entry_inv Hd. simpl in Hd.
    apply snapshot_entry_inv. split; [done|]. eapply IH; [exact Hr|exact Hd].
Qed.

Lemma deepcopy_fuel_atom (n : nat) (memo : list (loc * loc)) (h : Py.heap)
    (a : atom) :
  deepcopy_fuel n memo h (VAtom a) = inr (memo, h, VAtom a).
Proof. by destruct n. Qed.

Lemma deepcopy_fuel_ref (n : nat) (memo : list (loc * loc)) (h : Py.heap)
    (l : loc) :
  deepcopy_fuel (S n) memo h (VRef l)
  = match memo_get memo l with
    | Some l' => inr (memo, h, VRef l')
    | None =>
        match h !! l with
        | None => inl SystemError
        | Some (OList xs) =>
            res_map (fun mh => (fst mh, snd mh, VRef (length h)))
              (copy_items n (length h) ((l, length h) :: memo)
                 (h ++ [OList []]) xs)
        | Some (ODict es) =>
            res_map (fun mh => (fst mh, snd mh, VRef (length h)))
              (copy_entries n (length h) ((l, length h) :: memo)
                 (h ++ [ODict []]) es)
        end
    end.
Proof. reflexivity. Qed.

Lemma copy_items_cons (n : nat) (l' : loc) (memo : list (loc * loc))
    (h : Py.heap) (x : pyval) (xs : list pyval) :
  copy_items n l' memo h (x :: xs)
  = res_bind (deepcopy_fuel n memo h x) (fun r =>
      let '(memo1, h1, x') := r in
      copy_items n l' memo1 (list_append h1 l' x') xs).
Proof. reflexivity. Qed.

Lemma copy_entries_cons (n : nat) (l' : loc) (memo : list (loc * loc))
    (h : Py.heap) (k : atom) (x : pyval) (es : list (atom * pyval)) :
  copy_entries n l' memo h ((k, x) :: es)
  = res_bind (deepcopy_fuel n memo h x) (fun r =>
      let '(memo1, h1, x') := r in
      copy_entries n l' memo1 (dict_store h1 l' k x') es).
Proof. reflexivity. Qed.

Lemma heap_lookup_insert_ne (h : Py.heap) (l z : loc) (ob : pyobj) :
  l <> z -> <[l := ob]> h !! z = h !! z.
Proof. apply list_lookup_insert_ne. Qed.

Lemma heap_lookup_insert_eq (h : Py.heap) (l : loc) (ob : pyobj) :
  l < length h -> <[l := ob]> h !! l = Some ob.
Proof. apply list_lookup_insert_eq. Qed.

Lemma heap_length_insert (h : Py.heap) (l : loc) (ob : pyobj) :
  length (<[l := ob]> h) = length h.
Proof. apply length_insert. Qed.

Lemma heap_prefix_lookup (h0 h : Py.heap) (l : loc) (ob : pyobj) :
  h0 !! l = Some ob -> h0 `prefix_of` h -> h !! l = Some ob.
Proof. apply prefix_lookup_Some. Qed.

Lemma prefix_insert_ge (hp H : Py.heap) (l : loc) (ob : pyobj) :
  hp `prefix_of` H -> length hp <= l -> hp `prefix_of` <[l := ob]> H.
Proof.
  intros [k ->] Hl. exists (<[l - length hp := ob]> k).
  by apply insert_app_r_alt.
Qed.

(** Storing into a copy under way keeps the state of the copy. *)
Lemma memo_ok_insert (h0 : Py.heap) (mk bad : list loc)
    (memo : list (loc * loc)) (h : Py.heap) (l' : loc) (ob : pyobj) :
  memo_ok h0 mk bad memo h -> l' ∈ bad -> length h0 <= l' ->
  memo_ok h0 mk bad memo (<[l' := ob]> h).
Proof.
  intros (Hpre & Hbad & Hmemo) Hin Hge. split; [|split].
  - by apply prefix_insert_ge.
  - intros b Hb. rewrite heap_length_insert. by apply Hbad.
  - intros x y Hxy. destruct (Hmemo x y Hxy) as [?|(t & n & mk' & Hsrc & Hcp)];
      [by left|right].
    exists t, n, mk'. split; [done|].
    eapply snapshot_fuel_mono; [exact Hcp| |by left].
    intros z oz Hz Hlz. rewrite heap_lookup_insert_ne; [done|].
    intros ->. done.
Qed.

(** Entering a container: its copy is allocated and entered in the
    memo before its elements are copied. *)
Lemma memo_ok_open (h0 : Py.heap) (mk bad : list loc)
    (memo : list (loc * loc)) (h : Py.heap) (l : loc) (ob : pyobj) :
  memo_ok h0 mk bad memo h ->
  memo_ok h0 (l :: mk) (length h :: bad) ((l, length h) :: memo) (h ++ [ob]).
Proof.
  intros (Hpre & Hbad & Hmemo). split; [|split].
  - by apply prefix_app_r.
  - intros b [->|Hb]%elem_of_cons; rewrite length_app; simpl; [lia|].
    specialize (Hbad b Hb). lia.
  - intros x y. unfold memo_get. simpl.
    destruct (Nat.eqb l x) eqn:Hlx.
    { apply Nat.eqb_eq in Hlx as ->. intros _. left. by left. }
    intros Hxy. destruct (Hmemo x y Hxy) as [?|(t & n & mk' & Hsrc & Hcp)];
      [left; by right|right].
    exists t, n, mk'. split; [done|].
    eapply snapshot_fuel_mono; [exact Hcp| |].
    + intros z oz _ Hlz. by apply lookup_app_l_Some.
    + intros z [->|Hz]%elem_of_cons; [by right | by left].
Qed.

(** Leaving a container: once its elements are copied, its copy reads
    as the container did. *)
Lemma memo_ok_close (h0 : Py.heap) (mk bad : list loc)
    (memo : list (loc * loc)) (h : Py.heap) (l l' : loc) (n : nat) (t : tree) :
  memo_ok h0 (l :: mk) (l' :: bad) memo h ->
  memo_get memo l = Some l' ->
  snapshot_fuel n h0 mk (VRef l) = inr t ->
  snapshot_fuel n h bad (VRef l') = inr t ->
  memo_ok h0 mk bad memo h.
Proof.
  intros (Hpre & Hbad & Hmemo) Hl Hsrc Hcp. split; [done|]. split.
  - intros b Hb. apply Hbad. by right.
  - intros x y Hxy.
    destruct (Hmemo x y Hxy) as [[->|?]%elem_of_cons|(t1 & n1 & mk1 & Hs1 & Hc1)].
    + right. rewrite Hl in Hxy. simplify_eq. exists t, n, mk. split; [done|].
      eapply snapshot_fuel_refuel; [exact Hcp|done].
    + by left.
    + right. exists t1, n1, mk1. split; [done|].
      eapply snapshot_fuel_mono; [exact Hc1|done|].
      intros z Hz. left. by right.
Qed.

Lemma copy_items_ok (n m : nat) (h0 : Py.heap) (l' : loc) (mk bad : list loc) :
  (forall v t memo h,
      snapshot_fuel n h0 mk v = inr t -> wf_tree t = true ->
      memo_ok h0 mk bad memo h ->
      copy_result n h0 mk bad t memo h (deepcopy_fuel m memo h v)) ->
  l' ∈ bad -> length h0 <= l' ->
  forall xs ts,
    Forall2 (fun x t => snapshot_fuel n h0 mk x = inr t) xs ts ->
    forallb wf_tree ts = true ->
    forall memo h ys tsd,
      memo_ok h0 mk bad memo h ->
      h !! l' = Some (OList ys) ->
      Forall2 (fun y t => snapshot_fuel n h bad y = inr t) ys tsd ->
      exists memo' h' ys',
        copy_items m l' memo h xs = inr (memo', h')
        /\ (forall hp : Py.heap,
              hp `prefix_of` h -> length hp <= l' -> hp `prefix_of` h')
        /\ (forall x y : loc,
              memo_get memo x = Some y -> memo_get memo' x = Some y)
        /\ memo_ok h0 mk bad memo' h'
        /\ h' !! l' = Some (OList ys')
        /\ Forall2 (fun y t => snapshot_fuel n h' bad y = inr t) ys' (tsd ++ ts).
Proof.
  intros IH Hbad Hl' xs ts Hxs.
  induction Hxs as [|x t xs ts Hx Hxs IHxs];
    intros Hwf memo h ys tsd Hok Hys Hrd.
  { exists memo, h, ys. rewrite app_nil_r.
    split; [reflexivity|]. split; [by intros|]. split; [by intros|].
    by split. }
  simpl in Hwf. apply andb_true_iff in Hwf as [Hwt Hwts].
  destruct (IH x t memo h Hx Hwt Hok)
    as (memo1 & h1 & x' & Hcall & Hpre & Hext & Hok1 & Hrx).
  rewrite copy_items_cons, Hcall. simpl.
  assert (Hys1 : h1 !! l' = Some (OList ys)).
  { eapply prefix_lookup_Some; [exact Hys|exact Hpre]. }
  unfold list_append at 1. rewrite Hys1.
  set (h2 := <[l' := OList (ys ++ [x'])]> h1).
  assert (Hstay1 : forall (z : loc) (oz : pyobj),
             z ∉ bad -> h1 !! z = Some oz -> h2 !! z = Some oz).
  { intros z oz Hz Hlz. unfold h2.
    rewrite heap_lookup_insert_ne; [done|]. by intros ->. }
  assert (Hstay : forall (z : loc) (oz : pyobj),
             z ∉ bad -> h !! z = Some oz -> h2 !! z = Some oz).
  { intros z oz Hz Hlz. apply Hstay1; [done|].
    eapply prefix_lookup_Some; [exact Hlz|exact Hpre]. }
  destruct (IHxs Hwts memo1 h2 (ys ++ [x']) (tsd ++ [t]))
    as (memo' & h' & ys' & Hloop & Hframe & Hext' & Hok' & Hys' & Hrd').
  { by apply memo_ok_insert. }
  { unfold h2. apply heap_lookup_insert_eq. by eapply lookup_lt_Some. }
  { apply Forall2_app.
    - eapply Forall2_impl; [exact Hrd|]. intros y ty Hy.
      eapply snapshot_fuel_mono; [exact Hy|exact Hstay|by left].
    - constructor; [|constructor].
      eapply snapshot_fuel_mono; [exact Hrx|exact Hstay1|by left]. }
  exists memo', h', ys'. split; [exact Hloop|]. split; [|split; [|split; [done|]]].
  - intros hp Hhp Hlen. apply Hframe; [|done].
    apply prefix_insert_ge; [by etrans|done].
  - intros z y Hzy. by apply Hext', Hext.
  - split; [done|]. by rewrite <- app_assoc in Hrd'.
Qed.

Lemma snapshot_entries_keys (n : nat) (h : Py.heap) (mk : list loc)
    (kvs : list (atom * pyval)) (ets : list (atom * tree)) :
  Forall2 (fun kv kt => snapshot_entry n h mk kv = inr kt) kvs ets ->
  map fst ets = map fst kvs.
Proof.
  induction 1 as [|kv kt kvs ets [Hk _]%snapshot_entry_inv _ IH]; simpl;
    [done|]. by rewrite Hk, IH.
Qed.

Lemma copy_entries_ok (n m : nat) (h0 : Py.heap) (l' : loc) (mk bad : list loc) :
  (forall v t memo h,
      snapshot_fuel n h0 mk v = inr t -> wf_tree t = true ->
      memo_ok h0 mk bad memo h ->
      copy_result n h0 mk bad t memo h (deepcopy_fuel m memo h v)) ->
  l' ∈ bad -> length h0 <= l' ->
  forall es ets,
    Forall2 (fun kv kt => snapshot_entry n h0 mk kv = inr kt) es ets ->
    forallb (fun kt => wf_tree (snd kt)) ets = true ->
    forall memo h kvs etsd,
      memo_ok h0 mk bad memo h ->
      h !! l' = Some (ODict kvs) ->
      Forall2 (fun kv kt => snapshot_entry n h bad kv = inr kt) kvs etsd ->
      keys_distinct (map fst (etsd ++ ets)) = true ->
      exists memo' h' kvs',
        copy_entries m l' memo h es = inr (memo', h')
        /\ (forall hp : Py.heap,
              hp `prefix_of` h -> length hp <= l' -> hp `prefix_of` h')
        /\ (forall x y : loc,
              memo_get memo x = Some y -> memo_get memo' x = Some y)
        /\ memo_ok h0 mk bad memo' h'
        /\ h' !! l' = Some (ODict kvs')
        /\ Forall2 (fun kv kt => snapshot_entry n h' bad kv = inr kt)
             kvs' (etsd ++ ets).
Proof.
  intros IH Hbad Hl' es ets Hes.
  induction Hes as [|[k x] [k_t t] es ets Hx Hes IHes];
    intros Hwf memo h kvs etsd Hok Hkvs Hrd Hkeys.
  { exists memo, h, kvs. rewrite app_nil_r.
    split; [reflexivity|]. split; [by intros|]. split; [by intros|].
    by split. }
  simpl in Hwf. apply andb_true_iff in Hwf as [Hwt Hwts].
  apply snapshot_entry_inv in Hx as [Hk Hx]. simpl in Hk, Hx. subst k_t.
  destruct (IH x t memo h Hx Hwt Hok)
    as (memo1 & h1 & x' & Hcall & Hpre & Hext & Hok1 & Hrx).
  rewrite copy_entries_cons, Hcall. simpl.
  assert (Hkvs1 : h1 !! l' = Some (ODict kvs)).
  { eapply prefix_lookup_Some; [exact Hkvs|exact Hpre]. }
  unfold dict_store at 1. rewrite Hkvs1.
  assert (Hfresh : dict_set k x' kvs = kvs ++ [(k, x')]).
  { apply dict_set_fresh.
    rewrite map_app in Hkeys. apply keys_distinct_app in Hkeys as [_ Hall].
    specialize (Hall k (list_elem_of_here _ _)).
    rewrite (snapshot_entries_keys _ _ _ _ _ Hrd) in Hall.
    rewrite forallb_forall in Hall.
    apply forallb_forall. intros [k' v'] Hin. simpl.
    apply Hall. apply in_map_iff. by exists (k', v'). }
  rewrite Hfresh.
  set (h2 := <[l' := ODict (kvs ++ [(k, x')])]> h1).
  assert (Hstay1 : forall (z : loc) (oz : pyobj),
             z ∉ bad -> h1 !! z = Some oz -> h2 !! z = Some oz).
  { intros z oz Hz Hlz. unfold h2.
    rewrite heap_lookup_insert_ne; [done|]. by intros ->. }
  assert (Hstay : forall (z : loc) (oz : pyobj),
             z ∉ bad -> h !! z = Some oz -> h2 !! z = Some oz).
  { intros z oz Hz Hlz. apply Hstay1; [done|].
    eapply prefix_lookup_Some; [exact Hlz|exact Hpre]. }
  destruct (IHes Hwts memo1 h2 (kvs ++ [(k, x')]) (etsd ++ [(k, t)]))
    as (memo' & h' & kvs' & Hloop & Hframe & Hext' & Hok' & Hkvs' & Hrd').
  { by apply memo_ok_insert. }
  { unfold h2. apply heap_lookup_insert_eq. by eapply lookup_lt_Some. }
  { apply Forall2_app.
    - eapply Forall2_impl; [exact Hrd|]. intros kv kt Hy.
      apply snapshot_entry_inv in Hy as [Hky Hy].
      apply snapshot_entry_inv. split; [done|].
      eapply snapshot_fuel_mono; [exact Hy|exact Hstay|by left].
    - constructor; [|constructor].
      apply snapshot_entry_inv. split; [done|]. simpl.
      eapply snapshot_fuel_mono; [exact Hrx|exact Hstay1|by left]. }
  { by rewrite <- app_assoc. }
  exists memo', h', kvs'. split; [exact Hloop|]. split; [|split; [|split; [done|]]].
  - intros hp Hhp Hlen. apply Hframe; [|done].
    apply prefix_insert_ge; [by etrans|done].
  - intros z y Hzy. by apply Hext', Hext.
  - split; [done|]. by rewrite <- app_assoc in Hrd'.
Qed.

(** A deep copy of a value that reads as a tree makes a value that
    reads as the same tree, through new objects only. *)
Lemma deepcopy_fuel_ok (n : nat) :
  forall (h0 : Py.heap) (mk bad : list loc) (m : nat) (v : pyval) (t : tree)
         (memo : list (loc * loc)) (h : Py.heap),
    n <= m ->
    snapshot_fuel n h0 mk v = inr t -> wf_tree t = true ->
    memo_ok h0 mk bad memo h ->
    copy_result n h0 mk bad t memo h (deepcopy_fuel m memo h v).
Proof.
  induction n as [|n IH]; intros h0 mk bad m v t memo h Hm Hs Hwf Hok.
  { destruct v as [a|l].
    - apply snapshot_fuel_atom_inv in Hs as ->.
      exists memo, h, (VAtom a). rewrite deepcopy_fuel_atom.
      split; [done|]. split; [done|]. split; [by intros|]. by split.
    - apply snapshot_fuel_ref_inv in Hs as (? & ? & _). done. }
  destruct v as [a|l].
  { apply snapshot_fuel_atom_inv in Hs as ->.
    exists memo, h, (VAtom a). rewrite deepcopy_fuel_atom.
    split; [done|]. split; [done|]. split; [by intros|]. by split. }
  pose proof Hs as Hs0.
  apply snapshot_fuel_ref_inv in Hs as (n' & [= <-] & Hl & Hcase).
  destruct m as [|m]; [lia|]. apply le_S_n in Hm.
  rewrite deepcopy_fuel_ref.
  destruct Hok as (Hpre & Hbad & Hmemo).
  destruct (memo_get memo l) as [l1|] eqn:Hget.
  { destruct (Hmemo l l1 Hget) as [?|(t1 & n1 & mk1 & Hs1 & Hc1)]; [done|].
    assert (t1 = t) as -> by (eapply snapshot_fuel_fun; [exact Hs1|exact Hs0]).
    exists memo, h, (VRef l1).
    split; [done|]. split; [done|]. split; [by intros|]. split; [done|].
    eapply snapshot_fuel_refuel; [exact Hc1|].
    eapply snapshot_fuel_depth; exact Hs0. }
  assert (Hok : memo_ok h0 mk bad memo h) by done.
  assert (Hnew : length h ∉ bad).
  { intros Hin. specialize (Hbad _ Hin). lia. }
  assert (Hlen : length h0 <= length h) by (by apply prefix_length).
  assert (Hext0 : forall x y : loc,
             memo_get memo x = Some y ->
             memo_get ((l, length h) :: memo) x = Some y).
  { intros x y Hxy. unfold memo_get. simpl.
    destruct (Nat.eqb l x) eqn:Hlx; [|done].
    apply Nat.eqb_eq in Hlx as ->. congruence. }
  assert (Hget0 : memo_get ((l, length h) :: memo) l = Some (length h)).
  { unfold memo_get. simpl. by rewrite Nat.eqb_refl. }
  destruct Hcase as [(xs & ts & Hx & -> & Hxs)|(es & ets & Hx & -> & Hes)].
  - rewrite (heap_prefix_lookup _ _ _ _ Hx Hpre).
    assert (IH' : forall v t memo1 h1,
               snapshot_fuel n h0 (l :: mk) v = inr t -> wf_tree t = true ->
               memo_ok h0 (l :: mk) (length h :: bad) memo1 h1 ->
               copy_result n h0 (l :: mk) (length h :: bad) t memo1 h1
                 (deepcopy_fuel m memo1 h1 v)).
    { intros v t memo1 h1 Hv Hwt Hok1. by apply IH. }
    assert (Hin : length h ∈ length h :: bad) by (by left).
    destruct (copy_items_ok n m h0 (length h) (l :: mk) (length h :: bad)
                IH' Hin Hlen xs ts Hxs Hwf ((l, length h) :: memo)
                (h ++ [OList []]) [] [])
      as (memo' & h' & ys' & Hloop & Hframe & Hext & Hok' & Hys' & Hrd').
    { by apply memo_ok_open. }
    { by apply list_lookup_middle. }
    { constructor. }
    rewrite Hloop. simpl.
    assert (Hcp : snapshot_fuel (S n) h' bad (VRef (length h)) = inr (TList ts)).
    { by apply snapshot_fuel_list with ys'. }
    exists memo', h', (VRef (length h)). split; [done|].
    split; [apply Hframe; [by apply prefix_app_r|done]|].
    split; [intros x y Hxy; by apply Hext, Hext0|].
    split; [|done].
    eapply memo_ok_close; [exact Hok'|by apply Hext|exact Hs0|exact Hcp].
  - rewrite (heap_prefix_lookup _ _ _ _ Hx Hpre).
    simpl in Hwf. apply andb_true_iff in Hwf as [Hkeys Hwf].
    assert (IH' : forall v t memo1 h1,
               snapshot_fuel n h0 (l :: mk) v = inr t -> wf_tree t = true ->
               memo_ok h0 (l :: mk) (length h :: bad) memo1 h1 ->
               copy_result n h0 (l :: mk) (length h :: bad) t memo1 h1
                 (deepcopy_fuel m memo1 h1 v)).
    { intros v t memo1 h1 Hv Hwt Hok1. by apply IH. }
    assert (Hin : length h ∈ length h :: bad) by (by left).
    destruct (copy_entries_ok n m h0 (length h) (l :: mk) (length h :: bad)
                IH' Hin Hlen es ets Hes Hwf ((l, length h) :: memo)
                (h ++ [ODict []]) [] [])
      as (memo' & h' & kvs' & Hloop & Hframe & Hext & Hok' & Hkvs' & Hrd').
    { by apply memo_ok_open. }
    { by apply list_lookup_middle. }
    { constructor. }
    { done. }
    rewrite Hloop. simpl.
    assert (Hcp : snapshot_fuel (S n) h' bad (VRef (length h)) = inr (TDict ets)).
    { by apply snapshot_fuel_dict with kvs'. }
    exists memo', h', (VRef (length h)). split; [done|].
    split; [apply Hframe; [by apply prefix_app_r|done]|].
    split; [intros x y Hxy; by apply Hext, Hext0|].
    split; [|done].
    eapply memo_ok_close; [exact Hok'|by apply Hext|exact Hs0|exact Hcp].
Qed.

(** [copy.deepcopy] of a value that reads as a tree, whose mappings
    have pairwise different keys and whose depth the interpreter
    allows: the copy reads as the same tree, and goes through no object
    of the heap it was made in. *)
Lemma deepcopy_ok (depth : nat) (h : Py.heap) (v : pyval) (t : tree) :
  snapshot h v = inr t -> wf_tree t = true -> tree_depth t <= depth ->
  exists h' v',
    deepcopy depth h v = inr (h', v')
    /\ h `prefix_of` h'
    /\ snapshot_fuel (tree_depth t) h' (seq 0 (length h)) v' = inr t.
Proof.
  intros Hs Hwf Hd. unfold snapshot in Hs. unfold deepcopy.
  assert (Hs' : snapshot_fuel (tree_depth t) h [] v = inr t).
  { eapply snapshot_fuel_refuel; [exact Hs|done]. }
  destruct (deepcopy_fuel_ok (tree_depth t) h [] (seq 0 (length h))
              depth v t [] h)
    as (memo' & h' & v' & Hcall & Hpre & _ & _ & Hcp); try done.
  { split; [done|]. split.
    - intros b Hb. apply elem_of_seq in Hb. lia.
    - intros x y. by unfold memo_get. }
  rewrite Hcall. simpl. exists h', v'. repeat split; done.
Qed.

Lemma snapshot_fuel_le (n m : nat) (h : Py.heap) (mk : list loc) (v : pyval)
    (t : tree) :
  snapshot_fuel n h mk v = inr t -> n <= m -> snapshot_fuel m h mk v = inr t.
Proof.
  intros Hs Hm. eapply snapshot_fuel_refuel; [exact Hs|].
  apply snapshot_fuel_depth in Hs. lia.
Qed.

(** What the theorem below reads off [deepcopy_ok]. *)
Lemma deepcopy_reads (depth : nat) (h : Py.heap) (v : pyval) (t : tree) :
  snapshot h v = inr t -> wf_tree t = true -> tree_depth t <= depth ->
  exists h' v',
    deepcopy depth h v = inr (h', v')
    /\ h `prefix_of` h'
    /\ (is_None v' = true -> t = TAtom ANone)
    /\ (forall h'' : Py.heap,
          length h <= length h'' ->
          (forall x : loc,
              length h <= x -> x < length h' -> h'' !! x = h' !! x) ->
          snapshot h'' v' = inr t).
Proof.
  intros Hs Hwf Hd.
  destruct (deepcopy_ok depth h v t Hs Hwf Hd)
    as (h' & v' & Hcopy & Hpre & Hcp).
  exists h', v'. split; [done|]. split; [done|]. split.
  - destruct v' as [[]|]; try done. intros _.
    by apply snapshot_fuel_atom_inv in Hcp.
  - intros h'' Hlen Hsame. unfold snapshot.
    apply snapshot_fuel_le with (tree_depth t).
    2:{ apply snapshot_fuel_depth in Hs. lia. }
    eapply snapshot_fuel_mono; [exact Hcp| |by intros x ?%elem_of_nil].
    intros x ob Hx Hlx.
    assert (length h <= x).
    { destruct (decide (length h <= x)) as [|Hlt]; [done|].
      exfalso. apply Hx. apply elem_of_seq. lia. }
    rewrite Hsame; [done|done|]. by eapply lookup_lt_Some.
Qed.

(** X16: a creating [load] of a plain store whose data file is missing
    and whose default reads as a tree [t] other than [None], with
    pairwise different keys in each mapping and no deeper than
    [copy.deepcopy] can go.  The [load] returns; the
    store is marked loaded; its mapping is a copy that reads as [t],
    whatever is done later to the objects that were there, the default
    among them; the data file holds the text of [t] and nothing else
    on the disk has changed. *)
Theorem plain_creation_copies_default s (t : tree) :
  encryption (self s) = false ->
  path_exists (fs s) (db_file_name (self s)) = false ->
  snapshot (heap s) (default (self s)) = inr t ->
  wf_tree t = true ->
  tree_depth t <= S deepcopy_depth ->
  t <> TAtom ANone ->
  exists s',
    load true s = (s', inr tt)
    /\ loaded (self s') = true
    /\ heap s `prefix_of` heap s'
    /\ snapshot (heap s') (_db (self s')) = inr t
    /\ (forall h'' : Py.heap,
          length (heap s) <= length h'' ->
          (forall x : loc, length (heap s) <= x -> x < length (heap s') ->
                           h'' !! x = heap s' !! x) ->
          snapshot h'' (_db (self s')) = inr t)
    /\ fs s' = <[db_file_name (self s)
                 := File (list_byte_of_string (json_encode t))]> (fs s).
Proof.
  intros Henc Hmiss Hs Hwf Hdepth Hnn.
  destruct (deepcopy_reads _ _ _ _ Hs Hwf Hdepth)
    as (h' & v' & Hcopy & Hpre & Hv & Hnew).
  assert (Hnone : is_None v' = false).
  { destruct (is_None v') eqn:E; [|done]. by destruct Hnn, Hv. }
  assert (Hsnap : snapshot h' v' = inr t).
  { apply Hnew; [by apply prefix_length|done]. }
  assert (Hnodir : fs s !! db_file_name (self s) = None).
  { unfold path_exists in Hmiss. apply bool_decide_eq_false in Hmiss.
    destruct (fs s !! db_file_name (self s)) eqn:E; [|done].
    exfalso. apply Hmiss. by eexists. }
  destruct s as [f h tr o]. simpl in *.
  eexists. split.
  - unfold_load. simpl. rewrite Hmiss. simpl. rewrite Hcopy. simpl.
    rewrite plain_save_run by done. simpl. rewrite Hnone.
    rewrite write_plain_run. simpl. rewrite Hnodir, Hsnap.
    unfold dumped_text. simpl. rewrite Hsnap. reflexivity.
  - simpl. repeat split; done.
Qed.

(** ** The proxied operations and the disk *)

Lemma key_eqb_refl (k : atom) : key_eqb k k = true.
Proof.
  destruct k as [|b|z|s]; simpl; auto using Z.eqb_refl, String.eqb_refl.
Qed.

Lemma tree_lookup_set (k : atom) (t : tree) (es : list (atom * tree)) :
  tree_lookup k (tree_set k t es) = Some t.
Proof.
  induction es as [|[k' t'] es IH]; simpl.
  - by rewrite key_eqb_refl.
  - destruct (key_eqb k' k) eqn:Hk; simpl; by rewrite Hk.
Qed.

Lemma keys_distinct_set (k : atom) (t : tree) (es : list (atom * tree)) :
  keys_distinct (map fst es) = true ->
  keys_distinct (map fst (tree_set k t es)) = true.
Proof.
  induction es as [|[k' t'] es IH]; simpl; [done|].
  intros [Hk' Hes]%andb_true_iff.
  destruct (key_eqb k' k) eqn:Hk; simpl.
  { by rewrite Hk', Hes. }
  rewrite IH by done. rewrite andb_true_r.
  apply negb_true_iff. apply negb_true_iff in Hk'.
  clear IH Hes. induction es as [|[k1 t1] es IH]; simpl in *.
  - by rewrite Hk.
  - apply orb_false_iff in Hk' as [Hk1 Hrest].
    destruct (key_eqb k1 k); simpl; rewrite Hk1; simpl; [done|]. by apply IH.
Qed.

Lemma wf_tree_set (k : atom) (t : tree) (es : list (atom * tree)) :
  wf_tree (TDict es) = true -> wf_tree t = true ->
  wf_tree (TDict (tree_set k t es)) = true.
Proof.
  simpl. intros [Hk Hes]%andb_true_iff Ht.
  rewrite keys_distinct_set by done. simpl.
  clear Hk. induction es as [|[k' t'] es IH]; simpl in *.
  - by rewrite Ht.
  - apply andb_true_iff in Hes as [Ht' Hes].
    destruct (key_eqb k' k); simpl.
    + by rewrite Ht, Hes.
    + by rewrite Ht', IH.
Qed.

Lemma entries_set (n : nat) (h : Py.heap) (mk : list loc) (k : atom)
    (v : pyval) (t : tree) (kvs : list (atom * pyval))
    (es : list (atom * tree)) :
  Forall2 (fun kv kt => snapshot_entry n h mk kv = inr kt) kvs es ->
  snapshot_fuel n h mk v = inr t ->
  Forall2 (fun kv kt => snapshot_entry n h mk kv = inr kt)
    (dict_set k v kvs) (tree_set k t es).
Proof.
  intros Hes Hv.
  induction Hes as [|[k1 v1] [k2 t2] kvs es Hx Hes IH]; simpl.
  - constructor; [|constructor]. by apply snapshot_entry_inv.
  - pose proof Hx as [Hk Hr]%snapshot_entry_inv. simpl in Hk, Hr. subst k2.
    destruct (key_eqb k1 k).
    + constructor; [|done]. by apply snapshot_entry_inv.
    + by constructor.
Qed.

Lemma entries_lookup (n : nat) (h : Py.heap) (mk : list loc) (k : atom)
    (t : tree) (kvs : list (atom * pyval)) (es : list (atom * tree)) :
  Forall2 (fun kv kt => snapshot_entry n h mk kv = inr kt) kvs es ->
  tree_lookup k es = Some t ->
  exists v, dict_lookup k kvs = Some v /\ snapshot_fuel n h mk v = inr t.
Proof.
  intros Hes.
  induction Hes as [|[k1 v1] [k2 t2] kvs es Hx Hes IH]; simpl; [done|].
  apply snapshot_entry_inv in Hx as [Hk Hr]. simpl in Hk, Hr. subst k2.
  destruct (key_eqb k1 k); [|done].
  intros [= <-]. by exists v1.
Qed.

(** A value that reads as a mapping is a reference to a dict whose
    entries read as those of the mapping. *)
Lemma snapshot_dict_inv (h : Py.heap) (v : pyval) (es : list (atom * tree)) :
  snapshot h v = inr (TDict es) ->
  exists (l : loc) kvs,
    v = VRef l /\ h !! l = Some (ODict kvs)
    /\ Forall2 (fun kv kt => snapshot_entry (length h) h [l] kv = inr kt) kvs es.
Proof.
  unfold snapshot. destruct v as [a|l]; [done|].
  intros (n' & [= <-] & _ & Hcase)%snapshot_fuel_ref_inv.
  destruct Hcase as [(? & ? & _ & ? & _)|(kvs & ets & Hl & [= <-] & Hes)]; [done|].
  by exists l, kvs.
Qed.

(** [store[k] = v] through the proxy. *)
Lemma proxy_setitem_run s (l : loc) (kvs : list (atom * pyval)) (k : atom)
    (v : pyval) :
  _db (self s) = VRef l ->
  heap s !! l = Some (ODict kvs) ->
  proxy_function_creator "__setitem__" [VAtom k; v] [] s
  = Some (with_heap (<[l := ODict (dict_set k v kvs)]> (heap s)) s, inr RNone).
Proof.
  intros Hdb Hl. unfold proxy_function_creator, call_attr.
  cbn [map has_name existsb]. rewrite Hdb, Hl.
  change (has_name "__setitem__" func_names) with true.
  change (dict_getattr "__setitem__") with (Some dict_setitem).
  cbn [negb fmap option_fmap option_map dict_setitem as_key].
  unfold dict_store. by rewrite Hl.
Qed.

(** [store[k]] through the proxy, on a mapping that reads as [es]. *)
Lemma proxy_getitem_run s (es : list (atom * tree)) (k : atom) (t : tree) :
  snapshot (heap s) (_db (self s)) = inr (TDict es) ->
  tree_lookup k es = Some t ->
  exists v,
    proxy_function_creator "__getitem__" [VAtom k] [] s
    = Some (s, inr (RVal v))
    /\ snapshot (heap s) v = inr t.
Proof.
  intros Hs Hk.
  apply snapshot_dict_inv in Hs as (l & kvs & Hdb & Hl & Hes).
  destruct (entries_lookup _ _ _ _ _ _ _ Hes Hk) as (v & Hv & Hr).
  exists v. split.
  - unfold proxy_function_creator, call_attr.
    cbn [map has_name existsb]. rewrite Hdb, Hl.
    change (has_name "__getitem__" func_names) with true.
    change (dict_getattr "__getitem__") with (Some dict_getitem).
    cbn [negb fmap option_fmap option_map dict_getitem as_key res_bind].
    unfold entries_of. rewrite Hl, Hv. by destruct s.
  - unfold snapshot. apply snapshot_fuel_le with (length (heap s)); [|lia].
    eapply snapshot_fuel_mono; [exact Hr|done|by intros x ?%elem_of_nil].
Qed.

(** X17: what is stored through the proxy reaches the file at the
    next [save] and is read back from it.  In a plain store whose
    mapping reads as [es], with pairwise different keys,
    [store[k] = v] for a value [v] that reads as [t] without going
    through the mapping, then [save] (the data path not being a
    directory and the text format representing the new mapping): both
    return.  After them, [load] returns on every plain store object
    for the same data path, whatever it holds in memory and whatever
    the heap; its mapping then reads as [es] with [k] set to [t], and
    [store[k]] on it is a value that reads as [t]. *)
Theorem stored_item_survives_save_and_load s (es : list (atom * tree))
    (l : loc) (k : atom) (v : pyval) (t : tree) (_new create : bool) :
  encryption (self s) = false ->
  _db (self s) = VRef l ->
  snapshot (heap s) (VRef l) = inr (TDict es) ->
  wf_tree (TDict es) = true ->
  snapshot_fuel (length (heap s)) (heap s) [l] v = inr t ->
  wf_tree t = true ->
  json_decode (json_encode (TDict (tree_set k t es)))
  = Some (TDict (tree_set k t es)) ->
  fs s !! db_file_name (self s) <> Some Dir ->
  exists s1 s2,
    proxy_function_creator "__setitem__" [VAtom k; v] [] s
    = Some (s1, inr RNone)
    /\ save _new s1 = (s2, inr tt)
    /\ forall (o' : JSONDatabaseBackend) (h : Py.heap) (tr : list event),
        encryption o' = false ->
        db_file_name o' = db_file_name (self s) ->
        exists s3 v',
          load create {| fs := fs s2; heap := h; trace := tr; self := o' |}
          = (s3, inr tt)
          /\ snapshot (heap s3) (_db (self s3))
             = inr (TDict (tree_set k t es))
          /\ proxy_function_creator "__getitem__" [VAtom k] [] s3
             = Some (s3, inr (RVal v'))
          /\ snapshot (heap s3) v' = inr t.
Proof.
  intros Henc Hdb Hs Hwf Hv Hwt Hrep Hdir.
  pose proof Hs as (l0 & kvs & [= <-] & Hl & Hes)%snapshot_dict_inv.
  set (es' := tree_set k t es) in *.
  set (h1 := <[l := ODict (dict_set k v kvs)]> (heap s)).
  assert (Hlen : length h1 = length (heap s)) by apply heap_length_insert.
  assert (Hstay : forall (z : loc) (oz : pyobj),
             z ∉ [l] -> heap s !! z = Some oz -> h1 !! z = Some oz).
  { intros z oz Hz Hlz. unfold h1. rewrite heap_lookup_insert_ne; [done|].
    intros ->. apply Hz. by left. }
  assert (Hmk : forall z : loc, z ∈ [l] -> z ∈ [l] \/ length (heap s) <= z)
    by (by left).
  assert (Hs1 : snapshot h1 (VRef l) = inr (TDict es')).
  { unfold snapshot. rewrite Hlen.
    apply snapshot_fuel_dict with (dict_set k v kvs).
    - by intros ?%elem_of_nil.
    - unfold h1. apply heap_lookup_insert_eq. by eapply lookup_lt_Some.
    - apply entries_set.
      + eapply Forall2_impl; [exact Hes|]. intros kv kt Hr.
        apply snapshot_entry_inv in Hr as [Hkk Hr].
        apply snapshot_entry_inv. split; [done|].
        eapply snapshot_fuel_mono; [exact Hr|exact Hstay|exact Hmk].
      + eapply snapshot_fuel_mono; [exact Hv|exact Hstay|exact Hmk]. }
  assert (Hwf' : wf_tree (TDict es') = true) by (by apply wf_tree_set).
  set (s1 := with_heap h1 s).
  set (txt := list_byte_of_string (json_encode (TDict es'))).
  set (s2 := {| fs := <[db_file_name (self s) := File txt]> (fs s);
                heap := h1;
                trace := trace s ++ [EvOpen (db_file_name (self s))
                                       (mode_for "w" _new);
                                     EvWrite (db_file_name (self s)) txt];
                self := self s |}).
  assert (Hsave : save _new s1 = (s2, inr tt)).
  { rewrite plain_save_run by done. unfold s1. simpl.
    rewrite Hdb. simpl. rewrite write_plain_run. simpl.
    unfold dumped_text. simpl. rewrite Hdb, Hs1.
    by destruct (fs s !! db_file_name (self s)) as [[|]|]. }
  exists s1, s2.
  split; [by apply proxy_setitem_run|]. split; [exact Hsave|].
  intros o' h tr Henc' Hdb'.
  set (s2' := {| fs := fs s2; heap := h; trace := tr; self := o' |}).
  assert (Hload : load create s2'
                  = ({| fs := fs s2;
                        heap := fst (build h (TDict es'));
                        trace := tr ++ [EvOpen (db_file_name o') "r";
                                        EvRead (db_file_name o')];
                        self := set_loaded true
                                  (set__db (snd (build h (TDict es'))) o') |},
                     inr tt)).
  { rewrite (load_plain_run s2' create txt (TDict es'));
      [reflexivity | done | simpl; rewrite Hdb'; apply lookup_insert_eq |].
    unfold txt. by rewrite string_of_list_byte_of_string. }
  assert (Hs3 : snapshot (fst (build h (TDict es'))) (snd (build h (TDict es')))
                = inr (TDict es')) by (by apply snapshot_build).
  destruct (proxy_getitem_run
              {| fs := fs s2; heap := fst (build h (TDict es'));
                 trace := tr ++ [EvOpen (db_file_name o') "r";
                                 EvRead (db_file_name o')];
                 self := set_loaded true
                           (set__db (snd (build h (TDict es'))) o') |}
              es' k t) as (v' & Hget & Hv'); [done|apply tree_lookup_set|].
  eexists _, v'.
  split; [exact Hload|]. split; [exact Hs3|]. split; [exact Hget|exact Hv'].
Qed.

(** ** What [load] and [save] never do *)

Lemma list_append_prefix (hp h : Py.heap) (l' : loc) (x : pyval) :
  hp `prefix_of` h -> length hp <= l' -> hp `prefix_of` list_append h l' x.
Proof.
  intros Hp Hl. unfold list_append.
  destruct (h !! l') as [[ys|es]|]; try done. by apply prefix_insert_ge.
Qed.

Lemma dict_store_prefix (hp h : Py.heap) (l' : loc) (k : atom) (x : pyval) :
  hp `prefix_of` h -> length hp <= l' -> hp `prefix_of` dict_store h l' k x.
Proof.
  intros Hp Hl. unfold dict_store.
  destruct (h !! l') as [[ys|es]|]; try done. by apply prefix_insert_ge.
Qed.

(** A deep copy of any value, cyclic or not, leaves the objects that
    were there as they were. *)
Lemma deepcopy_fuel_prefix (n : nat) :
  forall (memo : list (loc * loc)) (h : Py.heap) (v : pyval)
         (memo' : list (loc * loc)) (h' : Py.heap) (v' : pyval),
    deepcopy_fuel n memo h v = inr (memo', h', v') -> h `prefix_of` h'.
Proof.
  induction n as [|n IH]; intros memo h v memo' h' v' Hc.
  { destruct v as [a|l]; simpl in Hc.
    - by simplify_eq.
    - destruct (memo_get memo l); by simplify_eq. }
  destruct v as [a|l].
  { rewrite deepcopy_fuel_atom in Hc. by simplify_eq. }
  rewrite deepcopy_fuel_ref in Hc.
  destruct (memo_get memo l); [by simplify_eq|].
  destruct (h !! l) as [[xs|es]|]; [| |done].
  - destruct (copy_items n (length h) ((l, length h) :: memo)
                (h ++ [OList []]) xs) as [e|[memo1 h1]] eqn:Hloop; [done|].
    simpl in Hc. simplify_eq.
    enough (Hgen : forall xs memo0 h0 memo1 h1,
               copy_items n (length h) memo0 h0 xs = inr (memo1, h1) ->
               h `prefix_of` h0 -> h `prefix_of` h1).
    { eapply Hgen; [exact Hloop|]. by apply prefix_app_r. }
    clear -IH. intros xs. induction xs as [|x xs IHxs];
      intros memo0 h0 memo1 h1 Hloop Hp.
    { simpl in Hloop. by simplify_eq. }
    rewrite copy_items_cons in Hloop.
    destruct (deepcopy_fuel n memo0 h0 x) as [e|[[memo2 h2] x']] eqn:Hx;
      [done|]. simpl in Hloop.
    eapply IHxs; [exact Hloop|].
    apply list_append_prefix; [|done].
    etrans; [exact Hp|]. eapply IH; exact Hx.
  - destruct (copy_entries n (length h) ((l, length h) :: memo)
                (h ++ [ODict []]) es) as [e|[memo1 h1]] eqn:Hloop; [done|].
    simpl in Hc. simplify_eq.
    enough (Hgen : forall es memo0 h0 memo1 h1,
               copy_entries n (length h) memo0 h0 es = inr (memo1, h1) ->
               h `prefix_of` h0 -> h `prefix_of` h1).
    { eapply Hgen; [exact Hloop|]. by apply prefix_app_r. }
    clear -IH. intros es. induction es as [|[k x] es IHes];
      intros memo0 h0 memo1 h1 Hloop Hp.
    { simpl in Hloop. by simplify_eq. }
    rewrite copy_entries_cons in Hloop.
    destruct (deepcopy_fuel n memo0 h0 x) as [e|[[memo2 h2] x']] eqn:Hx;
      [done|]. simpl in Hloop.
    eapply IHes; [exact Hloop|].
    apply dict_store_prefix; [|done].
    etrans; [exact Hp|]. eapply IH; exact Hx.
Qed.

Lemma deepcopy_prefix (depth : nat) (h h' : Py.heap) (v v' : pyval) :
  deepcopy depth h v = inr (h', v') -> h `prefix_of` h'.
Proof.
  unfold deepcopy, res_map, res_bind.
  destruct (deepcopy_fuel depth [] h v) as [e|[[memo1 h1] v1]] eqn:Hc;
    [done|].
  intros [= <- <-]. eapply deepcopy_fuel_prefix; exact Hc.
Qed.

(** X18: [load] never changes an object that was there: whatever its
    outcome, it only adds objects after those of the heap.  So the
    mapping of a store that is loaded again is made of new objects, and
    what was held of the old one is intact (and stale). *)
Theorem load_only_allocates s s' (create : bool) (r : result unit) :
  load create s = (s', r) -> heap s `prefix_of` heap s'.
Proof.
  intros Hload.
  destruct s as [f h tr o]. simpl in *.
  unfold_load. simpl in Hload.
  repeat (case_in Hload; simpl in *; simplify_eq).
  all: repeat match goal with u : unit |- _ => destruct u end.
  all: repeat match goal with
         | Hs : save _ _ = _ |- _ =>
             apply save_keeps in Hs as [_ Hs]; simpl in Hs; try rewrite Hs
         | Hc : deepcopy _ _ _ = inr ?p |- _ =>
             destruct p; apply deepcopy_prefix in Hc
         end.
  all: simpl in *; try done.
  all: try match goal with
         | Hh : heap ?s1 = _ |- _ `prefix_of` heap ?s1 => rewrite Hh
         end.
  all: try done.
  all: apply build_prefix.
Qed.

(** X19: an encrypted store built without a metadata path
    ([crypto_data_file_name] is [None] by default).  Its first [save],
    the one of a creating [load], makes the metadata, writes the
    encrypted data file and only then raises [TypeError], at the
    [open] of the metadata file: the data file is left encrypted with
    metadata that are nowhere on the disk.  Every later [load] raises
    [TypeError] at its first [open], before it reads anything. *)
Theorem encrypted_store_without_metadata_path s (t : tree)
    (bin ct : list byte) (c : cryptodata) :
  encryption (self s) = true ->
  crypto_data_file_name (self s) = None ->
  snapshot (heap s) (_db (self s)) = inr t ->
  is_None (_db (self s)) = false ->
  str_encode (encryption_text_encoding (self s)) (json_encode t) = inr bin ->
  make_new (string_key (self s)) (encryption_text_encoding (self s)) = inr c ->
  encrypt c bin = inr ct ->
  fs s !! db_file_name (self s) <> Some Dir ->
  exists s',
    save true s = (s', inl TypeError)
    /\ fs s' = <[db_file_name (self s) := File ct]> (fs s)
    /\ crypto_data (self s') = Some c
    /\ forall create, exists s'',
         load create s' = (s'', inl TypeError)
         /\ fs s'' = fs s' /\ trace s'' = trace s'.
Proof.
  intros Henc Hmeta Hsnap Hnone Hbin Hnew Hct Hdir.
  destruct s as [f h tr o]. simpl in *.
  eexists. split.
  { unfold_save. simpl. rewrite Hnone. simpl. rewrite Henc. simpl.
    rewrite Hnew. simpl.
    unfold write_encrypted, json_dumps, crypto_dump, write_text, write_bytes,
      open, crypto_call, get_crypto_data, get_self.
    unfold bind, modify, get, lift, ret, raise. simpl.
    rewrite Hsnap. simpl. rewrite Hbin. simpl. rewrite Hct. simpl.
    rewrite open_file_write_ok by auto. simpl.
    erewrite write_file_handle by apply lookup_insert_eq. simpl.
    rewrite insert_insert_eq, Hmeta. simpl. reflexivity. }
  simpl. split; [done|]. split; [done|].
  intros create. eexists. split.
  { unfold_load. simpl.
    assert (Hfile : <[db_file_name o := File ct]> f !! db_file_name o
                    = Some (File ct)) by apply lookup_insert_eq.
    destruct (path_exists_file _ _ _ Hfile) as [Hex Hisf].
    rewrite Hex. simpl. rewrite Hisf. simpl. rewrite Henc. simpl.
    rewrite Hmeta. simpl. reflexivity. }
  simpl. done.
Qed.

Lemma forallb_on_path_app (p : string) (evs evs' : list event) :
  forallb (on_path p) evs = true -> forallb (on_path p) evs' = true ->
  forallb (on_path p) (evs ++ evs') = true.
Proof. intros H1 H2. by rewrite forallb_app, H1, H2. Qed.

Lemma plain_save_effects s s' (n : bool) (r : result unit) :
  encryption (self s) = false ->
  save n s = (s', r) ->
  exists evs, trace s' = trace s ++ evs
              /\ forallb (on_path (db_file_name (self s))) evs = true.
Proof.
  intros Henc Hs. rewrite plain_save_run in Hs by done.
  destruct (is_None (_db (self s))).
  { simplify_eq. exists []. by rewrite app_nil_r. }
  rewrite write_plain_run in Hs. simpl in Hs.
  destruct (fs s !! db_file_name (self s)) as [[c|]|]; simplify_eq; simpl;
    eexists; (split; [reflexivity|]); simpl; by rewrite String.eqb_refl.
Qed.

(** X20: a plain store never calls the crypto module and never opens,
    reads or writes another file than its data file: every effect of a
    [load] or of a [save], whatever the outcome, is an [open], a read
    or a write of the data path. *)
Theorem plain_store_effects s s' (b : bool) (r : result unit) :
  encryption (self s) = false ->
  load b s = (s', r) \/ save b s = (s', r) ->
  exists evs, trace s' = trace s ++ evs
              /\ forallb (on_path (db_file_name (self s))) evs = true.
Proof.
  intros Henc [Hload|Hsave]; [|by eapply plain_save_effects].
  destruct s as [f h tr o]. simpl in *.
  unfold_load. simpl in Hload. rewrite Henc in Hload. simpl in Hload.
  repeat (case_in Hload; simpl in *; simplify_eq).
  all: repeat match goal with u : unit |- _ => destruct u end.
  all: repeat match goal with
         | Ho : open_file _ _ _ = inr ?p |- _ =>
             destruct p; apply open_file_path in Ho; simpl in Ho
         end.
  all: simpl in *; subst.
  all: try match goal with
         | Hs : save _ _ = _ |- _ =>
             apply plain_save_effects in Hs; [|exact Henc];
             destruct Hs as (evs & -> & Hevs); simpl in *
         end.
  all: repeat rewrite <- (app_assoc tr); simpl.
  all: try (exists []; by rewrite app_nil_r).
  all: try match goal with
         | Hp : h_path _ = _ |- _ => rewrite Hp
         end.
  all: eexists; (split; [reflexivity|]); simpl;
    rewrite ?String.eqb_refl; done.
Qed.

End Coverage.

(** * The further properties on the reference collaborators *)

Section CoverageInstances.

Import Reference Examples Cases.

Local Abbreviation by_eval := ltac:(vm_compute; reflexivity) (only parsing).

(** X1 for [get] on the store the constructor's defaults give. *)
Lemma new_store_is_not_usable_witness :
  has_name "get" func_names = true
  /\ save false (empty_state plain_store)
     = (empty_state plain_store, inl (AssertionError not_loaded_message))
  /\ proxy_function_creator "get" [VStr "k"] [] (empty_state plain_store)
     = Some (empty_state plain_store, inl (AttributeError "get")).
Proof.
  split; [vm_compute; reflexivity|].
  exact (proj2 (new_store_is_not_usable "db.json" VNone false None None
                  "utf-8" ∅ [] [] "get" [VStr "k"] [] false by_eval)).
Defined.

(** X2 at a data path that is a directory. *)
Lemma load_refuses_directory_witness :
  fs on_directory !! db_file_name (self on_directory) = Some Dir
  /\ load true on_directory
     = (on_directory, inl (Exception "Database file isn't a file")).
Proof.
  split; [vm_compute; reflexivity|].
  apply (load_refuses_directory on_directory true). reflexivity.
Defined.

(** X3 at a data file holding one brace. *)
Lemma plain_load_reads_only_witness :
  encryption (self (on_file "{")) = false
  /\ path_exists (fs (on_file "{")) (db_file_name (self (on_file "{"))) = true
  /\ fs (fst (load true (on_file "{"))) = fs (on_file "{")
  /\ snd (load true (on_file "{")) = inl JSONDecodeError.
Proof.
  split; [vm_compute; reflexivity|]. split; [vm_compute; reflexivity|].
  destruct (plain_load_reads_only (on_file "{") true by_eval by_eval)
    as [Hfs Hbad].
  split; [exact Hfs|].
  exact (proj1 (Hbad (list_byte_of_string "{") by_eval by_eval)).
Defined.

(** X4 at a data file holding [null]. *)
Lemma load_of_null_file_witness :
  encryption (self (on_file "null")) = false
  /\ fs (on_file "null") !! db_file_name (self (on_file "null"))
     = Some (File (list_byte_of_string "null"))
  /\ json_decode (string_of_list_byte (list_byte_of_string "null"))
     = Some (TAtom ANone)
  /\ exists s',
      load false (on_file "null") = (s', inr tt)
      /\ loaded (self s') = true
      /\ _db (self s') = VNone
      /\ forall n, save n s' = (s', inl (AssertionError not_loaded_message)).
Proof.
  split; [vm_compute; reflexivity|]. split; [vm_compute; reflexivity|]. split; [vm_compute; reflexivity|].
  destruct (load_of_null_file (on_file "null") false
              (list_byte_of_string "null") by_eval by_eval by_eval)
    as (s' & Hload & Hl & Hdb & _ & Hsave & _).
  exists s'. repeat split; assumption.
Defined.

(** X5 at a loaded plain store holding an empty dict. *)
Lemma plain_save_frame_witness :
  encryption (self plain_loaded) = false
  /\ heap (fst (save false plain_loaded)) = heap plain_loaded
  /\ self (fst (save false plain_loaded)) = self plain_loaded.
Proof.
  split; [vm_compute; reflexivity|].
  destruct (plain_save_frame plain_loaded false by_eval) as (Hh & Hs & _).
  split; [exact Hh|exact Hs].
Defined.

(** X6 at the same store. *)
Lemma plain_save_twice_witness :
  encryption (self plain_loaded) = false
  /\ save true plain_loaded = (fst (save true plain_loaded), inr tt)
  /\ exists s2,
      save false (fst (save true plain_loaded)) = (s2, inr tt)
      /\ fs s2 = fs (fst (save true plain_loaded)).
Proof.
  split; [vm_compute; reflexivity|]. split; [vm_compute; reflexivity|].
  destruct (plain_save_twice plain_loaded (fst (save true plain_loaded))
              true false by_eval by_eval) as (s2 & Hs & Hfs & _).
  exists s2. split; [exact Hs|exact Hfs].
Defined.

(** X7 at a mapping that contains itself. *)
Lemma plain_save_failure_truncates_witness :
  encryption (self cyclic_state) = false
  /\ is_None (_db (self cyclic_state)) = false
  /\ snapshot (heap cyclic_state) (_db (self cyclic_state)) = inl ValueError
  /\ fs cyclic_state !! db_file_name (self cyclic_state)
     = Some (File (list_byte_of_string "{}"))
  /\ snd (save false cyclic_state) = inl ValueError
  /\ fs (fst (save false cyclic_state)) !! db_file_name (self cyclic_state)
     = Some (File []).
Proof.
  split; [vm_compute; reflexivity|]. split; [vm_compute; reflexivity|]. split; [vm_compute; reflexivity|].
  split; [vm_compute; reflexivity|].
  exact (plain_save_failure_truncates cyclic_state false ValueError
           (list_byte_of_string "{}") by_eval by_eval by_eval by_eval).
Defined.

(** X8 at an encrypted store whose secret has changed. *)
Lemma encrypted_save_frame_witness :
  encryption (self (encrypted_state "new")) = true
  /\ heap (fst (save false (encrypted_state "new")))
     = heap (encrypted_state "new")
  /\ keeps (self (encrypted_state "new"))
       (self (fst (save false (encrypted_state "new")))).
Proof.
  split; [vm_compute; reflexivity|].
  destruct (encrypted_save_frame (encrypted_state "new") false by_eval)
    as (Hh & Hk & _).
  split; [exact Hh|exact Hk].
Defined.

(** X9 at an encrypted store whose mapping contains itself. *)
Lemma encrypted_save_failure_keeps_disk_witness :
  encryption (self cyclic_encrypted) = true
  /\ is_None (_db (self cyclic_encrypted)) = false
  /\ snapshot (heap cyclic_encrypted) (_db (self cyclic_encrypted))
     = inl ValueError
  /\ fs (fst (save false cyclic_encrypted)) = fs cyclic_encrypted
  /\ exists e', snd (save false cyclic_encrypted) = inl e'.
Proof.
  split; [vm_compute; reflexivity|]. split; [vm_compute; reflexivity|]. split; [vm_compute; reflexivity|].
  exact (encrypted_save_failure_keeps_disk cyclic_encrypted false ValueError
           by_eval by_eval by_eval).
Defined.

(** X10 at an encrypted store whose secret is the one of its metadata. *)
Lemma encrypted_save_leaves_matching_files_witness :
  encryption (self (encrypted_state "old")) = true
  /\ save false (encrypted_state "old")
     = (fst (save false (encrypted_state "old")), inr tt)
  /\ exists c meta,
      crypto_data (self (fst (save false (encrypted_state "old")))) = Some c
      /\ fs (fst (save false (encrypted_state "old"))) !! meta
         = Some (File (list_byte_of_string (fst (interop_dump c)))).
Proof.
  split; [vm_compute; reflexivity|]. split; [vm_compute; reflexivity|].
  destruct (encrypted_save_leaves_matching_files (encrypted_state "old")
              (fst (save false (encrypted_state "old"))) false
              by_eval by_eval)
    as (c & t & bin & ct & meta & _ & Hc & _ & _ & _ & Hfile & _).
  exists c, meta. split; [exact Hc|exact Hfile].
Defined.

(** X11 at the creating load of an encrypted store. *)
Lemma encrypted_load_rewrites_files_witness :
  encryption (self (fresh_encrypted "pw")) = true
  /\ load true (fresh_encrypted "pw")
     = (fst (load true (fresh_encrypted "pw")), inr tt)
  /\ exists pre meta ct md,
      trace (fst (load true (fresh_encrypted "pw")))
      = trace (fresh_encrypted "pw") ++ pre
        ++ write_events true "db.bin" meta ct md.
Proof.
  split; [vm_compute; reflexivity|]. split; [vm_compute; reflexivity|].
  destruct (encrypted_load_rewrites_files (fresh_encrypted "pw")
              (fst (load true (fresh_encrypted "pw"))) true by_eval by_eval)
    as (pre & c & t & bin & ct & meta & _ & _ & _ & _ & _ & Htr & _).
  exists pre, meta, ct, (list_byte_of_string (fst (interop_dump c))).
  exact Htr.
Defined.

(** X12 at a data file holding one brace. *)
Lemma failed_load_keeps_flag_witness :
  path_exists (fs (on_file "{")) (db_file_name (self (on_file "{"))) = true
  /\ load true (on_file "{")
     = (fst (load true (on_file "{")), inl JSONDecodeError)
  /\ loaded (self (fst (load true (on_file "{"))))
     = loaded (self (on_file "{")).
Proof.
  split; [vm_compute; reflexivity|]. split; [vm_compute; reflexivity|].
  exact (proj1 (failed_load_keeps_flag (on_file "{")
                  (fst (load true (on_file "{"))) true JSONDecodeError
                  by_eval by_eval)).
Defined.

(** X13 at a data file the metadata on the disk do not decrypt. *)
Lemma failed_decrypt_replaces_metadata_witness :
  encryption (self undecryptable) = true
  /\ crypto_data (self undecryptable) = None
  /\ exists s',
      load true undecryptable = (s', inl (CryptoError "DecryptError"))
      /\ fs s' = fs undecryptable
      /\ crypto_data (self s') = Some ("pw" : @cryptodata toy_crypto).
Proof.
  split; [vm_compute; reflexivity|]. split; [vm_compute; reflexivity|].
  destruct (failed_decrypt_replaces_metadata undecryptable true
              "db.cryptodata" (list_byte_of_string "pw")
              (list_byte_of_string "junk") ("pw" : @cryptodata toy_crypto)
              (CryptoError "DecryptError")
              by_eval by_eval by_eval by_eval by_eval by_eval)
    as (s' & Hload & Hfs & _ & _ & Hc & _).
  exists s'. repeat split; assumption.
Defined.

(** X14 at an encrypted store built without a secret. *)
Lemma failed_creation_leaves_store_loaded_witness :
  encryption (self without_secret) = true
  /\ path_exists (fs without_secret) (db_file_name (self without_secret))
     = false
  /\ deepcopy (S deepcopy_depth) (heap without_secret)
       (default (self without_secret))
     = inr ([ODict []; ODict []], VRef 1)
  /\ make_new (string_key (self without_secret))
       (encryption_text_encoding (self without_secret)) = inl TypeError
  /\ exists s',
      load true without_secret = (s', inl TypeError)
      /\ loaded (self s') = true
      /\ _db (self s') = VRef 1
      /\ save false s' = (s', inl (AttributeError "crypto_data")).
Proof.
  split; [vm_compute; reflexivity|]. split; [vm_compute; reflexivity|]. split; [vm_compute; reflexivity|].
  split; [vm_compute; reflexivity|].
  destruct (failed_creation_leaves_store_loaded without_secret
              [ODict []; ODict []] (VRef 1) TypeError
              by_eval by_eval by_eval by_eval by_eval)
    as (s' & Hload & _ & _ & Hl & Hdb & _ & Hsave).
  exists s'. split; [exact Hload|]. split; [exact Hl|].
  split; [exact Hdb|]. exact (Hsave by_eval).
Defined.

(** X16 at a plain store whose default is the nested mapping. *)
Lemma plain_creation_copies_default_witness :
  encryption (self nested_default) = false
  /\ path_exists (fs nested_default) (db_file_name (self nested_default))
     = false
  /\ snapshot (heap nested_default) (default (self nested_default))
     = inr nested_mapping
  /\ wf_tree nested_mapping = true
  /\ tree_depth nested_mapping <= S deepcopy_depth
  /\ exists s',
      load true nested_default = (s', inr tt)
      /\ loaded (self s') = true
      /\ snapshot (heap s') (_db (self s')) = inr nested_mapping.
Proof.
  split; [vm_compute; reflexivity|]. split; [vm_compute; reflexivity|].
  split; [vm_compute; reflexivity|]. split; [vm_compute; reflexivity|].
  assert (Hdepth : tree_depth nested_mapping <= S deepcopy_depth).
  { apply Nat.leb_le. vm_compute. reflexivity. }
  split; [exact Hdepth|].
  destruct (plain_creation_copies_default nested_default nested_mapping
              by_eval by_eval by_eval by_eval Hdepth)
    as (s' & Hload & Hl & _ & Hs & _); [discriminate|].
  exists s'. repeat split; assumption.
Defined.

(** X17 at the nested mapping, for [store["c"] = store["b"]], read
    back by a new store object on an empty heap. *)
Lemma stored_item_survives_save_and_load_witness :
  encryption (self nested_state) = false
  /\ _db (self nested_state) = VRef 1
  /\ snapshot (heap nested_state) (VRef 1) = inr (TDict nested_entries)
  /\ snapshot_fuel (length (heap nested_state)) (heap nested_state) [1]
       (VRef 0)
     = inr (TList [TAtom (ABool true); TAtom ANone])
  /\ exists s1 s2 s3 v',
      proxy_function_creator "__setitem__" [VStr "c"; VRef 0] [] nested_state
      = Some (s1, inr RNone)
      /\ save false s1 = (s2, inr tt)
      /\ load false {| fs := fs s2; heap := []; trace := [];
                       self := init_default "db.json" |}
         = (s3, inr tt)
      /\ proxy_function_creator "__getitem__" [VStr "c"] [] s3
         = Some (s3, inr (RVal v'))
      /\ snapshot (heap s3) v' = inr (TList [TAtom (ABool true); TAtom ANone]).
Proof.
  split; [vm_compute; reflexivity|]. split; [vm_compute; reflexivity|].
  split; [vm_compute; reflexivity|]. split; [vm_compute; reflexivity|].
  destruct (stored_item_survives_save_and_load nested_state nested_entries
              1 (AStr "c") (VRef 0) (TList [TAtom (ABool true); TAtom ANone])
              false false by_eval by_eval by_eval by_eval by_eval by_eval)
    as (s1 & s2 & Hset & Hsave & Hload).
  - vm_compute. reflexivity.
  - discriminate.
  - destruct (Hload (init_default "db.json") [] [] eq_refl eq_refl)
      as (s3 & v' & Hl & _ & Hget & Hv').
    exists s1, s2, s3, v'. repeat split; assumption.
Defined.

(** X18 at the creating load of an encrypted store. *)
Lemma load_only_allocates_witness :
  load true (fresh_encrypted "pw")
  = (fst (load true (fresh_encrypted "pw")), inr tt)
  /\ heap (fresh_encrypted "pw")
     `prefix_of` heap (fst (load true (fresh_encrypted "pw"))).
Proof.
  split; [vm_compute; reflexivity|].
  apply (load_only_allocates (fresh_encrypted "pw") _ true (inr tt)).
  vm_compute; reflexivity.
Defined.

(** X19 at an encrypted store built without a metadata path. *)
Lemma encrypted_store_without_metadata_path_witness :
  encryption (self without_metadata_path) = true
  /\ crypto_data_file_name (self without_metadata_path) = None
  /\ exists s',
      save true without_metadata_path = (s', inl TypeError)
      /\ fs s' !! "db.bin"
         = Some (File (toy_seal "pw" (list_byte_of_string "{}")))
      /\ snd (load false s') = inl TypeError.
Proof.
  split; [vm_compute; reflexivity|]. split; [vm_compute; reflexivity|].
  destruct (encrypted_store_without_metadata_path without_metadata_path
              (TDict []) (list_byte_of_string "{}")
              (toy_seal "pw" (list_byte_of_string "{}"))
              ("pw" : @cryptodata toy_crypto)
              by_eval by_eval by_eval by_eval by_eval by_eval by_eval)
    as (s' & Hsave & Hfs & _ & Hload).
  - discriminate.
  - exists s'. split; [exact Hsave|]. split.
    + rewrite Hfs. apply lookup_insert_eq.
    + destruct (Hload false) as (s'' & -> & _). reflexivity.
Defined.

(** X20 at the load of a plain store over an empty mapping. *)
Lemma plain_store_effects_witness :
  encryption (self (on_file "{}")) = false
  /\ load true (on_file "{}") = (fst (load true (on_file "{}")), inr tt)
  /\ exists evs,
      trace (fst (load true (on_file "{}"))) = trace (on_file "{}") ++ evs
      /\ forallb (on_path "db.json") evs = true.
Proof.
  split; [vm_compute; reflexivity|]. split; [vm_compute; reflexivity|].
  apply (plain_store_effects (on_file "{}") _ true (inr tt));
    [vm_compute; reflexivity | left; vm_compute; reflexivity].
Defined.

End CoverageInstances.
